(** * Ticket lifecycle and check-in of the tickmate backend

    A shallow embedding of the booking, cancellation, scanning and
    attendance handlers (controllers for attendees, staff and hosts)
    over the Event, Ticket and Payment models, followed by the
    properties of the ticket lifecycle.

    Conventions of the embedding:
    - a MongoDB ObjectId is an [Id] (a natural number); an id that a
      request carries is an [IdParam], the ObjectId it is cast to or
      nothing when the cast fails;
    - a JavaScript [Date] is its number of milliseconds since the epoch;
    - a JavaScript [Number] holding a count is a [Z]; a price, which the
      handlers store, compare and copy but never compute with, is the
      exact rational [Q] its double stands for; the attendance rate,
      which is computed, is computed on IEEE 754 doubles ([Double]);
    - the fields of a request body that a handler uses as strings are
      strings or absent, as the clients send them; [note], on which a
      handler calls a string method, may be of another type ([Field]);
    - a collection is the list of its documents in insertion order (the
      order in which [findOne] meets them), except events and users,
      which the handlers only reach through their [_id];
    - what a handler reads from its environment ([new Date()], generated
      identifiers and random values, and the clock readings Mongoose
      makes for the [timestamps] option) is passed to it as an
      argument. *)

From Stdlib Require Import ZArith QArith Qround Lia.
From Stdlib Require Import Floats.SpecFloat.
From stdpp Require Import base option list sorting gmap strings.

Local Open Scope Z_scope.

Definition Id := N.
Definition Time := Z.

(** An id as a request carries it (a route parameter or a body field),
    seen through the cast Mongoose applies when the id enters a query:
    the ObjectId it stands for, or a value that cannot be cast, on
    which the query throws a [CastError]. *)
Inductive IdParam := ObjectId (i : Id) | Malformed.

#[global] Instance IdParam_eq_dec : EqDecision IdParam.
Proof. solve_decision. Defined.

(** A field of a JSON body on which a handler calls a string method:
    absent, a string, or a value of another type, truthy or not. *)
Inductive Field := Absent | Text (s : string) | NotText (truthy : bool).

(** JavaScript truthiness of a request field that holds a string or is
    absent: [undefined] and the empty string are falsy. *)
Definition truthy (o : option string) : bool :=
  match o with
  | Some EmptyString => false
  | Some _ => true
  | None => false
  end.

(** [a || b] on such a field. *)
Definition or_default (o : option string) (d : string) : string :=
  match o with
  | Some s => if truthy o then s else d
  | None => d
  end.

(** [x < y] on exact rationals. *)
Definition Qltb (x y : Q) : bool := negb (Qle_bool y x).

(** ** Double precision

    The arithmetic of JavaScript numbers, IEEE 754 binary64 with
    rounding to nearest, ties to even, as the Standard Library specifies
    it. *)

Module Double.
Definition prec : Z := 53.
Definition emax : Z := 1024.

(** The double nearest to an integer; exact below [2^53]. *)
Definition of_Z (n : Z) : spec_float := binary_normalize prec emax n 0 false.

Definition div : spec_float → spec_float → spec_float := SFdiv prec emax.
Definition mul : spec_float → spec_float → spec_float := SFmul prec emax.

(** The real number a finite double stands for. *)
Definition to_Q (x : spec_float) : Q :=
  match x with
  | S754_finite s m e =>
    let v := (inject_Z (Z.pos m) * Qpower 2 e)%Q in
    if s then (- v)%Q else v
  | _ => 0%Q
  end.

(** [parseFloat(x.toFixed(2))] for a finite [x] below [10^21]:
    [toFixed] takes the integer [n] for which [n / 100] is nearest to
    the exact value of [x], the larger one when two are as near, the
    sign being set aside first; the decimal it prints reads back as
    [n / 100]. *)
Definition toFixed2 (x : spec_float) : Q :=
  if Qltb (to_Q x) 0 then Qred (- (Qfloor (- to_Q x * 100 + (1 # 2)) # 100))
  else Qred (Qfloor (to_Q x * 100 + (1 # 2)) # 100).
End Double.

(** ** Models *)

Module User.
Record t := mk {
  firstName : string;
  lastName : string;
  email : string
}.
End User.

Module Event.
Inductive Status := draft | published | cancelled | completed.

#[global] Instance Status_eq_dec : EqDecision Status.
Proof. solve_decision. Defined.

Record Pricing := mkPricing {
  isFree : bool;
  price : Q;
  currency : string
}.

(** The paths of [eventSchema] that the handlers below read or write,
    with the [updatedAt] stamp of its [timestamps] option, which every
    update of the document rewrites; the [_id] of an event is its key in
    the collection. *)
Record t := mk {
  title : string;
  startDateTime : Time;
  endDateTime : Time;
  pricing : Pricing;
  host : Id;
  assignedStaff : list Id;
  capacity : Z;
  ticketsSold : Z;
  status : Status;
  updatedAt : Time
}.

(** [{ $inc: { ticketsSold: d } }] applied at time [now]: under
    [timestamps: true] Mongoose adds [{ $set: { updatedAt: now } }] to
    the update. *)
Definition inc_ticketsSold (d : Z) (now : Time) (e : t) : t :=
  mk (title e) (startDateTime e) (endDateTime e) (pricing e) (host e)
     (assignedStaff e) (capacity e) (ticketsSold e + d) (status e) now.
End Event.

Module Ticket.
Inductive Status := active | cancelled | used | expired.
Inductive PaymentStatus := pending | completed | failed | refunded.

#[global] Instance Status_eq_dec : EqDecision Status.
Proof. solve_decision. Defined.

(** The object that [bookTicket] serialises into the QR code; the image
    URL stored in [qrCodeUrl] is an encoding of it. *)
Record QrPayload := mkQr {
  qr_ticketNumber : string;
  qr_eventId : Id;
  qr_attendeeId : Id;
  validationCode : string
}.

#[global] Instance QrPayload_eq_dec : EqDecision QrPayload.
Proof. solve_decision. Defined.

Record CheckInStatus := mkCheckIn {
  isCheckedIn : bool;
  checkInTime : option Time;
  checkedInBy : option Id;
  checkInLocation : option string
}.

Record AttendeeInfo := mkInfo {
  specialRequirements : option string;
  dietaryRestrictions : option string;
  emergencyContact : option (string * string)
}.

Record Verification := mkVerification {
  isScanned : bool;
  scannedAt : option Time;
  scannedBy : option Id;
  entryTime : option Time;
  exitTime : option Time;
  scanCount : Z
}.

#[global] Instance Verification_eq_dec : EqDecision Verification.
Proof. solve_decision. Defined.

(** An element of [staffNotes]: a subdocument, to which Mongoose gives
    an [_id] of its own. *)
Record StaffNote := mkNote {
  note_id : Id;
  staffId : Id;
  note : string;
  note_createdAt : Time
}.

(** The paths declared by [ticketSchema], the [createdAt] and
    [updatedAt] stamps of its [timestamps] option, and the version key
    [__v] that Mongoose keeps on every document. *)
Record t := mk {
  _id : Id;
  eventId : Id;
  attendeeId : Id;
  ticketNumber : string;
  qrCodeUrl : QrPayload;
  qrCodeData : string;
  paymentId : string;
  pricePaid : Q;
  paymentStatus : PaymentStatus;
  status : Status;
  checkInStatus : CheckInStatus;
  bookingDate : Time;
  attendeeInfo : AttendeeInfo;
  verification : Verification;
  staffNotes : list StaffNote;
  createdAt : Time;
  updatedAt : Time;
  __v : Z
}.

(** Schema defaults of the paths a constructor call leaves out. *)
Definition default_checkInStatus : CheckInStatus :=
  mkCheckIn false None None None.
Definition default_verification : Verification :=
  mkVerification false None None None None 0.

Definition set_status (s : Status) (x : t) : t :=
  mk (_id x) (eventId x) (attendeeId x) (ticketNumber x) (qrCodeUrl x)
     (qrCodeData x) (paymentId x) (pricePaid x) (paymentStatus x) s
     (checkInStatus x) (bookingDate x) (attendeeInfo x) (verification x)
     (staffNotes x) (createdAt x) (updatedAt x) (__v x).

Definition set_verification (v : Verification) (x : t) : t :=
  mk (_id x) (eventId x) (attendeeId x) (ticketNumber x) (qrCodeUrl x)
     (qrCodeData x) (paymentId x) (pricePaid x) (paymentStatus x)
     (status x) (checkInStatus x) (bookingDate x) (attendeeInfo x) v
     (staffNotes x) (createdAt x) (updatedAt x) (__v x).

(** The stamp that [save()] puts on a loaded document it finds
    modified. *)
Definition set_updatedAt (now : Time) (x : t) : t :=
  mk (_id x) (eventId x) (attendeeId x) (ticketNumber x) (qrCodeUrl x)
     (qrCodeData x) (paymentId x) (pricePaid x) (paymentStatus x)
     (status x) (checkInStatus x) (bookingDate x) (attendeeInfo x)
     (verification x) (staffNotes x) (createdAt x) now (__v x).

(** [staffNotes.push(n)] followed by [save()] at time [now]: the push
    also raises the version key. *)
Definition push_note (n : StaffNote) (now : Time) (x : t) : t :=
  mk (_id x) (eventId x) (attendeeId x) (ticketNumber x) (qrCodeUrl x)
     (qrCodeData x) (paymentId x) (pricePaid x) (paymentStatus x)
     (status x) (checkInStatus x) (bookingDate x) (attendeeInfo x)
     (verification x) (staffNotes x ++ [n]) (createdAt x) now (__v x + 1).

Definition set_scanCount (c : Z) (v : Verification) : Verification :=
  mkVerification (isScanned v) (scannedAt v) (scannedBy v) (entryTime v)
                 (exitTime v) c.

Definition set_exitTime (now : Time) (v : Verification) : Verification :=
  mkVerification (isScanned v) (scannedAt v) (scannedBy v) (entryTime v)
                 (Some now) (scanCount v).

(** [ticket.verification] having been assigned [v], [save()] at time
    [now]: Mongoose writes a document only if a path changed value, and
    stamps it then. *)
Definition save_verification (v : Verification) (now : Time) (x : t) : t :=
  if decide (v = verification x) then x
  else set_updatedAt now (set_verification v x).

(** The object that [cancelTicket] assigns to [ticket.cancellation].
    [ticketSchema] declares no such path: the assignment lands on the
    document object the handler holds, and [save()], which writes the
    declared paths only, leaves it behind. *)
Record Cancellation := mkCancellation {
  isCancelled : bool;
  cancellationDate : Time;
  cancellationReason : string;
  refundAmount : Q
}.
End Ticket.

Module Payment.
Inductive Status :=
  pending | processing | completed | failed | cancelled | refunded.

Record Refund := mkRefund {
  isRefunded : bool;
  refundAmount : option Q;
  refundDate : option Time;
  refundReason : option string
}.

Record t := mk {
  paymentId : string;
  amount : Q;
  status : Status;
  refund : Refund;
  updatedAt : Time
}.
End Payment.

(** ** The database *)

Record Store := mkStore {
  events : gmap Id Event.t;
  tickets : list Ticket.t;
  payments : list Payment.t;
  users : gmap Id User.t
}.

Definition with_tickets (l : list Ticket.t) (st : Store) : Store :=
  mkStore (events st) l (payments st) (users st).
Definition with_events (m : gmap Id Event.t) (st : Store) : Store :=
  mkStore m (tickets st) (payments st) (users st).
Definition with_payments (l : list Payment.t) (st : Store) : Store :=
  mkStore (events st) (tickets st) l (users st).

(** [Event.findByIdAndUpdate(id, { $inc: { ticketsSold: d } })] at time
    [now]: no effect when the event is absent. *)
Definition Event_inc (id : Id) (d : Z) (now : Time) (st : Store) : Store :=
  with_events (alter (Event.inc_ticketsSold d now) id (events st)) st.

(** [Ticket.findOne(filter)]: the first document the filter accepts. *)
Definition Ticket_findOne (f : Ticket.t → bool) (l : list Ticket.t)
  : option Ticket.t := snd <$> list_find (λ t, f t = true) l.

Definition Ticket_findById (id : Id) (l : list Ticket.t) : option Ticket.t :=
  Ticket_findOne (λ t, bool_decide (Ticket._id t = id)) l.

(** Two tickets clash on a unique index of the collection: the [_id]
    index and the indexes of the paths [ticketSchema] declares [unique]
    ([ticketNumber], [qrCodeUrl], [qrCodeData]).

    The pair [(eventId, attendeeId)] is not among them. The schema
    declares [index({ eventId: 1, attendeeId: 1 })] twice, first plain
    and then with [{ unique: true }]; both declarations name the index
    [eventId_1_attendeeId_1], the store builds the first and refuses the
    second as a conflicting redefinition, so no uniqueness is enforced
    on the pair. (For [ticketNumber] and [qrCodeData] the order is the
    other way round: the unique index of the path comes first and the
    plain redeclaration is the one refused.) *)
Definition index_clash (a b : Ticket.t) : bool :=
  bool_decide (Ticket._id a = Ticket._id b)
  || bool_decide (Ticket.ticketNumber a = Ticket.ticketNumber b)
  || bool_decide (Ticket.qrCodeUrl a = Ticket.qrCodeUrl b)
  || bool_decide (Ticket.qrCodeData a = Ticket.qrCodeData b).

(** [save()] of a new document: the store refuses it (duplicate key
    error) when it clashes with a stored one on a unique index. *)
Definition Ticket_insert (t : Ticket.t) (l : list Ticket.t)
  : option (list Ticket.t) :=
  if existsb (index_clash t) l then None else Some (l ++ [t]).

(** [save()] of a loaded document whose indexed paths are untouched: the
    stored document with its [_id] is replaced. *)
Definition Ticket_update (t : Ticket.t) (l : list Ticket.t) : list Ticket.t :=
  match list_find (λ u, Ticket._id u = Ticket._id t) l with
  | Some (i, _) => <[i := t]> l
  | None => l
  end.

(** [Payment.findOneAndUpdate({ paymentId }, update)] *)
Definition Payment_findOneAndUpdate (pid : string) (f : Payment.t → Payment.t)
    (l : list Payment.t) : list Payment.t :=
  match list_find (λ p, Payment.paymentId p = pid) l with
  | Some (i, p) => <[i := f p]> l
  | None => l
  end.

(** ** Booking: [bookTicket] *)

Module Book.
Record Request := mkRequest {
  eventId : option IdParam;             (* req.body.eventId, if any *)
  attendeeId : Id;                      (* req.user._id *)
  attendeeInfo : Ticket.AttendeeInfo
}.

(** What the handler draws from its environment. *)
Record Env := mkEnv {
  now : Time;                           (* new Date() of the start check *)
  objectId : Id;                        (* _id given to the new document *)
  ticketNumber : string;                (* `TCK${Date.now()}${...}` *)
  qrCodeData : string;                  (* crypto.randomBytes(32) in hex *)
  bookingDate : Time;                   (* default Date.now *)
  savedAt : Time;                       (* createdAt and updatedAt, at save() *)
  countedAt : Time                      (* updatedAt of the event, at $inc *)
}.

Inductive Response :=
| NotFound404                           (* 'Event not found' *)
| NotAvailable400                       (* 'Event is not available for booking' *)
| AlreadyStarted400                     (* 'Cannot book tickets for events that have already started' *)
| SoldOut400                            (* 'Event is sold out' *)
| AlreadyBooked400                      (* 'You already have a ticket for this event' *)
| Created201 (ticket : option Ticket.t) (* 'Free ticket booked successfully!' *)
| ProceedToPayment200 (id : Id) (title : string) (price : Q) (currency : string)
| ServerError500.                       (* the catch block *)

(** The [success] flag of the response body. *)
Definition success (r : Response) : bool :=
  match r with
  | Created201 _ | ProceedToPayment200 _ _ _ _ => true
  | _ => false
  end.

(** The filter of the duplicate check:
    [{ eventId, attendeeId, status: { $ne: 'cancelled' } }]. *)
Definition existing_filter (eventId attendeeId : Id) (t : Ticket.t) : bool :=
  bool_decide (Ticket.eventId t = eventId)
  && bool_decide (Ticket.attendeeId t = attendeeId)
  && negb (bool_decide (Ticket.status t = Ticket.cancelled)).

(** The document built by [new Ticket({...})] for a free event, as
    [save()] stores it: a new document gets both stamps and version 0. *)
Definition new_ticket (eventId : Id) (req : Request) (env : Env) : Ticket.t :=
  Ticket.mk (objectId env) eventId (attendeeId req) (ticketNumber env)
    (Ticket.mkQr (ticketNumber env) eventId (attendeeId req) (qrCodeData env))
    (qrCodeData env) "FREE_TICKET" 0%Q Ticket.completed Ticket.active
    Ticket.default_checkInStatus (bookingDate env) (attendeeInfo req)
    Ticket.default_verification [] (savedAt env) (savedAt env) 0.
End Book.

(** [Event.findById] of an absent id finds nothing; of an id that
    cannot be cast it throws, and the catch block answers. *)
Definition bookTicket (st : Store) (req : Book.Request) (env : Book.Env)
  : Book.Response * Store :=
  match Book.eventId req with
  | None => (Book.NotFound404, st)
  | Some Malformed => (Book.ServerError500, st)
  | Some (ObjectId eventId) =>
    match events st !! eventId with
    | None => (Book.NotFound404, st)
    | Some event =>
      if negb (bool_decide (Event.status event = Event.published)) then
        (Book.NotAvailable400, st)
      else if Event.startDateTime event <=? Book.now env then
        (Book.AlreadyStarted400, st)
      else if Event.ticketsSold event >=? Event.capacity event then
        (Book.SoldOut400, st)
      else
        match Ticket_findOne
                (Book.existing_filter eventId (Book.attendeeId req))
                (tickets st) with
        | Some _ => (Book.AlreadyBooked400, st)
        | None =>
          if Event.isFree (Event.pricing event) then
            let ticket := Book.new_ticket eventId req env in
            match Ticket_insert ticket (tickets st) with
            | None => (Book.ServerError500, st)
            | Some l =>
              let st' :=
                Event_inc eventId 1 (Book.countedAt env) (with_tickets l st) in
              (Book.Created201
                 (Ticket_findById (Ticket._id ticket) (tickets st')), st')
            end
          else
            (Book.ProceedToPayment200 eventId (Event.title event)
               (Event.price (Event.pricing event))
               (Event.currency (Event.pricing event)), st)
        end
    end
  end.

(** ** Cancellation: [cancelTicket] *)

Module Cancel.
Record Request := mkRequest {
  ticketId : IdParam;                   (* req.params.ticketId *)
  attendeeId : Id;                      (* req.user._id *)
  reason : option string
}.

Record Env := mkEnv {
  now : Time;                           (* new Date() of the 24 hour check *)
  cancellationDate : Time;
  savedAt : Time;                       (* updatedAt of the ticket, at save() *)
  countedAt : Time;                     (* updatedAt of the event, at $inc *)
  refundDate : Time;
  refundedAt : Time                     (* updatedAt of the payment *)
}.

Inductive Response :=
| NotFound404                           (* 'Ticket not found or cannot be cancelled' *)
| TooLate400                            (* 'Cannot cancel tickets less than 24 hours before the event' *)
| Cancelled200 (refundAmount : Q)       (* 'Ticket cancelled successfully' *)
| ServerError500.

Definition success (r : Response) : bool :=
  match r with Cancelled200 _ => true | _ => false end.

(** What the handler leaves behind: its response, the database, and the
    record it assigned to [ticket.cancellation], if it got that far. *)
Record Outcome := mkOutcome {
  response : Response;
  store : Store;
  cancellation : option Ticket.Cancellation
}.

(** [{ _id: ticketId, attendeeId, status: 'active' }] *)
Definition ticket_filter (ticketId attendeeId : Id) (t : Ticket.t) : bool :=
  bool_decide (Ticket._id t = ticketId)
  && bool_decide (Ticket.attendeeId t = attendeeId)
  && bool_decide (Ticket.status t = Ticket.active).

(** [(start - now) / (1000 * 60 * 60)], as an exact quotient. The
    handler divides in double precision and compares with 24; for a
    difference of two dates, a whole number of milliseconds, the rounded
    quotient is below 24 exactly when the exact one is. *)
Definition hoursUntilEvent (start now : Time) : Q :=
  (inject_Z (start - now) / inject_Z (1000 * 60 * 60))%Q.

Definition refund_payment (amount : Q) (date : Time) (why : string)
    (now : Time) (p : Payment.t) : Payment.t :=
  Payment.mk (Payment.paymentId p) (Payment.amount p) Payment.refunded
    (Payment.mkRefund true (Some amount) (Some date) (Some why)) now.
End Cancel.

Definition cancelTicket (st : Store) (req : Cancel.Request) (env : Cancel.Env)
  : Cancel.Outcome :=
  match Cancel.ticketId req with
  | Malformed => Cancel.mkOutcome Cancel.ServerError500 st None
  | ObjectId ticketId =>
    match Ticket_findOne (Cancel.ticket_filter ticketId (Cancel.attendeeId req))
            (tickets st) with
    | None => Cancel.mkOutcome Cancel.NotFound404 st None
    | Some ticket =>
      match events st !! Ticket.eventId ticket with
      | None => Cancel.mkOutcome Cancel.ServerError500 st None
      | Some event =>
        if Qltb (Cancel.hoursUntilEvent (Event.startDateTime event)
                   (Cancel.now env)) 24 then
          Cancel.mkOutcome Cancel.TooLate400 st None
        else
          let record :=
            Ticket.mkCancellation true (Cancel.cancellationDate env)
              (or_default (Cancel.reason req) "Cancelled by user")
              (Ticket.pricePaid ticket) in
          let ticket' :=
            Ticket.set_updatedAt (Cancel.savedAt env)
              (Ticket.set_status Ticket.cancelled ticket) in
          let st1 := with_tickets (Ticket_update ticket' (tickets st)) st in
          let st2 :=
            Event_inc (Ticket.eventId ticket) (-1) (Cancel.countedAt env) st1 in
          let st3 :=
            if Qltb 0 (Ticket.pricePaid ticket) then
              with_payments
                (Payment_findOneAndUpdate (Ticket.paymentId ticket)
                   (Cancel.refund_payment (Ticket.pricePaid ticket)
                      (Cancel.refundDate env)
                      (or_default (Cancel.reason req) "Ticket cancelled")
                      (Cancel.refundedAt env))
                   (payments st2)) st2
            else st2 in
          Cancel.mkOutcome (Cancel.Cancelled200 (Ticket.pricePaid ticket)) st3
            (Some record)
      end
    end
  end.

(** ** Check-in: [scanTicket] *)

Module Scan.
(** The [action] field after its default ['entry']; any string other
    than ['entry'] and ['exit'] falls through both branches. *)
Inductive Action := entry | exit | other (name : string).

Record Request := mkRequest {
  ticketNumber : option string;
  qrCodeData : option string;
  eventId : option IdParam;             (* absent or falsy: no event filter *)
  action : Action;
  staffId : Id                          (* req.user._id *)
}.

(** The filter object handed to [Ticket.findOne]. *)
Record Query := mkQuery {
  q_ticketNumber : option string;
  q_qrCodeData : option string;
  q_eventId : option IdParam
}.

Definition build_query (req : Request) : Query :=
  mkQuery
    (if truthy (ticketNumber req) then ticketNumber req else None)
    (if truthy (ticketNumber req) then None
     else if truthy (qrCodeData req) then qrCodeData req else None)
    (eventId req).

(** Mongoose casts the filter before it runs the query, and throws when
    the event id in it cannot be cast. *)
Definition castable (q : Query) : bool :=
  match q_eventId q with
  | Some Malformed => false
  | _ => true
  end.

Definition matches (q : Query) (t : Ticket.t) : bool :=
  match q_ticketNumber q with
  | Some n => bool_decide (Ticket.ticketNumber t = n)
  | None => true
  end
  && match q_qrCodeData q with
     | Some d => bool_decide (Ticket.qrCodeData t = d)
     | None => true
     end
  && match q_eventId q with
     | Some (ObjectId e) => bool_decide (Ticket.eventId t = e)
     | Some Malformed => false
     | None => true
     end.

Record Data := mkData {
  data_ticketNumber : string;
  attendee_name : string;
  attendee_email : string;
  event_title : string;
  event_startDateTime : Time;
  verification : Ticket.Verification;
  scanCount : Z;
  isFirstScan : bool
}.

Inductive Response :=
| KeyRequired400                        (* 'Ticket number or QR code data required' *)
| NotFound404                           (* 'Ticket not found' *)
| NotAssigned403                        (* 'You are not assigned to this event' *)
| Inactive400 (s : Ticket.Status)       (* 'Ticket is ... Cannot scan inactive tickets.' *)
| NotStarted400                         (* 'Event has not started yet' *)
| Ended400                              (* 'Event has already ended' *)
| ExitUnscanned400                      (* 'Cannot record exit for unscanned ticket' *)
| Recorded200 (d : Data)
| ServerError500.

Definition success (r : Response) : bool :=
  match r with Recorded200 _ => true | _ => false end.

(** The branches on [action]: the new verification object, or nothing
    when an exit is asked for a ticket never scanned. *)
Definition apply_action (a : Action) (staff : Id) (now : Time)
    (v : Ticket.Verification) : option Ticket.Verification :=
  match a with
  | entry =>
    if Ticket.isScanned v then
      Some (Ticket.set_scanCount (Ticket.scanCount v + 1) v)
    else
      Some (Ticket.mkVerification true (Some now) (Some staff) (Some now)
              (Ticket.exitTime v) 1)
  | exit =>
    if Ticket.isScanned v then Some (Ticket.set_exitTime now v) else None
  | other _ => Some v
  end.

Definition is_entry (a : Action) : bool :=
  match a with entry => true | _ => false end.

(** The same request with the [qrCodeData] field left out. *)
Definition without_qrCodeData (req : Request) : Request :=
  mkRequest (ticketNumber req) None (eventId req) (action req) (staffId req).
End Scan.

(** [now] is the handler's one [new Date()]; [savedAt] is the reading
    that [save()] makes for the [updatedAt] stamp. *)
Definition scanTicket (st : Store) (req : Scan.Request) (now savedAt : Time)
  : Scan.Response * Store :=
  if negb (truthy (Scan.ticketNumber req))
     && negb (truthy (Scan.qrCodeData req)) then
    (Scan.KeyRequired400, st)
  else if negb (Scan.castable (Scan.build_query req)) then
    (Scan.ServerError500, st)
  else
    match Ticket_findOne (Scan.matches (Scan.build_query req)) (tickets st) with
    | None => (Scan.NotFound404, st)
    | Some ticket =>
      match events st !! Ticket.eventId ticket with
      | None => (Scan.ServerError500, st)
      | Some event =>
        if negb (bool_decide (Scan.staffId req ∈ Event.assignedStaff event)) then
          (Scan.NotAssigned403, st)
        else if negb (bool_decide (Ticket.status ticket = Ticket.active)) then
          (Scan.Inactive400 (Ticket.status ticket), st)
        else if Scan.is_entry (Scan.action req)
                && (now <? Event.startDateTime event) then
          (Scan.NotStarted400, st)
        else if now >? Event.endDateTime event then
          (Scan.Ended400, st)
        else
          match Scan.apply_action (Scan.action req) (Scan.staffId req) now
                  (Ticket.verification ticket) with
          | None => (Scan.ExitUnscanned400, st)
          | Some v =>
            let ticket' := Ticket.save_verification v savedAt ticket in
            let st' := with_tickets (Ticket_update ticket' (tickets st)) st in
            match users st !! Ticket.attendeeId ticket with
            | None => (Scan.ServerError500, st')
            | Some attendee =>
              (Scan.Recorded200
                 (Scan.mkData (Ticket.ticketNumber ticket')
                    (User.firstName attendee +:+ " " +:+ User.lastName attendee)
                    (User.email attendee) (Event.title event)
                    (Event.startDateTime event) v (Ticket.scanCount v)
                    (bool_decide (Ticket.scanCount v = 1))), st')
            end
          end
      end
    end.

(** ** Attendance: [getEventAttendance] *)

Module Attendance.
Record Statistics := mkStatistics {
  totalTickets : Z;
  scannedTickets : Z;
  unscannedTickets : Z;
  attendanceRate : Q
}.

Inductive Response :=
| NotFound404                           (* 'Event not found' *)
| NotAssigned403                        (* 'You are not assigned to this event' *)
| Ok200 (statistics : Statistics)
| ServerError500.

(** [{ eventId, status: 'active' }] *)
Definition ticket_filter (eventId : Id) (t : Ticket.t) : bool :=
  bool_decide (Ticket.eventId t = eventId)
  && bool_decide (Ticket.status t = Ticket.active).

Definition is_scanned (t : Ticket.t) : bool :=
  Ticket.isScanned (Ticket.verification t).

(** [totalTickets > 0 ? ((scannedTickets / totalTickets) * 100).toFixed(2) : 0]
    read back by [parseFloat]: a division and a multiplication of
    doubles, each rounded, then the decimal rounding of [toFixed]. *)
Definition rate (scanned total : Z) : Q :=
  if total >? 0 then
    Double.toFixed2
      (Double.mul (Double.div (Double.of_Z scanned) (Double.of_Z total))
         (Double.of_Z 100))
  else 0%Q.
End Attendance.

(** The response body also carries the event header and the listings
    [recentScans] and [allTickets]; they read the populated attendee of
    every listed ticket, which is why a ticket without its attendee ends
    in the catch block. Only the [statistics] block is kept here. *)
Definition getEventAttendance (st : Store) (eventId : IdParam) (staffId : Id)
  : Attendance.Response :=
  match eventId with
  | Malformed => Attendance.ServerError500
  | ObjectId eventId =>
    match events st !! eventId with
    | None => Attendance.NotFound404
    | Some event =>
      if negb (bool_decide (staffId ∈ Event.assignedStaff event)) then
        Attendance.NotAssigned403
      else
        let found := filter (λ t, Attendance.ticket_filter eventId t = true)
                       (tickets st) in
        let totalTickets := Z.of_nat (length found) in
        let scannedTickets :=
          Z.of_nat (length (filter (λ t, Attendance.is_scanned t = true)
                              found)) in
        let unscannedTickets := totalTickets - scannedTickets in
        if forallb (λ t, bool_decide (is_Some (users st !! Ticket.attendeeId t)))
             found then
          Attendance.Ok200
            (Attendance.mkStatistics totalTickets scannedTickets
               unscannedTickets
               (Attendance.rate scannedTickets totalTickets))
        else Attendance.ServerError500
    end
  end.

(** ** Sequences of requests *)

Inductive Op :=
| OpBook (req : Book.Request) (env : Book.Env)
| OpCancel (req : Cancel.Request) (env : Cancel.Env).

Definition apply_op (st : Store) (op : Op) : Store :=
  match op with
  | OpBook req env => snd (bookTicket st req env)
  | OpCancel req env => Cancel.store (cancelTicket st req env)
  end.

Definition run_ops (ops : list Op) (st : Store) : Store :=
  foldl apply_op st ops.

(** Scan requests served one after the other, each at its own time
    (that of the request, then that of its [save()]). *)
Fixpoint scan_many (st : Store) (scans : list (Scan.Request * (Time * Time)))
  : list Scan.Response * Store :=
  match scans with
  | [] => ([], st)
  | (req, (now, savedAt)) :: rest =>
    let '(r, st1) := scanTicket st req now savedAt in
    let '(rs, st2) := scan_many st1 rest in
    (r :: rs, st2)
  end.

(** ** Booking requests served concurrently

    An [async] handler gives up control at each [await], so requests in
    flight interleave between their database calls. [BookProc.step] is
    [bookTicket] cut at its awaits: each step performs the database call
    the handler is waiting for and runs on to the next await. *)

Module BookProc.
Inductive PC :=
| AtFindById                            (* await Event.findById(eventId) *)
| AtFindOne (eventId : Id) (event : Event.t)
                                        (* await Ticket.findOne({...}) *)
| AtToDataURL (eventId : Id)            (* await QRCode.toDataURL(...) *)
| AtSave (eventId : Id)                 (* await ticket.save() *)
| AtInc (eventId : Id)                  (* await Event.findByIdAndUpdate(...) *)
| AtPopulate (eventId : Id)             (* await Ticket.findById(...).populate(...) *)
| Done (r : Book.Response).

Definition step (req : Book.Request) (env : Book.Env) (st : Store) (pc : PC)
  : PC * Store :=
  match pc with
  | AtFindById =>
    match Book.eventId req with
    | None => (Done Book.NotFound404, st)
    | Some Malformed => (Done Book.ServerError500, st)
    | Some (ObjectId eventId) =>
      match events st !! eventId with
      | None => (Done Book.NotFound404, st)
      | Some event =>
        if negb (bool_decide (Event.status event = Event.published)) then
          (Done Book.NotAvailable400, st)
        else if Event.startDateTime event <=? Book.now env then
          (Done Book.AlreadyStarted400, st)
        else if Event.ticketsSold event >=? Event.capacity event then
          (Done Book.SoldOut400, st)
        else (AtFindOne eventId event, st)
      end
    end
  | AtFindOne eventId event =>
    match Ticket_findOne (Book.existing_filter eventId (Book.attendeeId req))
            (tickets st) with
    | Some _ => (Done Book.AlreadyBooked400, st)
    | None =>
      if Event.isFree (Event.pricing event) then (AtToDataURL eventId, st)
      else
        (Done (Book.ProceedToPayment200 eventId (Event.title event)
                 (Event.price (Event.pricing event))
                 (Event.currency (Event.pricing event))), st)
    end
  | AtToDataURL eventId => (AtSave eventId, st)
  | AtSave eventId =>
    match Ticket_insert (Book.new_ticket eventId req env) (tickets st) with
    | None => (Done Book.ServerError500, st)
    | Some l => (AtInc eventId, with_tickets l st)
    end
  | AtInc eventId =>
    (AtPopulate eventId, Event_inc eventId 1 (Book.countedAt env) st)
  | AtPopulate eventId =>
    (Done (Book.Created201
             (Ticket_findById (Ticket._id (Book.new_ticket eventId req env))
                (tickets st))), st)
  | Done r => (Done r, st)
  end.

(** A request in flight. *)
Record Proc := mkProc {
  req : Book.Request;
  env : Book.Env;
  pc : PC
}.

Definition start (r : Book.Request) (e : Book.Env) : Proc :=
  mkProc r e AtFindById.

(** The handler of request [i] runs up to its next await. *)
Definition sys_step (s : Store * list Proc) (i : nat) : Store * list Proc :=
  match s.2 !! i with
  | Some p =>
    let '(pc', st') := step (req p) (env p) s.1 (pc p) in
    (st', <[i := mkProc (req p) (env p) pc']> s.2)
  | None => s
  end.

Definition run (schedule : list nat) (s : Store * list Proc)
  : Store * list Proc := foldl sys_step s schedule.

(** [n] steps in a row of one handler, no other running in between. *)
Definition steps (n : nat) (r : Book.Request) (e : Book.Env) (s : PC * Store)
  : PC * Store :=
  Nat.iter n (λ s, step r e s.2 s.1) s.

(** A request served alone, from its first await to its response. *)
Definition run_alone (st : Store) (r : Book.Request) (e : Book.Env)
  : PC * Store :=
  steps 6 r e (AtFindById, st).


(** The response of request [i], once it is served. *)
Definition response (procs : list Proc) (i : nat) : option Book.Response :=
  match pc <$> procs !! i with
  | Some (Done r) => Some r
  | _ => None
  end.
End BookProc.

(** ** Ticket download: [downloadTicket] *)

Module Download.
Record Data := mkData {
  ticketNumber : string;
  qrCodeUrl : Ticket.QrPayload;
  event_title : string;
  event_startDateTime : Time;
  event_endDateTime : Time;
  attendee_name : string;
  attendee_email : string;
  bookingDate : Time;
  pricePaid : Q;
  status : Ticket.Status
}.

Inductive Response :=
| NotFound404                           (* 'Ticket not found or not accessible' *)
| Ok200 (ticket : Data)
| ServerError500.

(** [{ _id: ticketId, attendeeId, status: { $in: ['active', 'used'] } }] *)
Definition ticket_filter (ticketId attendeeId : Id) (t : Ticket.t) : bool :=
  bool_decide (Ticket._id t = ticketId)
  && bool_decide (Ticket.attendeeId t = attendeeId)
  && (bool_decide (Ticket.status t = Ticket.active)
      || bool_decide (Ticket.status t = Ticket.used)).
End Download.

(** The response reads the populated event and attendee of the ticket;
    a ticket without one of them ends in the catch block, and so does a
    ticket id that cannot be cast. *)
Definition downloadTicket (st : Store) (ticketId : IdParam) (attendeeId : Id)
  : Download.Response :=
  match ticketId with
  | Malformed => Download.ServerError500
  | ObjectId ticketId =>
    match Ticket_findOne (Download.ticket_filter ticketId attendeeId)
            (tickets st) with
    | None => Download.NotFound404
    | Some ticket =>
      match events st !! Ticket.eventId ticket,
            users st !! Ticket.attendeeId ticket with
      | Some event, Some attendee =>
        Download.Ok200
          (Download.mkData (Ticket.ticketNumber ticket)
             (Ticket.qrCodeUrl ticket)
             (Event.title event) (Event.startDateTime event)
             (Event.endDateTime event)
             (User.firstName attendee +:+ " " +:+ User.lastName attendee)
             (User.email attendee) (Ticket.bookingDate ticket)
             (Ticket.pricePaid ticket) (Ticket.status ticket))
      | _, _ => Download.ServerError500
      end
    end
  end.

(** ** The tickets of an attendee: [getMyTickets] *)

Module MyTickets.
(** The [status] query parameter: ['all'] by default, the name of a
    ticket status, or any other string (which no ticket carries). *)
Inductive StatusQuery := all | only (s : Ticket.Status) | other (name : string).

Inductive EventStatus := upcoming | past | today.

Record View := mkView {
  ticket : Ticket.t;
  event : option Event.t;               (* the populated eventId *)
  eventStatus : EventStatus;
  canCancel : bool
}.

Record Summary := mkSummary {
  active : Z;
  used : Z;
  cancelled : Z;
  expired : Z
}.

Record Result := mkResult {
  count : Z;
  summary : Summary;
  tickets : list View
}.

(** [{ attendeeId }], with [status] unless it is ['all']. *)
Definition ticket_filter (attendeeId : Id) (q : StatusQuery) (t : Ticket.t)
  : bool :=
  bool_decide (Ticket.attendeeId t = attendeeId)
  && match q with
     | all => true
     | only s => bool_decide (Ticket.status t = s)
     | other _ => false
     end.

(** [.sort({ createdAt: -1 })] *)
Definition newest_first (a b : Ticket.t) : Prop :=
  Ticket.createdAt b ≤ Ticket.createdAt a.

#[global] Instance newest_first_dec a b : Decision (newest_first a b).
Proof. unfold newest_first. apply _. Defined.

(** [ticket.eventId && new Date(ticket.eventId.startDateTime) > new Date()] *)
Definition is_upcoming (now : Time) (ev : option Event.t) : bool :=
  match ev with
  | Some e => Event.startDateTime e >? now
  | None => false
  end.

Definition eventStatus_of (now : Time) (ev : option Event.t) : EventStatus :=
  match ev with
  | Some e =>
    if Event.startDateTime e <? now then past
    else if Event.startDateTime e - now <? 24 * 60 * 60 * 1000 then today
    else upcoming
  | None => upcoming
  end.

(** [ticket.status === 'active' && ticket.eventId &&
     new Date(start) > new Date(Date.now() + 24 * 60 * 60 * 1000)] *)
Definition canCancel_of (now : Time) (t : Ticket.t) (ev : option Event.t)
  : bool :=
  bool_decide (Ticket.status t = Ticket.active)
  && match ev with
     | Some e => Event.startDateTime e >? now + 24 * 60 * 60 * 1000
     | None => false
     end.

Definition has_status (s : Ticket.Status) (p : Ticket.t * option Event.t)
  : bool := bool_decide (Ticket.status p.1 = s).

Definition count_status (s : Ticket.Status)
    (l : list (Ticket.t * option Event.t)) : Z :=
  Z.of_nat (length (filter (λ p, has_status s p = true) l)).
End MyTickets.

(** The clock is read once per listed ticket; one reading [now] stands
    for all of them. The listing is sorted by [createdAt], newest first
    (the order among tickets created at the same instant is the
    store's to choose; here it is the one [merge_sort] gives). *)
Definition getMyTickets (st : Store) (attendeeId : Id)
    (status : MyTickets.StatusQuery) (upcoming : bool) (now : Time)
  : MyTickets.Result :=
  let found :=
    merge_sort MyTickets.newest_first
      (filter (λ t, MyTickets.ticket_filter attendeeId status t = true)
         (tickets st)) in
  let populated := (λ t, (t, events st !! Ticket.eventId t)) <$> found in
  let listed :=
    if upcoming
    then filter (λ p, MyTickets.is_upcoming now p.2 = true) populated
    else populated in
  MyTickets.mkResult
    (Z.of_nat (length listed))
    (MyTickets.mkSummary
       (MyTickets.count_status Ticket.active listed)
       (MyTickets.count_status Ticket.used listed)
       (MyTickets.count_status Ticket.cancelled listed)
       (MyTickets.count_status Ticket.expired listed))
    ((λ p, MyTickets.mkView p.1 p.2 (MyTickets.eventStatus_of now p.2)
             (MyTickets.canCancel_of now p.1 p.2)) <$> listed).

(** ** Event details for attendees: [getEventDetails] *)

Module Details.
Record Availability := mkAvailability {
  isAvailable : bool;
  availableTickets : Z;
  soldTickets : Z;
  isSoldOut : bool;
  userHasTicket : bool
}.

Inductive Response :=
| NotFound404                           (* 'Event not found' *)
| InvalidId400                          (* 'Invalid event ID format' *)
| Ok200 (event : Event.t) (availability : Availability).

(** [{ eventId, attendeeId: req.user._id, status: { $ne: 'cancelled' } }] *)
Definition ticket_filter (eventId attendeeId : Id) (t : Ticket.t) : bool :=
  bool_decide (Ticket.eventId t = eventId)
  && bool_decide (Ticket.attendeeId t = attendeeId)
  && negb (bool_decide (Ticket.status t = Ticket.cancelled)).
End Details.

(** [user] is [req.user], present when the optional authentication
    found one. This handler names the [CastError] of a malformed id in
    its catch block and answers 400. It also asks the store to
    increment [stats.views], a path [eventSchema] does not declare,
    inside a [try] of its own; what that update leaves in the store is
    not modelled: the response alone is. *)
Definition getEventDetails (st : Store) (eventId : IdParam) (user : option Id)
    (now : Time) : Details.Response :=
  match eventId with
  | Malformed => Details.InvalidId400
  | ObjectId eventId =>
    match events st !! eventId with
    | None => Details.NotFound404
    | Some event =>
      let userHasTicket :=
        match user with
        | Some attendeeId =>
          bool_decide (is_Some (Ticket_findOne
                                  (Details.ticket_filter eventId attendeeId)
                                  (tickets st)))
        | None => false
        end in
      let availableTickets := Event.capacity event - Event.ticketsSold event in
      let isAvailable :=
        (availableTickets >? 0) && (Event.startDateTime event >? now) in
      Details.Ok200 event
        (Details.mkAvailability (isAvailable && negb userHasTicket)
           availableTickets (Event.ticketsSold event) (availableTickets <=? 0)
           userHasTicket)
    end
  end.

(** ** Host side: [deleteEvent], [getEventAttendees], statistics *)

Module Delete.
Inductive Response :=
| NotFound404     (* 'Event not found or you are not authorized to delete it' *)
| HasTickets400   (* 'Cannot delete event with sold tickets. Cancel the event instead.' *)
| Deleted200
| ServerError500.
End Delete.

(** [Ticket.countDocuments({ eventId })] *)
Definition tickets_of_event (eventId : Id) (l : list Ticket.t)
  : list Ticket.t := filter (λ t, Ticket.eventId t = eventId) l.

Definition deleteEvent (st : Store) (eventId : IdParam) (hostId : Id)
  : Delete.Response * Store :=
  match eventId with
  | Malformed => (Delete.ServerError500, st)
  | ObjectId eventId =>
    match events st !! eventId with
    | None => (Delete.NotFound404, st)
    | Some event =>
      if negb (bool_decide (Event.host event = hostId)) then
        (Delete.NotFound404, st)
      else if Z.of_nat (length (tickets_of_event eventId (tickets st))) >? 0
      then (Delete.HasTickets400, st)
      else (Delete.Deleted200, with_events (delete eventId (events st)) st)
    end
  end.

Module Attendees.
Record Stats := mkStats {
  total : Z;
  checkedIn : Z;
  notCheckedIn : Z;
  cancelled : Z
}.

Inductive Response :=
| NotFound404     (* 'Event not found or you are not authorized to access it' *)
| Ok200 (title : string) (startDateTime : Time) (capacity : Z) (stats : Stats)
| ServerError500.

Definition is_checked_in (t : Ticket.t) : bool :=
  Ticket.isCheckedIn (Ticket.checkInStatus t).
End Attendees.

(** The response also lists the attendees, newest booking first; only
    the event header and the [stats] block are kept here. *)
Definition getEventAttendees (st : Store) (eventId : IdParam) (hostId : Id)
  : Attendees.Response :=
  match eventId with
  | Malformed => Attendees.ServerError500
  | ObjectId eventId =>
    match events st !! eventId with
    | None => Attendees.NotFound404
    | Some event =>
      if negb (bool_decide (Event.host event = hostId)) then
        Attendees.NotFound404
      else
        let found := tickets_of_event eventId (tickets st) in
        Attendees.Ok200 (Event.title event) (Event.startDateTime event)
          (Event.capacity event)
          (Attendees.mkStats
             (Z.of_nat (length found))
             (Z.of_nat (length (filter (λ t, Attendees.is_checked_in t = true)
                                  found)))
             (Z.of_nat (length (filter (λ t, ¬ Attendees.is_checked_in t = true)
                                  found)))
             (Z.of_nat (length (filter (λ t, Ticket.status t = Ticket.cancelled)
                                  found))))
    end
  end.

(** The availability block that [getAvailableEvents] attaches to each
    event it lists. *)
Module Listing.
Record Availability := mkAvailability {
  isAvailable : bool;
  isSoldOut : bool;
  availableTickets : Z;
  soldTickets : Z
}.

Definition availability (event : Event.t) : Availability :=
  let availableTickets := Event.capacity event - Event.ticketsSold event in
  mkAvailability (availableTickets >? 0) (availableTickets <=? 0)
    availableTickets (Event.ticketsSold event).
End Listing.

(** The counts of the statistics block that [getMyEvents] attaches to
    each event of the host; its [revenue], a product of doubles, is left
    out. *)
Module HostStats.
Record Statistics := mkStatistics {
  totalTicketsSold : Z;
  checkedInAttendees : Z;
  availableTickets : Z
}.

Definition statistics (st : Store) (eventId : Id) (event : Event.t)
  : Statistics :=
  let totalTickets :=
    Z.of_nat (length (tickets_of_event eventId (tickets st))) in
  let checkedInTickets :=
    Z.of_nat (length (filter (λ t, Ticket.eventId t = eventId
                                   ∧ Attendees.is_checked_in t = true)
                        (tickets st))) in
  mkStatistics totalTickets checkedInTickets
    (Event.capacity event - totalTickets).
End HostStats.

(** ** Staff notes: [addTicketNote] *)

Module Note.
Record Request := mkRequest {
  ticketId : IdParam;                   (* req.params.ticketId *)
  note : Field;                         (* req.body.note *)
  staffId : Id                          (* req.user._id *)
}.

Record Env := mkEnv {
  now : Time;                           (* createdAt: new Date() *)
  noteId : Id;                          (* _id given to the subdocument *)
  savedAt : Time                        (* updatedAt of the ticket, at save() *)
}.

Inductive Response :=
| NoteRequired400                       (* 'Note content is required' *)
| NotFound404                           (* 'Ticket not found' *)
| NotAssigned403                        (* 'You are not assigned to this event' *)
| Added200                              (* 'Note added successfully' *)
| ServerError500.
End Note.

Section staff_notes.
(** [String.prototype.trim] *)
Variable trim : string → string.

(** [!note || note.trim().length === 0]: a falsy [note] stops at the
    first test; a truthy one that is no string has no [trim] to call,
    and the call throws. *)
Definition addTicketNote (st : Store) (req : Note.Request) (env : Note.Env)
  : Note.Response * Store :=
  match Note.note req with
  | Absent | NotText false => (Note.NoteRequired400, st)
  | NotText true => (Note.ServerError500, st)
  | Text text =>
    if negb (truthy (Some text)) || (String.length (trim text) =? 0)%nat then
      (Note.NoteRequired400, st)
    else
      match Note.ticketId req with
      | Malformed => (Note.ServerError500, st)
      | ObjectId ticketId =>
        match Ticket_findById ticketId (tickets st) with
        | None => (Note.NotFound404, st)
        | Some ticket =>
          match events st !! Ticket.eventId ticket with
          | None => (Note.ServerError500, st)
          | Some event =>
            if negb (bool_decide
                       (Note.staffId req ∈ Event.assignedStaff event))
            then (Note.NotAssigned403, st)
            else
              let ticket' :=
                Ticket.push_note
                  (Ticket.mkNote (Note.noteId env) (Note.staffId req)
                     (trim text) (Note.now env))
                  (Note.savedAt env) ticket in
              (Note.Added200,
               with_tickets (Ticket_update ticket' (tickets st)) st)
          end
        end
      end
  end.

(** ** Requests of every kind, served one after the other *)

Inductive Call :=
| CallBook (req : Book.Request) (env : Book.Env)
| CallCancel (req : Cancel.Request) (env : Cancel.Env)
| CallScan (req : Scan.Request) (now savedAt : Time)
| CallNote (req : Note.Request) (env : Note.Env)
| CallDelete (eventId : IdParam) (hostId : Id).

Definition serve (st : Store) (c : Call) : Store :=
  match c with
  | CallBook req env => snd (bookTicket st req env)
  | CallCancel req env => Cancel.store (cancelTicket st req env)
  | CallScan req now savedAt => snd (scanTicket st req now savedAt)
  | CallNote req env => snd (addTicketNote st req env)
  | CallDelete eventId hostId => snd (deleteEvent st eventId hostId)
  end.

Definition serve_all (calls : list Call) (st : Store) : Store :=
  foldl serve st calls.
End staff_notes.

(** ** Vocabulary of the specification *)

(** The error kinds of the taxonomy that the handlers can answer with. *)
Inductive ErrorKind :=
| NotFound | EventNotBookable | CapacityExceeded | DuplicateBooking
| InternalError.

#[global] Instance ErrorKind_eq_dec : EqDecision ErrorKind.
Proof. solve_decision. Defined.


(** The preconditions of [issue] as the specification lists them: the
    first one the request violates, under the kind named for it. A
    request without an event id, or with one that is no id at all, names
    no event: its event is missing. *)
Definition book_violation (st : Store) (req : Book.Request) (now : Time)
  : option ErrorKind :=
  match Book.eventId req with
  | Some (ObjectId e) =>
    match events st !! e with
    | None => Some NotFound
    | Some event =>
      if bool_decide (Event.status event ≠ Event.published) then
        Some EventNotBookable
      else if bool_decide (Event.startDateTime event ≤ now) then
        Some EventNotBookable
      else if bool_decide (Event.capacity event ≤ Event.ticketsSold event) then
        Some CapacityExceeded
      else if existsb (Book.existing_filter e (Book.attendeeId req))
                (tickets st) then
        Some DuplicateBooking
      else None
    end
  | _ => Some NotFound
  end.

(** The identifiers generated for a new ticket are fresh: no stored
    ticket carries the [_id], the ticket number, the QR code data or the
    QR code image. *)
Definition fresh_for (l : list Ticket.t) (t : Ticket.t) : Prop :=
  ∀ u, u ∈ l →
    Ticket._id u ≠ Ticket._id t
    ∧ Ticket.ticketNumber u ≠ Ticket.ticketNumber t
    ∧ Ticket.qrCodeUrl u ≠ Ticket.qrCodeUrl t
    ∧ Ticket.qrCodeData u ≠ Ticket.qrCodeData t.

(** Active tickets of an event. *)
Definition active_of (e : Id) (t : Ticket.t) : bool :=
  bool_decide (Ticket.eventId t = e)
  && bool_decide (Ticket.status t = Ticket.active).

Definition active_count (e : Id) (l : list Ticket.t) : Z :=
  Z.of_nat (length (filter (λ t, active_of e t = true) l)).

(** The [_id] index of the tickets collection. *)
Definition ids_unique (l : list Ticket.t) : Prop :=
  NoDup (Ticket._id <$> l).

(** The event and the attendee of a ticket. *)
Definition pair_of (t : Ticket.t) : Id * Id :=
  (Ticket.eventId t, Ticket.attendeeId t).

(** No attendee holds two tickets for one event, cancelled ones set
    aside. *)
Definition one_ticket_each (l : list Ticket.t) : Prop :=
  ∀ i j t u, l !! i = Some t → l !! j = Some u →
    pair_of t = pair_of u →
    Ticket.status t ≠ Ticket.cancelled →
    Ticket.status u ≠ Ticket.cancelled →
    i = j.

(** An entry scan that passes every check of [scanTicket] but the
    time window: a lookup key is supplied, the lookup resolves to
    ticket [t], the event and the attendee of [t] are on record, the
    staff member is assigned to the event and [t] is active. *)
Definition entry_ready (st : Store) (req : Scan.Request) (t : Ticket.t)
    (event : Event.t) : Prop :=
  ids_unique (tickets st)
  ∧ truthy (Scan.ticketNumber req) || truthy (Scan.qrCodeData req) = true
  ∧ Scan.action req = Scan.entry
  ∧ Ticket_findOne (Scan.matches (Scan.build_query req)) (tickets st) = Some t
  ∧ events st !! Ticket.eventId t = Some event
  ∧ Scan.staffId req ∈ Event.assignedStaff event
  ∧ Ticket.status t = Ticket.active
  ∧ is_Some (users st !! Ticket.attendeeId t).

(** The event is on: [start ≤ now ≤ end]. *)
Definition in_window (event : Event.t) (now : Time) : Prop :=
  Event.startDateTime event ≤ now ≤ Event.endDateTime event.

(** A series of entry scans of ticket [t], each ready in database [st]
    and made while the event is on. *)
Definition entry_scans (st : Store) (t : Ticket.t) (event : Event.t)
    (scans : list (Scan.Request * (Time * Time))) : Prop :=
  Forall (λ s, entry_ready st s.1 t event ∧ in_window event s.2.1) scans.

(** Entry scans recorded so far on a ticket. *)
Definition scans_so_far (t : Ticket.t) : Z :=
  if Ticket.isScanned (Ticket.verification t)
  then Ticket.scanCount (Ticket.verification t) else 0.

(** A database in which the counter of every event accounts for the
    active tickets of that event and stays within the capacity. *)
Definition store_ok (st : Store) : Prop :=
  ids_unique (tickets st)
  ∧ map_Forall (λ e event,
      active_count e (tickets st) ≤ Event.ticketsSold event
      ∧ Event.ticketsSold event ≤ Event.capacity event) (events st).

#[global] Instance store_ok_dec st : Decision (store_ok st).
Proof. unfold store_ok, ids_unique. apply _. Defined.




(** The responses by which [scanTicket] refuses a request. *)
Definition scan_refused (r : Scan.Response) : bool :=
  match r with
  | Scan.Recorded200 _ | Scan.ServerError500 => false
  | _ => true
  end.

(** A lookup key is supplied and resolves to ticket [t], whose event is
    on record. *)
Definition scan_resolves (st : Store) (req : Scan.Request) (t : Ticket.t)
    (event : Event.t) : Prop :=
  truthy (Scan.ticketNumber req) || truthy (Scan.qrCodeData req) = true
  ∧ Ticket_findOne (Scan.matches (Scan.build_query req)) (tickets st) = Some t
  ∧ events st !! Ticket.eventId t = Some event.

(** The lookup of a request that supplies ticket number [n]: by that
    number, within the event of the request if it names one. *)
Definition by_number (n : string) (e : option IdParam) (t : Ticket.t) : bool :=
  bool_decide (Ticket.ticketNumber t = n)
  && match e with
     | Some (ObjectId e) => bool_decide (Ticket.eventId t = e)
     | Some Malformed => false
     | None => true
     end.

(** Two versions of a ticket that agree on every indexed path and on
    the event, the price and the status. *)
Definition same_keys (t t' : Ticket.t) : Prop :=
  Ticket._id t' = Ticket._id t
  ∧ Ticket.eventId t' = Ticket.eventId t
  ∧ Ticket.attendeeId t' = Ticket.attendeeId t
  ∧ Ticket.ticketNumber t' = Ticket.ticketNumber t
  ∧ Ticket.qrCodeUrl t' = Ticket.qrCodeUrl t
  ∧ Ticket.qrCodeData t' = Ticket.qrCodeData t
  ∧ Ticket.pricePaid t' = Ticket.pricePaid t
  ∧ Ticket.checkInStatus t' = Ticket.checkInStatus t.

(** A database whose counters are exact: the counter of every event is
    the number of its active tickets, within the capacity. *)
Definition store_exact (st : Store) : Prop :=
  ids_unique (tickets st)
  ∧ map_Forall (λ e event,
      Event.ticketsSold event = active_count e (tickets st)
      ∧ Event.ticketsSold event ≤ Event.capacity event) (events st).

#[global] Instance store_exact_dec st : Decision (store_exact st).
Proof. unfold store_exact, ids_unique. apply _. Defined.


(** The unique indexes of the tickets collection hold. *)
Definition indexes_hold (l : list Ticket.t) : Prop :=
  ids_unique l
  ∧ NoDup (Ticket.ticketNumber <$> l)
  ∧ NoDup (Ticket.qrCodeUrl <$> l)
  ∧ NoDup (Ticket.qrCodeData <$> l).

#[global] Instance indexes_hold_dec l : Decision (indexes_hold l).
Proof. unfold indexes_hold, ids_unique. apply _. Defined.

(** No ticket was paid for. *)
Definition all_free (l : list Ticket.t) : Prop :=
  Forall (λ t, (Ticket.pricePaid t == 0)%Q) l.

(** The ways in which a served request changes the database: not at
    all; by issuing a ticket and counting it; by cancelling an active
    ticket and discounting it; by rewriting a ticket without touching its
    keys or its status; by deleting an event without tickets. *)
Inductive effect (st : Store) : Store → Prop :=
| effect_none : effect st st
| effect_issue t event now :
    events st !! Ticket.eventId t = Some event →
    Event.ticketsSold event < Event.capacity event →
    (∀ u, u ∈ tickets st → index_clash t u = false) →
    (∀ u, u ∈ tickets st → pair_of u = pair_of t →
          Ticket.status u = Ticket.cancelled) →
    Ticket.status t = Ticket.active →
    Ticket.pricePaid t = 0%Q →
    Ticket.checkInStatus t = Ticket.default_checkInStatus →
    effect st (Event_inc (Ticket.eventId t) 1 now
                 (with_tickets (tickets st ++ [t]) st))
| effect_cancel i t event saved now st' :
    tickets st !! i = Some t →
    Ticket.status t = Ticket.active →
    events st !! Ticket.eventId t = Some event →
    tickets st' = <[i := Ticket.set_updatedAt saved
                           (Ticket.set_status Ticket.cancelled t)]>
                    (tickets st) →
    events st' = alter (Event.inc_ticketsSold (-1) now) (Ticket.eventId t)
                   (events st) →
    users st' = users st →
    (Qltb 0 (Ticket.pricePaid t) = false → payments st' = payments st) →
    effect st st'
| effect_touch i t t' :
    tickets st !! i = Some t →
    same_keys t t' →
    Ticket.status t' = Ticket.status t →
    effect st (with_tickets (<[i := t']> (tickets st)) st)
| effect_delete e :
    tickets_of_event e (tickets st) = [] →
    effect st (with_events (delete e (events st)) st).


(** No ticket is marked as checked in. *)
Definition none_checked_in (l : list Ticket.t) : Prop :=
  Forall (λ t, Attendees.is_checked_in t = false) l.

(** ** Sample data

    One free event of capacity 2 with two assigned staff members, and
    the tickets two attendees may hold for it. *)

Definition alice : Id := 1%N.
Definition bob : Id := 2%N.
Definition gate_a : Id := 7%N.
Definition gate_b : Id := 8%N.
Definition stranger : Id := 50%N.
Definition meetup : Id := 10%N.
Definition host_of_meetup : Id := 99%N.

Definition day : Z := 24 * 60 * 60 * 1000.
Definition meetup_start : Time := 20 * day.
Definition meetup_end : Time := 20 * day + 3 * 60 * 60 * 1000.

Definition meetup_event (capacity sold : Z) : Event.t :=
  Event.mk "Meetup" meetup_start meetup_end
    (Event.mkPricing true 0%Q "USD") host_of_meetup [gate_a; gate_b]
    capacity sold Event.published 0.

Definition sample_users : gmap Id User.t :=
  {[ alice := User.mk "Alice" "A" "alice@example.org";
     bob := User.mk "Bob" "B" "bob@example.org" ]}.

Definition no_info : Ticket.AttendeeInfo := Ticket.mkInfo None None None.

Definition book_by (who : Id) : Book.Request :=
  Book.mkRequest (Some (ObjectId meetup)) who no_info.


(** Environments of booking requests: the time of the request, the
    generated [_id], ticket number and QR code data, and the later clock
    readings. *)
Definition book_env (now : Time) (id : Id) (number code : string) : Book.Env :=
  Book.mkEnv now id number code (now + 1) (now + 2) (now + 3).

Definition env_1 : Book.Env := book_env day 101%N "TCK1" "aa".
Definition env_2 : Book.Env := book_env day 102%N "TCK2" "bb".
Definition env_3 : Book.Env := book_env (3 * day) 103%N "TCK3" "cc".


Definition ticket_of (who : Id) (env : Book.Env) : Ticket.t :=
  Book.new_ticket meetup (book_by who) env.

Definition scanned_by (staff : Id) (at_ : Time) (count : Z) (t : Ticket.t)
  : Ticket.t :=
  Ticket.set_verification
    (Ticket.mkVerification true (Some at_) (Some staff) (Some at_) None count) t.

Definition sample_store (capacity sold : Z) (l : list Ticket.t) : Store :=
  mkStore {[ meetup := meetup_event capacity sold ]} l [] sample_users.

Definition empty_store : Store := sample_store 2 0 [].

(** Alice and Bob hold a ticket each; Alice was let in by gate A. *)
Definition store_two_tickets : Store :=
  sample_store 2 2
    [scanned_by gate_a meetup_start 1 (ticket_of alice env_1);
     ticket_of bob env_2].

(** Alice holds the only ticket and has not been scanned yet. *)
Definition store_one_ticket : Store :=
  sample_store 2 1 [ticket_of alice env_1].

Definition entry_by_number (staff : Id) : Scan.Request :=
  Scan.mkRequest (Some "TCK1") None None Scan.entry staff.

Definition entry_by_qr (staff : Id) : Scan.Request :=
  Scan.mkRequest None (Some "aa") (Some (ObjectId meetup)) Scan.entry staff.

Definition exit_by_number (staff : Id) : Scan.Request :=
  Scan.mkRequest (Some "TCK1") None None Scan.exit staff.

Definition exit_of_bob : Scan.Request :=
  Scan.mkRequest None (Some "bb") None Scan.exit gate_a.

(** Alice's ticket number together with the QR code data of Bob's
    ticket. *)
Definition mixed_keys : Scan.Request :=
  Scan.mkRequest (Some "TCK1") (Some "bb") None Scan.entry gate_a.

(** A ticket number that no ticket carries together with the QR code
    data of Bob's ticket. *)
Definition unknown_number : Scan.Request :=
  Scan.mkRequest (Some "TCK9") (Some "bb") None Scan.entry gate_a.

(** The clock of a scan: the request at [now], its [save()] a moment
    later. *)
Definition at_time (now : Time) : Time * Time := (now, now + 5).

(** Gate A scans Alice's ticket, then gate B twice. *)
Definition sample_scans : list (Scan.Request * (Time * Time)) :=
  [(entry_by_number gate_a, at_time meetup_start);
   (entry_by_qr gate_b, at_time (meetup_start + 1000));
   (entry_by_number gate_b, at_time meetup_end)].

Definition cancel_by_alice : Cancel.Request :=
  Cancel.mkRequest (ObjectId 101%N) alice (Some "Plans changed").

Definition cancel_by_bob : Cancel.Request :=
  Cancel.mkRequest (ObjectId 102%N) bob None.

(** The clock readings of a cancellation that starts at [now]. *)
Definition cancel_env (now : Time) : Cancel.Env :=
  Cancel.mkEnv now (now + 1) (now + 2) (now + 3) (now + 4) (now + 5).

(** Alice booked and then cancelled. *)
Definition book_then_cancel : list Op :=
  [OpBook (book_by alice) env_1;
   OpCancel cancel_by_alice (cancel_env (2 * day))].

Definition store_after_cancel : Store := run_ops book_then_cancel empty_store.



Definition race_alice_alice : list BookProc.Proc :=
  [BookProc.start (book_by alice) env_1; BookProc.start (book_by alice) env_2].

Definition in_turns : list nat :=
  [0; 1; 0; 1; 0; 1; 0; 1; 0; 1; 0; 1]%nat.

Definition sample_ops : list Op :=
  [OpBook (book_by alice) env_1;
   OpBook (book_by bob) env_2;
   OpCancel cancel_by_alice (cancel_env (2 * day));
   OpBook (book_by alice) env_3].

(** An instance of [trim] for texts whose only white space is the ASCII
    one. *)
Definition is_space (a : Ascii.ascii) : bool :=
  bool_decide (Ascii.N_of_ascii a ∈ [9; 10; 11; 12; 13; 32]%N).

Fixpoint trim_start (s : string) : string :=
  match s with
  | String a s' => if is_space a then trim_start s' else s
  | EmptyString => EmptyString
  end.

Definition trim_ascii (s : string) : string :=
  String.rev (trim_start (String.rev (trim_start s))).

Definition note_on_alice : Note.Request :=
  Note.mkRequest (ObjectId 101%N) (Text "  VIP guest ") gate_b.

Definition note_env (now : Time) : Note.Env := Note.mkEnv now 201%N (now + 5).

(** Alice and Bob book, Bob cancels, Alice is let in and annotated, and
    the host tries to delete the event. *)
Definition sample_calls : list Call :=
  [CallBook (book_by alice) env_1;
   CallBook (book_by bob) env_2;
   CallCancel cancel_by_bob (cancel_env (2 * day));
   CallScan (entry_by_number gate_a) meetup_start (meetup_start + 5);
   CallNote note_on_alice (note_env (meetup_start + 1000));
   CallScan (exit_by_number gate_b) meetup_end (meetup_end + 5);
   CallDelete (ObjectId meetup) host_of_meetup].
(** * Properties *)

(** ** The collection primitives *)

Lemma Ticket_findOne_Some f l t :
  Ticket_findOne f l = Some t →
  ∃ i, l !! i = Some t ∧ f t = true
       ∧ ∀ j u, l !! j = Some u → (j < i)%nat → f u ≠ true.
Proof.
  unfold Ticket_findOne. intros H.
  destruct (list_find _ l) as [[i x]|] eqn:E; [|done].
  injection H as ->. apply list_find_Some in E as (Hi & Hf & Hmin).
  exists i. auto.
Qed.

Lemma Ticket_findOne_None f l :
  Ticket_findOne f l = None ↔ ∀ t, t ∈ l → f t = false.
Proof.
  unfold Ticket_findOne. rewrite fmap_None, list_find_None, Forall_forall.
  split; intros H t Ht; specialize (H t Ht); destruct (f t); naive_solver.
Qed.

Lemma Ticket_findOne_first f l i t :
  l !! i = Some t → f t = true →
  (∀ j u, l !! j = Some u → (j < i)%nat → f u ≠ true) →
  Ticket_findOne f l = Some t.
Proof.
  intros Hi Hf Hmin. unfold Ticket_findOne.
  assert (list_find (λ t, f t = true) l = Some (i, t)) as ->; [|done].
  apply list_find_Some. naive_solver.
Qed.

Lemma existsb_false {A} (f : A → bool) (l : list A) :
  existsb f l = false ↔ ∀ x, x ∈ l → f x = false.
Proof.
  induction l as [|a l IH]; simpl.
  - split; [intros _ x Hx; inversion Hx | done].
  - rewrite orb_false_iff, IH. split.
    + intros [Ha Hl] x Hx. apply elem_of_cons in Hx as [->|Hx]; auto.
    + intros H. split; [apply H; left | intros x Hx; apply H; by right].
Qed.

Lemma Ticket_insert_Some t l l' :
  Ticket_insert t l = Some l' ↔
  (∀ u, u ∈ l → index_clash t u = false) ∧ l' = l ++ [t].
Proof.
  unfold Ticket_insert. destruct (existsb _ l) eqn:E.
  - split; [done|]. intros [H _].
    pose proof (proj2 (existsb_false _ _) H). congruence.
  - pose proof (proj1 (existsb_false _ _) E) as E'.
    split; [intros [= <-]; done | intros [_ ->]; done].
Qed.

Lemma index_clash_false a b :
  index_clash a b = false →
  Ticket._id a ≠ Ticket._id b
  ∧ Ticket.ticketNumber a ≠ Ticket.ticketNumber b
  ∧ Ticket.qrCodeUrl a ≠ Ticket.qrCodeUrl b
  ∧ Ticket.qrCodeData a ≠ Ticket.qrCodeData b.
Proof.
  unfold index_clash. intros H.
  repeat (apply orb_false_iff in H as [H ?]).
  repeat match goal with
         | H : bool_decide _ = false |- _ => apply bool_decide_eq_false in H
         end.
  by repeat split.
Qed.

(** With distinct [_id]s, [save()] of a loaded document lands on the
    very document that was loaded. *)
Lemma Ticket_update_at l i t t' :
  ids_unique l → l !! i = Some t → Ticket._id t' = Ticket._id t →
  Ticket_update t' l = <[i := t']> l.
Proof.
  intros Hnd Hi Hid. unfold Ticket_update.
  assert (list_find (λ u, Ticket._id u = Ticket._id t') l = Some (i, t)) as ->;
    [|done].
  apply list_find_Some. split; [done|]. split; [done|].
  intros j u Hj Hlt Heq.
  assert (j = i); [|lia].
  eapply (NoDup_lookup _ j i (Ticket._id t) Hnd).
  - rewrite list_lookup_fmap, Hj. simpl. congruence.
  - by rewrite list_lookup_fmap, Hi.
Qed.

Lemma ids_unique_insert l i t t' :
  ids_unique l → l !! i = Some t → Ticket._id t' = Ticket._id t →
  ids_unique (<[i := t']> l).
Proof.
  unfold ids_unique. intros Hnd Hi Hid.
  rewrite list_fmap_insert, Hid, list_insert_id; [done|].
  by rewrite list_lookup_fmap, Hi.
Qed.

Lemma ids_unique_snoc l t :
  ids_unique l → (∀ u, u ∈ l → index_clash t u = false) →
  ids_unique (l ++ [t]).
Proof.
  unfold ids_unique. intros Hnd Hfresh.
  rewrite fmap_app. apply NoDup_app. split; [done|]. split.
  - intros x Hx Hx'. apply list_elem_of_singleton in Hx' as ->.
    apply list_elem_of_fmap in Hx as (u & Hid & Hu).
    apply Hfresh, index_clash_false in Hu as (Hne & _). congruence.
  - apply NoDup_singleton.
Qed.

(** ** Counting the active tickets of an event *)

Lemma active_count_nonneg e l : 0 ≤ active_count e l.
Proof. unfold active_count. lia. Qed.

Lemma active_count_snoc e l t :
  active_count e (l ++ [t]) =
  active_count e l + (if active_of e t then 1 else 0).
Proof.
  unfold active_count. rewrite filter_app, length_app.
  rewrite filter_cons, filter_nil.
  destruct (active_of e t); case_decide; simpl; try done; lia.
Qed.

Lemma active_count_insert e l i t t' :
  l !! i = Some t →
  active_count e (<[i := t']> l) =
  active_count e l - (if active_of e t then 1 else 0)
  + (if active_of e t' then 1 else 0).
Proof.
  intros Hi. unfold active_count.
  rewrite insert_take_drop by (by eapply lookup_lt_Some).
  rewrite <- (take_drop_middle l i t Hi) at 3.
  rewrite !filter_app, !filter_cons, !length_app.
  destruct (active_of e t), (active_of e t');
    repeat case_decide; simpl; try done; lia.
Qed.

(** ** What a booking and a cancellation do to the database *)

Lemma Ticket_findById_snoc l t :
  (∀ u, u ∈ l → index_clash t u = false) →
  Ticket_findById (Ticket._id t) (l ++ [t]) = Some t.
Proof.
  intros Hfresh. unfold Ticket_findById.
  apply (Ticket_findOne_first _ _ (length l)).
  - by rewrite lookup_app_r, Nat.sub_diag by lia.
  - by apply bool_decide_eq_true_2.
  - intros j u Hj Hlt. rewrite lookup_app_l in Hj by done.
    apply list_elem_of_lookup_2, Hfresh, index_clash_false in Hj as (Hne & _).
    rewrite bool_decide_eq_true. congruence.
Qed.

(** Either the handler leaves the database alone, or it went through
    every check, inserted its ticket and raised the counter. *)
Lemma bookTicket_cases st req env :
  snd (bookTicket st req env) = st
  ∧ (∀ o, fst (bookTicket st req env) ≠ Book.Created201 o)
  ∨ ∃ e event,
      Book.eventId req = Some (ObjectId e)
      ∧ events st !! e = Some event
      ∧ Event.status event = Event.published
      ∧ Book.now env < Event.startDateTime event
      ∧ Event.ticketsSold event < Event.capacity event
      ∧ Event.isFree (Event.pricing event) = true
      ∧ Ticket_findOne (Book.existing_filter e (Book.attendeeId req))
          (tickets st) = None
      ∧ (∀ u, u ∈ tickets st →
              index_clash (Book.new_ticket e req env) u = false)
      ∧ bookTicket st req env =
          (Book.Created201 (Some (Book.new_ticket e req env)),
           Event_inc e 1 (Book.countedAt env)
             (with_tickets (tickets st ++ [Book.new_ticket e req env]) st)).
Proof.
  unfold bookTicket.
  destruct (Book.eventId req) as [[e|]|] eqn:Hreq; [|by left..].
  destruct (events st !! e) as [event|] eqn:Hev; [|by left].
  case_bool_decide as Hst; simpl; [|by left].
  destruct (Z.leb_spec (Event.startDateTime event) (Book.now env));
    [by left|].
  destruct (Z.geb_spec (Event.ticketsSold event) (Event.capacity event));
    [by left|].
  destruct (Ticket_findOne _ _) eqn:Hdup; [by left|].
  destruct (Event.isFree _) eqn:Hfree; [|by left].
  destruct (Ticket_insert _ _) as [l|] eqn:Hins; [|by left].
  apply Ticket_insert_Some in Hins as [Hfresh ->].
  right. exists e, event. repeat split; try done.
  unfold Event_inc, with_events, with_tickets. cbn [tickets].
  change (Book.objectId env) with (Ticket._id (Book.new_ticket e req env)).
  by rewrite Ticket_findById_snoc.
Qed.

Lemma hours_lt_24 start now :
  Qltb (Cancel.hoursUntilEvent start now) 24 = true
  ↔ start - now < 24 * 60 * 60 * 1000.
Proof.
  unfold Qltb, Cancel.hoursUntilEvent.
  rewrite negb_true_iff, <- not_true_iff_false, Qle_bool_iff.
  change (1000 * 60 * 60) with 3600000.
  unfold Qle, Qdiv, Qmult, Qinv, inject_Z; simpl. lia.
Qed.

(** Either the handler leaves the database alone, or it found an active
    ticket of the requester, marked it cancelled and lowered the counter
    of its event. *)
Lemma cancelTicket_cases st req env :
  Cancel.store (cancelTicket st req env) = st
  ∧ Cancel.success (Cancel.response (cancelTicket st req env)) = false
  ∧ Cancel.cancellation (cancelTicket st req env) = None
  ∨ ∃ ticket event i,
      Cancel.ticketId req = ObjectId (Ticket._id ticket)
      ∧ Ticket_findOne
          (Cancel.ticket_filter (Ticket._id ticket) (Cancel.attendeeId req))
          (tickets st) = Some ticket
      ∧ tickets st !! i = Some ticket
      ∧ Ticket.attendeeId ticket = Cancel.attendeeId req
      ∧ Ticket.status ticket = Ticket.active
      ∧ events st !! Ticket.eventId ticket = Some event
      ∧ 24 * 60 * 60 * 1000 ≤ Event.startDateTime event - Cancel.now env
      ∧ Cancel.response (cancelTicket st req env) =
          Cancel.Cancelled200 (Ticket.pricePaid ticket)
      ∧ tickets (Cancel.store (cancelTicket st req env)) =
          Ticket_update
            (Ticket.set_updatedAt (Cancel.savedAt env)
               (Ticket.set_status Ticket.cancelled ticket)) (tickets st)
      ∧ events (Cancel.store (cancelTicket st req env)) =
          alter (Event.inc_ticketsSold (-1) (Cancel.countedAt env))
            (Ticket.eventId ticket) (events st)
      ∧ users (Cancel.store (cancelTicket st req env)) = users st
      ∧ ∃ c, Cancel.cancellation (cancelTicket st req env) = Some c
             ∧ Ticket.refundAmount c = Ticket.pricePaid ticket
             ∧ Ticket.isCancelled c = true.
Proof.
  unfold cancelTicket.
  destruct (Cancel.ticketId req) as [id|] eqn:Hreq; [|by left].
  destruct (Ticket_findOne _ _) as [ticket|] eqn:Hfind; [|by left].
  destruct (events st !! Ticket.eventId ticket) as [event|] eqn:Hev;
    [|by left].
  destruct (Qltb (Cancel.hoursUntilEvent _ _) 24) eqn:Hh; [by left|].
  right.
  apply Ticket_findOne_Some in Hfind as Hf. destruct Hf as (i & Hi & Hf & _).
  unfold Cancel.ticket_filter in Hf.
  apply andb_true_iff in Hf as [Hf Hact]. apply andb_true_iff in Hf as [Hid Hatt].
  apply bool_decide_eq_true in Hid, Hatt, Hact. subst id.
  exists ticket, event, i. repeat split; try done.
  - apply not_true_iff_false in Hh. rewrite hours_lt_24 in Hh. lia.
  - by destruct (Qltb 0 _).
  - by destruct (Qltb 0 _).
  - by destruct (Qltb 0 _).
  - by eexists.
Qed.

(** ** The counter of sold tickets *)

Lemma bookTicket_store_ok st req env :
  store_ok st → store_ok (snd (bookTicket st req env)).
Proof.
  intros [Hids Hcnt].
  destruct (bookTicket_cases st req env)
    as [[-> _]|(e0 & event & _ & Hev & _ & _ & Hcap & _ & _ & Hfresh & ->)];
    [done|].
  split; cbn [snd Event_inc with_events with_tickets tickets events].
  - by apply ids_unique_snoc.
  - intros e ev'. rewrite lookup_alter, active_count_snoc.
    case_decide as He.
    + subst e. rewrite Hev. intros [= <-]. simpl.
      destruct (Hcnt _ _ Hev). destruct (active_of _ _); lia.
    + intros Hev'. destruct (Hcnt _ _ Hev').
      assert (active_of e (Book.new_ticket e0 req env) = false) as ->; [|lia].
      unfold active_of. simpl. by rewrite bool_decide_eq_false_2.
Qed.

Lemma cancelTicket_store_ok st req env :
  store_ok st → store_ok (Cancel.store (cancelTicket st req env)).
Proof.
  intros [Hids Hcnt].
  destruct (cancelTicket_cases st req env)
    as [(-> & _)|(t & event & i & _ & _ & Hi & _ & Hact & Hev & _ & _
                  & Htk & Hevs & _)]; [done|].
  rewrite (Ticket_update_at _ i t) in Htk by done.
  split; [rewrite Htk; by eapply ids_unique_insert|].
  intros e ev'. rewrite Htk, Hevs, lookup_alter, (active_count_insert _ _ _ t) by done.
  assert (active_of e (Ticket.set_updatedAt (Cancel.savedAt env)
                         (Ticket.set_status Ticket.cancelled t)) = false) as ->.
  { unfold active_of. simpl. apply andb_false_r. }
  case_decide as He.
  - subst e. rewrite Hev. intros [= <-]. simpl.
    destruct (Hcnt _ _ Hev).
    assert (active_of (Ticket.eventId t) t = true) as ->; [|lia].
    unfold active_of. by rewrite Hact, !bool_decide_eq_true_2.
  - intros Hev'. destruct (Hcnt _ _ Hev').
    assert (active_of e t = false) as ->; [|lia].
    unfold active_of. by rewrite bool_decide_eq_false_2.
Qed.

Lemma run_ops_store_ok ops st : store_ok st → store_ok (run_ops ops st).
Proof.
  revert st. induction ops as [|op ops IH]; intros st Hok; [done|].
  apply IH. destruct op; simpl.
  - by apply bookTicket_store_ok.
  - by apply cancelTicket_store_ok.
Qed.

(** C1. After every sequence of bookings and cancellations, the counter
    of every event lies between 0 and the capacity of the event. A
    booking changes a counter only by raising it by one from a value
    below the capacity, and a cancellation only by lowering by one the
    counter of the event of a ticket that was active. *)
Theorem ticketsSold_within_capacity st ops :
  store_ok st →
  (∀ e event, events (run_ops ops st) !! e = Some event →
     0 ≤ Event.ticketsSold event ≤ Event.capacity event)
  ∧ (∀ s req env e event event',
       events s !! e = Some event →
       events (snd (bookTicket s req env)) !! e = Some event' →
       Event.ticketsSold event' ≠ Event.ticketsSold event →
       Event.ticketsSold event < Event.capacity event
       ∧ Event.ticketsSold event' = Event.ticketsSold event + 1)
  ∧ (∀ s req env e event event',
       events s !! e = Some event →
       events (Cancel.store (cancelTicket s req env)) !! e = Some event' →
       Event.ticketsSold event' ≠ Event.ticketsSold event →
       Event.ticketsSold event' = Event.ticketsSold event - 1
       ∧ ∃ ticket, ticket ∈ tickets s
                   ∧ Cancel.ticketId req = ObjectId (Ticket._id ticket)
                   ∧ Ticket.eventId ticket = e
                   ∧ Ticket.status ticket = Ticket.active).
Proof.
  intros Hok. split; [|split].
  - intros e event Hev.
    destruct (run_ops_store_ok ops st Hok) as [_ Hcnt].
    destruct (Hcnt e event Hev).
    pose proof (active_count_nonneg e (tickets (run_ops ops st))). lia.
  - intros s req env e event event' Hev.
    destruct (bookTicket_cases s req env)
      as [[-> _]|(e0 & ev & _ & Hev0 & _ & _ & Hcap & _ & _ & _ & ->)].
    + rewrite Hev. by intros [= <-].
    + cbn [snd Event_inc with_events with_tickets events].
      rewrite lookup_alter. case_decide as He.
      * subst e. rewrite Hev0. rewrite Hev in Hev0. injection Hev0 as <-.
        intros [= <-] _. simpl. lia.
      * rewrite Hev. by intros [= <-].
  - intros s req env e event event' Hev.
    destruct (cancelTicket_cases s req env)
      as [(-> & _)|(t & ev & i & Hid & _ & Hi & _ & Hact & Hev0 & _ & _
                    & _ & -> & _)].
    + rewrite Hev. by intros [= <-].
    + rewrite lookup_alter. case_decide as He.
      * subst e. rewrite Hev. intros [= <-] _. simpl. split; [lia|].
        exists t. split; [by eapply list_elem_of_lookup_2|done].
      * rewrite Hev. by intros [= <-].
Qed.

Lemma ticketsSold_within_capacity_witness :
  store_ok empty_store
  ∧ ∀ e event, events (run_ops sample_ops empty_store) !! e = Some event →
      0 ≤ Event.ticketsSold event ≤ Event.capacity event.
Proof.
  assert (store_ok empty_store) as Hok.
  { apply (bool_decide_unpack _). vm_compute. reflexivity. }
  split; [exact Hok|].
  apply (ticketsSold_within_capacity empty_store sample_ops Hok).
Defined.

(** ** Failures of a booking *)

Lemma Ticket_findOne_existsb f l :
  Ticket_findOne f l = None ↔ existsb f l = false.
Proof. by rewrite Ticket_findOne_None, existsb_false. Qed.





(** ** Issuing a ticket *)

Lemma index_clash_fresh t u :
  Ticket._id u ≠ Ticket._id t →
  Ticket.ticketNumber u ≠ Ticket.ticketNumber t →
  Ticket.qrCodeUrl u ≠ Ticket.qrCodeUrl t →
  Ticket.qrCodeData u ≠ Ticket.qrCodeData t →
  index_clash t u = false.
Proof.
  intros H1 H2 H3 H4. unfold index_clash.
  by rewrite !bool_decide_eq_false_2 by congruence.
Qed.

Lemma fresh_for_no_clash l t :
  fresh_for l t → ∀ u, u ∈ l → index_clash t u = false.
Proof.
  intros Hfresh u Hu. destruct (Hfresh u Hu) as (? & ? & ? & ?).
  by apply index_clash_fresh.
Qed.

Lemma existing_filter_None l e a :
  (∀ u, u ∈ l → Ticket.eventId u = e → Ticket.attendeeId u = a →
        Ticket.status u = Ticket.cancelled) ↔
  Ticket_findOne (Book.existing_filter e a) l = None.
Proof.
  rewrite Ticket_findOne_None. unfold Book.existing_filter.
  split; intros H u Hu.
  - destruct (decide (Ticket.eventId u = e)) as [He|He];
      [|by rewrite (bool_decide_eq_false_2 _ He)].
    destruct (decide (Ticket.attendeeId u = a)) as [Ha|Ha];
      [|by rewrite (bool_decide_eq_false_2 _ Ha), andb_false_r].
    by rewrite (bool_decide_eq_true_2 _ (H u Hu He Ha)), andb_false_r.
  - intros He Ha. specialize (H u Hu).
    rewrite !bool_decide_eq_true_2 in H by done.
    destruct (decide (Ticket.status u = Ticket.cancelled)); [done|].
    by rewrite bool_decide_eq_false_2 in H.
Qed.

(** A request that passes every check on a free event, with fresh
    identifiers: the response and the database it leaves. *)
Lemma bookTicket_issues st req env e event :
  Book.eventId req = Some (ObjectId e) →
  events st !! e = Some event →
  Event.status event = Event.published →
  Book.now env < Event.startDateTime event →
  Event.ticketsSold event < Event.capacity event →
  (∀ u, u ∈ tickets st → Ticket.eventId u = e →
        Ticket.attendeeId u = Book.attendeeId req →
        Ticket.status u = Ticket.cancelled) →
  Event.isFree (Event.pricing event) = true →
  fresh_for (tickets st) (Book.new_ticket e req env) →
  bookTicket st req env =
    (Book.Created201 (Some (Book.new_ticket e req env)),
     Event_inc e 1 (Book.countedAt env)
       (with_tickets (tickets st ++ [Book.new_ticket e req env]) st)).
Proof.
  intros Hreq Hev Hst Hnow Hcap Hnone Hfree Hfresh.
  pose proof (fresh_for_no_clash _ _ Hfresh) as Hclash.
  unfold bookTicket. rewrite Hreq, Hev, Hst, bool_decide_eq_true_2 by done.
  cbn [negb].
  destruct (Z.leb_spec (Event.startDateTime event) (Book.now env)); [lia|].
  destruct (Z.geb_spec (Event.ticketsSold event) (Event.capacity event));
    [lia|].
  rewrite (proj1 (existing_filter_None _ _ _) Hnone), Hfree.
  assert (Ticket_insert (Book.new_ticket e req env) (tickets st)
          = Some (tickets st ++ [Book.new_ticket e req env])) as ->.
  { by apply Ticket_insert_Some. }
  unfold Event_inc, with_events, with_tickets. cbn [tickets events].
  change (Book.objectId env) with (Ticket._id (Book.new_ticket e req env)).
  by rewrite Ticket_findById_snoc.
Qed.




(** ** Booking again after a cancellation *)

(** C9, what the code does. The store enforces no uniqueness on the
    pair (event, attendee): its unique index is declared after a plain
    index of the same name and is never built. The duplicate check of
    [bookTicket] overlooks cancelled tickets, so for an attendee whose
    tickets for the event are all cancelled, a new request on a free
    event that passes the other checks succeeds, and the collection then
    holds two tickets for the pair. *)
Theorem rebooking_after_cancel_succeeds st req env e event c :
  Book.eventId req = Some (ObjectId e) →
  events st !! e = Some event →
  Event.status event = Event.published →
  Book.now env < Event.startDateTime event →
  Event.ticketsSold event < Event.capacity event →
  Event.isFree (Event.pricing event) = true →
  fresh_for (tickets st) (Book.new_ticket e req env) →
  c ∈ tickets st →
  Ticket.eventId c = e →
  Ticket.attendeeId c = Book.attendeeId req →
  (∀ u, u ∈ tickets st → Ticket.eventId u = e →
        Ticket.attendeeId u = Book.attendeeId req →
        Ticket.status u = Ticket.cancelled) →
  Ticket_findOne (Book.existing_filter e (Book.attendeeId req)) (tickets st)
  = None
  ∧ ∃ t st',
      bookTicket st req env = (Book.Created201 (Some t), st')
      ∧ tickets st' = tickets st ++ [t]
      ∧ c ∈ tickets st'
      ∧ pair_of t = pair_of c
      ∧ Ticket._id t ≠ Ticket._id c
      ∧ Ticket.status t = Ticket.active
      ∧ Ticket.status c = Ticket.cancelled.
Proof.
  intros Hreq Hev Hst Hnow Hcap Hfree Hfresh Hc Hce Hca Hnone.
  split; [by apply existing_filter_None|].
  exists (Book.new_ticket e req env). eexists.
  split; [by apply (bookTicket_issues st req env e event)|].
  cbn [Event_inc with_events with_tickets tickets].
  split; [done|]. split; [apply elem_of_app; by left|].
  split; [unfold pair_of; simpl; congruence|].
  split; [|split; [done|by apply Hnone]].
  destruct (Hfresh c Hc) as (Hid & _). congruence.
Qed.

(** Alice booked, cancelled, and books again: she is answered with a
    second ticket. *)
Lemma rebooking_after_cancel_succeeds_witness :
  ∃ t st',
    bookTicket store_after_cancel (book_by alice) env_3
    = (Book.Created201 (Some t), st')
    ∧ Ticket.status <$> tickets st' = [Ticket.cancelled; Ticket.active]
    ∧ pair_of <$> tickets st' = [(meetup, alice); (meetup, alice)].
Proof.
  assert (events store_after_cancel !! meetup
          = Some (Event.inc_ticketsSold (-1) (2 * day + 3)
                    (Event.inc_ticketsSold 1 (day + 3) (meetup_event 2 0))))
    as Hev by (vm_compute; reflexivity).
  assert (tickets store_after_cancel
          = [Ticket.set_updatedAt (2 * day + 2)
               (Ticket.set_status Ticket.cancelled (ticket_of alice env_1))])
    as Htk by (vm_compute; reflexivity).
  destruct (rebooking_after_cancel_succeeds store_after_cancel (book_by alice)
              env_3 meetup _
              (Ticket.set_updatedAt (2 * day + 2)
                 (Ticket.set_status Ticket.cancelled (ticket_of alice env_1)))
              eq_refl Hev)
    as (_ & t & st' & Hb & Htk' & _ & Hp & _ & Hact & _).
  - reflexivity.
  - vm_compute. reflexivity.
  - vm_compute. reflexivity.
  - reflexivity.
  - intros u Hu. rewrite Htk in Hu. apply list_elem_of_singleton in Hu as ->.
    vm_compute. repeat split; congruence.
  - rewrite Htk. left.
  - reflexivity.
  - reflexivity.
  - intros u Hu _ _. rewrite Htk in Hu.
    apply list_elem_of_singleton in Hu as ->. reflexivity.
  - exists t, st'. split; [exact Hb|].
    rewrite Htk', Htk, !fmap_app. cbn [fmap list_fmap].
    rewrite Hact, Hp. split; reflexivity.
Defined.

(** ** Cancelling a ticket *)

Lemma Ticket_findOne_unique l id a t :
  ids_unique l → t ∈ l →
  Ticket._id t = id →
  Ticket.attendeeId t = a →
  Ticket.status t = Ticket.active →
  Ticket_findOne (Cancel.ticket_filter id a) l = Some t.
Proof.
  intros Hnd Ht Hid Hatt Hact.
  apply list_elem_of_lookup in Ht as [i Hi].
  apply (Ticket_findOne_first _ _ i); [done| |].
  - unfold Cancel.ticket_filter. by rewrite !bool_decide_eq_true_2.
  - intros j u Hj Hlt Hf. unfold Cancel.ticket_filter in Hf.
    apply andb_true_iff in Hf as [Hf _]. apply andb_true_iff in Hf as [Hu _].
    apply bool_decide_eq_true in Hu.
    assert (j = i); [|lia].
    eapply (NoDup_lookup _ j i (Ticket._id t) Hnd).
    + rewrite list_lookup_fmap, Hj. simpl. congruence.
    + by rewrite list_lookup_fmap, Hi.
Qed.

Lemma cancelTicket_found st req env id ticket event :
  Cancel.ticketId req = ObjectId id →
  Ticket_findOne (Cancel.ticket_filter id (Cancel.attendeeId req)) (tickets st)
  = Some ticket →
  events st !! Ticket.eventId ticket = Some event →
  24 * 60 * 60 * 1000 ≤ Event.startDateTime event - Cancel.now env →
  Cancel.success (Cancel.response (cancelTicket st req env)) = true.
Proof.
  intros Hreq Hf Hev Hh. unfold cancelTicket. rewrite Hreq, Hf, Hev.
  assert (Qltb (Cancel.hoursUntilEvent (Event.startDateTime event)
                  (Cancel.now env)) 24 = false) as ->; [|done].
  apply not_true_iff_false. rewrite hours_lt_24. lia.
Qed.

(** The tickets that a cancellation leaves in the collection do not
    depend on the reason given nor on the date of the cancellation
    record. *)
Lemma cancelTicket_tickets_same st req env reason date :
  tickets
    (Cancel.store
       (cancelTicket st
          (Cancel.mkRequest (Cancel.ticketId req) (Cancel.attendeeId req)
             reason)
          (Cancel.mkEnv (Cancel.now env) date (Cancel.savedAt env)
             (Cancel.countedAt env) (Cancel.refundDate env)
             (Cancel.refundedAt env))))
  = tickets (Cancel.store (cancelTicket st req env)).
Proof.
  unfold cancelTicket. cbn [Cancel.ticketId Cancel.attendeeId Cancel.now
    Cancel.savedAt Cancel.countedAt Cancel.refundDate Cancel.refundedAt
    Cancel.reason Cancel.cancellationDate].
  destruct (Cancel.ticketId req); [|done].
  destruct (Ticket_findOne _ _) as [ticket|]; [|done].
  destruct (events st !! _); [|done].
  destruct (Qltb (Cancel.hoursUntilEvent _ _) 24); [done|].
  by destruct (Qltb 0 _).
Qed.

(** C4, what the code does. With distinct ticket [_id]s, a cancellation
    succeeds exactly when the ticket exists, belongs to the requester,
    is active, and its event starts at least 24 hours (86 400 000 ms)
    after the request. On success the response carries the price paid
    as refund amount, the stored ticket becomes cancelled and gets its
    stamp, nothing else in the collection changes, and the counter of
    the event goes down by exactly one. The handler also fills a
    cancellation record with the price paid as refund amount, but on a
    path the schema does not declare: nothing of it is stored, and the
    collection after the request is the same whatever reason and date
    the record was given. *)
Theorem cancelTicket_succeeds_iff st req env :
  ids_unique (tickets st) →
  (Cancel.success (Cancel.response (cancelTicket st req env)) = true
   ↔ ∃ ticket event,
       ticket ∈ tickets st
       ∧ Cancel.ticketId req = ObjectId (Ticket._id ticket)
       ∧ Ticket.attendeeId ticket = Cancel.attendeeId req
       ∧ Ticket.status ticket = Ticket.active
       ∧ events st !! Ticket.eventId ticket = Some event
       ∧ 24 * 60 * 60 * 1000 ≤ Event.startDateTime event - Cancel.now env)
  ∧ (Cancel.success (Cancel.response (cancelTicket st req env)) = true →
     ∃ ticket event i c,
       tickets st !! i = Some ticket
       ∧ Cancel.ticketId req = ObjectId (Ticket._id ticket)
       ∧ events st !! Ticket.eventId ticket = Some event
       ∧ Cancel.response (cancelTicket st req env)
         = Cancel.Cancelled200 (Ticket.pricePaid ticket)
       ∧ tickets (Cancel.store (cancelTicket st req env))
         = <[i := Ticket.set_updatedAt (Cancel.savedAt env)
                    (Ticket.set_status Ticket.cancelled ticket)]> (tickets st)
       ∧ events (Cancel.store (cancelTicket st req env))
         = <[Ticket.eventId ticket :=
               Event.inc_ticketsSold (-1) (Cancel.countedAt env) event]>
             (events st)
       ∧ Event.ticketsSold
           (Event.inc_ticketsSold (-1) (Cancel.countedAt env) event)
         = Event.ticketsSold event - 1
       ∧ Cancel.cancellation (cancelTicket st req env) = Some c
       ∧ Ticket.refundAmount c = Ticket.pricePaid ticket
       ∧ ∀ reason date,
           tickets
             (Cancel.store
                (cancelTicket st
                   (Cancel.mkRequest (Cancel.ticketId req)
                      (Cancel.attendeeId req) reason)
                   (Cancel.mkEnv (Cancel.now env) date (Cancel.savedAt env)
                      (Cancel.countedAt env) (Cancel.refundDate env)
                      (Cancel.refundedAt env))))
           = tickets (Cancel.store (cancelTicket st req env)))
  ∧ (∀ ticket event,
       ticket ∈ tickets st →
       Cancel.ticketId req = ObjectId (Ticket._id ticket) →
       Ticket.attendeeId ticket = Cancel.attendeeId req →
       Ticket.status ticket = Ticket.active →
       events st !! Ticket.eventId ticket = Some event →
       Event.startDateTime event - Cancel.now env < 24 * 60 * 60 * 1000 →
       Cancel.response (cancelTicket st req env) = Cancel.TooLate400)
  ∧ (Cancel.success (Cancel.response (cancelTicket st req env)) = false →
     Cancel.store (cancelTicket st req env) = st).
Proof.
  intros Hnd.
  assert (∀ ticket event,
            ticket ∈ tickets st →
            Cancel.ticketId req = ObjectId (Ticket._id ticket) →
            Ticket.attendeeId ticket = Cancel.attendeeId req →
            Ticket.status ticket = Ticket.active →
            events st !! Ticket.eventId ticket = Some event →
            Event.startDateTime event - Cancel.now env < 24 * 60 * 60 * 1000 →
            Cancel.response (cancelTicket st req env) = Cancel.TooLate400)
    as Hlate.
  { intros t event Ht Hid Hatt Hact Hev Hh. unfold cancelTicket.
    rewrite Hid, (Ticket_findOne_unique _ _ _ t), Hev by done.
    by rewrite (proj2 (hours_lt_24 _ _) Hh). }
  destruct (cancelTicket_cases st req env)
    as [(Hst & Hfail & _)
       |(t & event & i & Hid & Hfind & Hi & Hatt & Hact & Hev & Hh & Hresp
         & Htk & Hevs & _ & c & Hc & Href & _)].
  - split; [|split; [|split]]; [|congruence|exact Hlate|done].
    split; [congruence|].
    intros (t & event & Ht & Hid & Hatt & Hact & Hev & Hh).
    eapply cancelTicket_found; [done| |done..].
    by apply Ticket_findOne_unique.
  - split; [|split; [|split]]; [| |exact Hlate|by rewrite Hresp];
      rewrite Hresp.
    + split; [|done]. intros _. exists t, event.
      split; [by eapply list_elem_of_lookup_2|done].
    + intros _. exists t, event, i, c.
      rewrite (Ticket_update_at _ i t) in Htk by done.
      repeat split; try done.
      * rewrite Hevs. apply map_eq. intros j.
        rewrite lookup_alter, lookup_insert.
        case_decide; [subst; by rewrite Hev | done].
      * intros reason date. apply cancelTicket_tickets_same.
Qed.

(** Alice cancels her ticket exactly 24 hours before the start and is
    served; a minute later she would be refused. The record the handler
    filled carries her reason and a refund of 0; the stored ticket is
    the one she held, cancelled and stamped, and would be the same had
    she given no reason. *)
Lemma cancelTicket_succeeds_iff_witness :
  Cancel.response
    (cancelTicket store_two_tickets cancel_by_alice
       (cancel_env (meetup_start - day)))
  = Cancel.Cancelled200 0
  ∧ Cancel.response
      (cancelTicket store_two_tickets cancel_by_alice
         (cancel_env (meetup_start - day + 60 * 1000)))
    = Cancel.TooLate400
  ∧ ∃ ticket i c,
      tickets store_two_tickets !! i = Some ticket
      ∧ Ticket._id ticket = 101%N
      ∧ Cancel.cancellation
          (cancelTicket store_two_tickets cancel_by_alice
             (cancel_env (meetup_start - day))) = Some c
      ∧ Ticket.cancellationReason c = "Plans changed"
      ∧ Ticket.refundAmount c = Ticket.pricePaid ticket
      ∧ tickets (Cancel.store (cancelTicket store_two_tickets cancel_by_alice
                                 (cancel_env (meetup_start - day))))
        = <[i := Ticket.set_updatedAt (meetup_start - day + 2)
                   (Ticket.set_status Ticket.cancelled ticket)]>
            (tickets store_two_tickets)
      ∧ tickets (Cancel.store
                   (cancelTicket store_two_tickets
                      (Cancel.mkRequest (ObjectId 101%N) alice None)
                      (cancel_env (meetup_start - day))))
        = tickets (Cancel.store (cancelTicket store_two_tickets cancel_by_alice
                                   (cancel_env (meetup_start - day)))).
Proof.
  split; [vm_compute; reflexivity|]. split; [vm_compute; reflexivity|].
  assert (ids_unique (tickets store_two_tickets)) as Hnd.
  { apply (bool_decide_unpack _). vm_compute. reflexivity. }
  destruct (cancelTicket_succeeds_iff store_two_tickets cancel_by_alice
              (cancel_env (meetup_start - day)) Hnd) as (_ & Hsucc & _ & _).
  destruct Hsucc as (t & ev & i & c & Hi & Hid & _ & _ & Htk & _ & _ & Hc
                     & Href & Hsame);
    [vm_compute; reflexivity|].
  exists t, i, c. split; [exact Hi|].
  split; [by injection Hid|]. split; [exact Hc|].
  split; [|split; [exact Href|split; [exact Htk|]]].
  - pose proof Hc as Hc'. vm_compute in Hc'. by injection Hc' as <-.
  - apply (Hsame None (meetup_start - day + 1)).
Defined.

(** ** Entry scans *)

Lemma Ticket_findOne_insert f l i t t' :
  l !! i = Some t →
  (∀ j u, l !! j = Some u → (j < i)%nat → f u ≠ true) →
  f t' = true →
  Ticket_findOne f (<[i := t']> l) = Some t'.
Proof.
  intros Hi Hmin Hf. apply (Ticket_findOne_first _ _ i).
  - apply list_lookup_insert_eq. by eapply lookup_lt_Some.
  - done.
  - intros j u Hj Hlt. rewrite list_lookup_insert_ne in Hj by lia. eauto.
Qed.

(** A filter that some ticket passes went through the cast. *)
Lemma matches_castable q t : Scan.matches q t = true → Scan.castable q = true.
Proof.
  unfold Scan.matches, Scan.castable.
  destruct (Scan.q_eventId q) as [[e|]|]; try done.
  by rewrite andb_false_r.
Qed.

Lemma resolved_castable req l t :
  Ticket_findOne (Scan.matches (Scan.build_query req)) l = Some t →
  Scan.castable (Scan.build_query req) = true.
Proof.
  intros Hfind. apply Ticket_findOne_Some in Hfind as (i & _ & Hm & _).
  by eapply matches_castable.
Qed.

(** An entry scan always changes the verification object: [save()] has
    something to write. *)
Lemma entry_changes staff now v0 v :
  Scan.apply_action Scan.entry staff now v0 = Some v → v ≠ v0.
Proof.
  simpl. destruct (Ticket.isScanned v0) eqn:E; intros [= <-] Heq.
  - apply (f_equal Ticket.scanCount) in Heq. simpl in Heq. lia.
  - apply (f_equal Ticket.isScanned) in Heq. simpl in Heq. congruence.
Qed.

Lemma save_verification_changed v now t :
  v ≠ Ticket.verification t →
  Ticket.save_verification v now t
  = Ticket.set_updatedAt now (Ticket.set_verification v t).
Proof. intros Hne. unfold Ticket.save_verification. by case_decide. Qed.

(** One entry scan of a ready request inside the window: the response
    and the database it leaves. *)
Lemma scanTicket_entry st req t event now saved :
  entry_ready st req t event → in_window event now →
  ∃ i v attendee,
    tickets st !! i = Some t
    ∧ Scan.apply_action Scan.entry (Scan.staffId req) now
        (Ticket.verification t) = Some v
    ∧ users st !! Ticket.attendeeId t = Some attendee
    ∧ scanTicket st req now saved =
        (Scan.Recorded200
           (Scan.mkData (Ticket.ticketNumber t)
              (User.firstName attendee +:+ " " +:+ User.lastName attendee)
              (User.email attendee) (Event.title event)
              (Event.startDateTime event) v (Ticket.scanCount v)
              (bool_decide (Ticket.scanCount v = 1))),
         with_tickets
           (<[i := Ticket.set_updatedAt saved (Ticket.set_verification v t)]>
              (tickets st)) st).
Proof.
  intros (Hnd & Hkey & Hact & Hfind & Hev & Hstaff & Hactive & [attendee Hu])
         [Hstart Hend].
  apply Ticket_findOne_Some in Hfind as Hf. destruct Hf as (i & Hi & Hm & Hmin).
  assert (∃ v, Scan.apply_action Scan.entry (Scan.staffId req) now
                 (Ticket.verification t) = Some v) as [v Hv].
  { simpl. destruct (Ticket.isScanned _); eauto. }
  exists i, v, attendee. repeat split; try done.
  unfold scanTicket.
  apply orb_true_iff in Hkey.
  assert (negb (truthy (Scan.ticketNumber req))
          && negb (truthy (Scan.qrCodeData req)) = false) as ->.
  { destruct Hkey as [-> | ->]; simpl; [done|apply andb_false_r]. }
  rewrite (resolved_castable _ _ _ Hfind). cbn [negb].
  rewrite Hfind, Hev, Hact, Hv.
  rewrite !bool_decide_eq_true_2 by done. cbn [negb Scan.is_entry andb].
  destruct (Z.ltb_spec now (Event.startDateTime event)); [lia|].
  destruct (Z.gtb_spec now (Event.endDateTime event)); [lia|].
  rewrite (save_verification_changed _ _ _ (entry_changes _ _ _ _ Hv)).
  rewrite (Ticket_update_at _ i t) by done.
  cbn [users with_tickets]. by rewrite Hu.
Qed.

(** Recording a scan on ticket [t] keeps every request that resolved to
    [t] ready: the keys of the lookup are not touched. *)
Lemma entry_ready_after_scan st req t event i v saved :
  tickets st !! i = Some t →
  entry_ready st req t event →
  entry_ready
    (with_tickets
       (<[i := Ticket.set_updatedAt saved (Ticket.set_verification v t)]>
          (tickets st)) st)
    req (Ticket.set_updatedAt saved (Ticket.set_verification v t)) event.
Proof.
  intros Hi (Hnd & Hkey & Hact & Hfind & Hev & Hstaff & Hactive & Hu).
  repeat split; try done.
  - by eapply ids_unique_insert.
  - cbn [tickets with_tickets].
    apply Ticket_findOne_Some in Hfind as (j & Hj & Hm & Hmin).
    assert (j = i) as ->.
    { eapply (NoDup_lookup _ j i (Ticket._id t) Hnd);
        by rewrite list_lookup_fmap, ?Hj, ?Hi. }
    by apply (Ticket_findOne_insert _ _ _ t).
Qed.

Lemma scans_so_far_entry t staff now v saved :
  Scan.apply_action Scan.entry staff now (Ticket.verification t) = Some v →
  Ticket.isScanned v = true
  ∧ Ticket.scanCount v = scans_so_far t + 1
  ∧ scans_so_far (Ticket.set_updatedAt saved (Ticket.set_verification v t))
    = scans_so_far t + 1.
Proof.
  unfold scans_so_far. simpl.
  destruct (Ticket.isScanned (Ticket.verification t)) eqn:E;
    intros [= <-]; simpl; rewrite ?E; repeat split; lia.
Qed.

Lemma scan_many_entries event scans :
  ∀ st t, entry_scans st t event scans →
  ∀ k, (k < length scans)%nat →
    ∃ d, (scan_many st scans).1 !! k = Some (Scan.Recorded200 d)
         ∧ Scan.scanCount d = scans_so_far t + Z.of_nat k + 1
         ∧ Ticket.scanCount (Scan.verification d) = Scan.scanCount d
         ∧ Scan.isFirstScan d = bool_decide (Scan.scanCount d = 1).
Proof.
  induction scans as [|[req [now saved]] rest IH]; intros st t Hscans k Hk;
    [simpl in Hk; lia|].
  apply Forall_cons in Hscans as [[Hready Hnow] Hrest].
  destruct (scanTicket_entry st req t event now saved Hready Hnow)
    as (i & v & attendee & Hi & Hv & Hu & Hscan).
  destruct (scans_so_far_entry _ _ _ _ saved Hv) as (Hsc & Hcnt & Hnext).
  cbn [scan_many]. rewrite Hscan.
  destruct (scan_many _ rest) as [rs st2] eqn:Hrun. cbn [fst].
  destruct k as [|k].
  - eexists. split; [reflexivity|]. simpl. repeat split; try done; lia.
  - destruct (IH (with_tickets
                    (<[i := Ticket.set_updatedAt saved
                              (Ticket.set_verification v t)]>
                       (tickets st)) st)
                (Ticket.set_updatedAt saved (Ticket.set_verification v t)))
      with (k := k) as (d & Hd & Hcd & Hvd & Hfd).
    + eapply Forall_impl; [exact Hrest|]. intros s [Hr Hw].
      split; [by apply entry_ready_after_scan | done].
    + simpl in Hk. lia.
    + rewrite Hrun in Hd. exists d. simpl. repeat split; try done. lia.
Qed.

(** C5. Take entry requests that resolve to one active ticket, each made
    by staff assigned to its event while the event is on, and serve them
    one after the other. Every scan is recorded (none fails), and each
    reports a scan count one above the scan before: the k-th reports
    the scans recorded so far plus k. On a ticket not scanned before,
    the first scan reports count 1 with [isFirstScan = true] and every
    later one [isFirstScan = false]; on a ticket already scanned (its
    count being at least 1), every scan reports [isFirstScan = false]. *)
Theorem entry_rescans_never_fail st t event scans :
  entry_scans st t event scans →
  ∀ k, (k < length scans)%nat →
    ∃ d, (scan_many st scans).1 !! k = Some (Scan.Recorded200 d)
         ∧ Scan.scanCount d = scans_so_far t + Z.of_nat k + 1
         ∧ Ticket.scanCount (Scan.verification d) = Scan.scanCount d
         ∧ (Ticket.isScanned (Ticket.verification t) = false →
            Scan.scanCount d = Z.of_nat k + 1
            ∧ Scan.isFirstScan d = bool_decide (k = 0%nat))
         ∧ (Ticket.isScanned (Ticket.verification t) = true →
            1 ≤ Ticket.scanCount (Ticket.verification t) →
            Scan.scanCount d = Ticket.scanCount (Ticket.verification t)
                               + Z.of_nat k + 1
            ∧ Scan.isFirstScan d = false).
Proof.
  intros Hscans k Hk.
  destruct (scan_many_entries event scans st t Hscans k Hk)
    as (d & Hd & Hcd & Hvd & Hfd).
  exists d. split; [done|]. split; [done|]. split; [done|].
  unfold scans_so_far in Hcd. split.
  - intros Hs. rewrite Hs in Hcd. split; [lia|].
    rewrite Hfd. apply bool_decide_ext. lia.
  - intros Hs H1. rewrite Hs in Hcd. split; [lia|].
    rewrite Hfd. apply bool_decide_eq_false_2. lia.
Qed.

Lemma sample_scans_ready :
  entry_scans store_one_ticket (ticket_of alice env_1) (meetup_event 2 1)
    sample_scans.
Proof.
  assert (ids_unique (tickets store_one_ticket)) as Hnd.
  { apply (bool_decide_unpack _). vm_compute. reflexivity. }
  repeat apply Forall_cons_2; [| | |apply Forall_nil_2].
  all: split; [|vm_compute; split; discriminate].
  all: repeat split; try done; try (vm_compute; eauto; fail).
  all: apply (bool_decide_unpack _); vm_compute; reflexivity.
Qed.

(** The scenario of the specification: gate A lets Alice in (first
    scan, count 1), gate B scans her ticket again (count 2). *)
Lemma entry_rescans_never_fail_witness :
  ∃ d1 d2,
    (scan_many store_one_ticket sample_scans).1 !! 0%nat
      = Some (Scan.Recorded200 d1)
    ∧ Scan.scanCount d1 = 1 ∧ Scan.isFirstScan d1 = true
    ∧ (scan_many store_one_ticket sample_scans).1 !! 1%nat
      = Some (Scan.Recorded200 d2)
    ∧ Scan.scanCount d2 = 2 ∧ Scan.isFirstScan d2 = false.
Proof.
  pose proof (entry_rescans_never_fail store_one_ticket
                (ticket_of alice env_1) (meetup_event 2 1) sample_scans
                sample_scans_ready) as H.
  destruct (H 0%nat) as (d1 & Hd1 & _ & _ & Hf1 & _); [simpl; lia|].
  destruct (H 1%nat) as (d2 & Hd2 & _ & _ & Hf2 & _); [simpl; lia|].
  destruct (Hf1 eq_refl) as [Hc1 Hi1]. destruct (Hf2 eq_refl) as [Hc2 Hi2].
  exists d1, d2. repeat split; done.
Defined.

(** ** What a re-scan writes *)

(** After a series of entry scans of a ticket already scanned, the
    stored ticket has the verification object it had, with the scan
    count raised by the number of scans. *)
Lemma scan_many_rescans event scans :
  ∀ st t i, entry_scans st t event scans →
  tickets st !! i = Some t →
  Ticket.isScanned (Ticket.verification t) = true →
  ∃ t', tickets (scan_many st scans).2 !! i = Some t'
        ∧ Ticket.verification t'
          = Ticket.set_scanCount
              (Ticket.scanCount (Ticket.verification t)
               + Z.of_nat (length scans)) (Ticket.verification t).
Proof.
  induction scans as [|[req [now saved]] rest IH]; intros st t i Hscans Hi Hs.
  - exists t. split; [done|]. simpl. rewrite Z.add_0_r.
    by destruct (Ticket.verification t).
  - apply Forall_cons in Hscans as [[Hready Hnow] Hrest].
    destruct (scanTicket_entry st req t event now saved Hready Hnow)
      as (j & v & attendee & Hj & Hv & Hu & Hscan).
    assert (j = i) as ->.
    { destruct Hready as (Hnd & _).
      eapply (NoDup_lookup _ j i (Ticket._id t) Hnd);
        by rewrite list_lookup_fmap, ?Hj, ?Hi. }
    cbn [scan_many]. rewrite Hscan.
    destruct (scan_many _ rest) as [rs st2] eqn:Hrun. cbn [snd].
    simpl in Hv. rewrite Hs in Hv. injection Hv as <-.
    destruct (IH (with_tickets
                    (<[i := Ticket.set_updatedAt saved
                              (Ticket.set_verification
                                 (Ticket.set_scanCount
                                    (Ticket.scanCount (Ticket.verification t)
                                     + 1) (Ticket.verification t)) t)]>
                       (tickets st)) st)
                (Ticket.set_updatedAt saved
                   (Ticket.set_verification
                      (Ticket.set_scanCount
                         (Ticket.scanCount (Ticket.verification t) + 1)
                         (Ticket.verification t)) t)) i)
      as (t' & Ht' & Hv').
    + eapply Forall_impl; [exact Hrest|]. intros s [Hr Hw].
      split; [by apply entry_ready_after_scan | done].
    + cbn [tickets with_tickets]. apply list_lookup_insert_eq.
      by eapply lookup_lt_Some.
    + simpl. exact Hs.
    + rewrite Hrun in Ht'. exists t'. split; [exact Ht'|].
      rewrite Hv'. unfold Ticket.set_scanCount. simpl. f_equal.
      rewrite Nat2Z.inj_succ. lia.
Qed.

(** C10, as the code has it. An entry re-scan of a ticket already
    scanned writes the scan count and the [updatedAt] stamp, and nothing
    else: the stored ticket keeps every other path, and no other ticket,
    event, payment or user changes. And [scannedBy] keeps the staff
    member of the first scan: after any series of entry scans of a
    ticket not scanned before, by whichever assigned staff, the stored
    ticket names the first scanner and the time of the first scan, and
    counts every scan. *)
Theorem rescan_changes_only_scanCount st t event req now saved scans :
  entry_scans st t event ((req, (now, saved)) :: scans) →
  (Ticket.isScanned (Ticket.verification t) = true →
   ∃ i t',
     tickets st !! i = Some t
     ∧ snd (scanTicket st req now saved)
       = with_tickets (<[i := t']> (tickets st)) st
     ∧ t' = Ticket.mk (Ticket._id t) (Ticket.eventId t) (Ticket.attendeeId t)
              (Ticket.ticketNumber t) (Ticket.qrCodeUrl t)
              (Ticket.qrCodeData t) (Ticket.paymentId t) (Ticket.pricePaid t)
              (Ticket.paymentStatus t) (Ticket.status t)
              (Ticket.checkInStatus t) (Ticket.bookingDate t)
              (Ticket.attendeeInfo t)
              (Ticket.mkVerification
                 (Ticket.isScanned (Ticket.verification t))
                 (Ticket.scannedAt (Ticket.verification t))
                 (Ticket.scannedBy (Ticket.verification t))
                 (Ticket.entryTime (Ticket.verification t))
                 (Ticket.exitTime (Ticket.verification t))
                 (Ticket.scanCount (Ticket.verification t) + 1))
              (Ticket.staffNotes t) (Ticket.createdAt t) saved (Ticket.__v t)
     ∧ (∀ j, j ≠ i → tickets (snd (scanTicket st req now saved)) !! j
                      = tickets st !! j)
     ∧ events (snd (scanTicket st req now saved)) = events st
     ∧ payments (snd (scanTicket st req now saved)) = payments st
     ∧ users (snd (scanTicket st req now saved)) = users st)
  ∧ (Ticket.isScanned (Ticket.verification t) = false →
     ∃ i t',
       tickets st !! i = Some t
       ∧ tickets (scan_many st ((req, (now, saved)) :: scans)).2 !! i
         = Some t'
       ∧ Ticket.verification t'
         = Ticket.mkVerification true (Some now) (Some (Scan.staffId req))
             (Some now) (Ticket.exitTime (Ticket.verification t))
             (1 + Z.of_nat (length scans))).
Proof.
  intros Hscans.
  apply Forall_cons in Hscans as [[Hready Hnow] Hrest]. simpl in Hnow.
  destruct (scanTicket_entry st req t event now saved Hready Hnow)
    as (i & v & attendee & Hi & Hv & _ & Hscan).
  split; intros Hscanned; simpl in Hv; rewrite Hscanned in Hv;
    injection Hv as <-.
  - rewrite Hscan.
    exists i. eexists. split; [done|]. split; [reflexivity|].
    split; [reflexivity|].
    cbn [snd with_tickets tickets events payments users].
    split; [|done]. intros j Hj. by apply list_lookup_insert_ne.
  - cbn [scan_many]. rewrite Hscan.
    destruct (scan_many _ scans) as [rs st2] eqn:Hrun. cbn [snd].
    set (v := Ticket.mkVerification true (Some now) (Some (Scan.staffId req))
                (Some now) (Ticket.exitTime (Ticket.verification t)) 1) in *.
    destruct (scan_many_rescans event scans
                (with_tickets
                   (<[i := Ticket.set_updatedAt saved
                             (Ticket.set_verification v t)]> (tickets st)) st)
                (Ticket.set_updatedAt saved (Ticket.set_verification v t)) i)
      as (t' & Ht' & Hv').
    + eapply Forall_impl; [exact Hrest|]. intros s [Hr Hw].
      split; [by apply entry_ready_after_scan | done].
    + cbn [tickets with_tickets]. apply list_lookup_insert_eq.
      by eapply lookup_lt_Some.
    + reflexivity.
    + rewrite Hrun in Ht'. exists i, t'. split; [done|]. split; [exact Ht'|].
      by rewrite Hv'.
Qed.

Lemma rescan_ready :
  entry_scans store_two_tickets
    (scanned_by gate_a meetup_start 1 (ticket_of alice env_1))
    (meetup_event 2 2)
    [(entry_by_number gate_b, at_time (meetup_start + 1000))].
Proof.
  assert (ids_unique (tickets store_two_tickets)) as Hnd.
  { apply (bool_decide_unpack _). vm_compute. reflexivity. }
  apply Forall_cons_2; [|apply Forall_nil_2].
  split; [|vm_compute; split; discriminate].
  repeat split; try done; try (vm_compute; eauto; fail).
  apply (bool_decide_unpack _); vm_compute; reflexivity.
Qed.

(** Gate A lets Alice in and gate B scans her ticket twice more: the
    stored ticket names gate A and the time of the first scan, and
    counts three scans. And when gate B re-scans the ticket that gate A
    scanned, the stored ticket still names gate A, counts two scans and
    carries the stamp of the save; Bob's ticket is as it was. *)
Lemma rescan_changes_only_scanCount_witness :
  (∃ t', tickets (scan_many store_one_ticket sample_scans).2 !! 0%nat = Some t'
         ∧ Ticket.scannedBy (Ticket.verification t') = Some gate_a
         ∧ Ticket.scannedAt (Ticket.verification t') = Some meetup_start
         ∧ Ticket.scanCount (Ticket.verification t') = 3)
  ∧ ∃ t', tickets (snd (scanTicket store_two_tickets (entry_by_number gate_b)
                          (meetup_start + 1000) (meetup_start + 1005)))
          = [t'; ticket_of bob env_2]
          ∧ Ticket.scannedBy (Ticket.verification t') = Some gate_a
          ∧ Ticket.scanCount (Ticket.verification t') = 2
          ∧ Ticket.updatedAt t' = meetup_start + 1005
          ∧ Ticket.status t' = Ticket.active.
Proof.
  split.
  - destruct (rescan_changes_only_scanCount store_one_ticket
                (ticket_of alice env_1) (meetup_event 2 1)
                (entry_by_number gate_a) meetup_start (meetup_start + 5)
                [(entry_by_qr gate_b, at_time (meetup_start + 1000));
                 (entry_by_number gate_b, at_time meetup_end)]
                sample_scans_ready) as [_ Hfirst].
    destruct (Hfirst eq_refl) as (i & t' & Hi & Ht' & Hv).
    destruct i as [|i]; [|discriminate Hi].
    exists t'. split; [exact Ht'|]. by rewrite Hv.
  - destruct (rescan_changes_only_scanCount store_two_tickets
                (scanned_by gate_a meetup_start 1 (ticket_of alice env_1))
                (meetup_event 2 2) (entry_by_number gate_b)
                (meetup_start + 1000) (meetup_start + 1005) [] rescan_ready)
      as [Hre _].
    destruct (Hre eq_refl) as (i & t' & Hi & Hst & -> & _).
    assert (i = 0%nat) as ->.
    { destruct i as [|[|i]]; [done|by vm_compute in Hi|by vm_compute in Hi]. }
    eexists. rewrite Hst. split; [reflexivity|]. by repeat split.
Defined.

(** C10 as stated fails: Alice's ticket was scanned by gate A; a re-scan
    by gate B raises the scan count from 1 to 2 and also rewrites the
    [updatedAt] stamp of the stored ticket. *)
Lemma rescan_rewrites_updatedAt :
  (Ticket.scanCount ∘ Ticket.verification) <$> tickets store_two_tickets
  !! 0%nat = Some 1
  ∧ Ticket.updatedAt <$> tickets store_two_tickets !! 0%nat = Some (day + 2)
  ∧ (Ticket.scanCount ∘ Ticket.verification)
      <$> tickets (snd (scanTicket store_two_tickets (entry_by_number gate_b)
                          (meetup_start + 1000) (meetup_start + 1005)))
      !! 0%nat = Some 2
  ∧ Ticket.updatedAt
      <$> tickets (snd (scanTicket store_two_tickets (entry_by_number gate_b)
                          (meetup_start + 1000) (meetup_start + 1005)))
      !! 0%nat = Some (meetup_start + 1005)
  ∧ day + 2 ≠ meetup_start + 1005.
Proof. vm_compute. repeat split; congruence. Qed.

(** ** Lookup keys of a scan *)

Lemma by_number_matches req n :
  Scan.ticketNumber req = Some n → truthy (Some n) = true →
  ∀ t, Scan.matches (Scan.build_query req) t
       = by_number n (Scan.eventId req) t.
Proof.
  intros Hn Htr t. unfold Scan.matches, Scan.build_query, by_number.
  cbn [Scan.q_ticketNumber Scan.q_qrCodeData Scan.q_eventId].
  rewrite Hn, Htr. by rewrite andb_true_r.
Qed.

Lemma Ticket_findOne_ext f g l :
  (∀ t, f t = g t) → Ticket_findOne f l = Ticket_findOne g l.
Proof.
  intros Hfg. unfold Ticket_findOne. f_equal.
  induction l as [|a l IH]; [done|].
  cbn [list_find]. rewrite IH, Hfg. by repeat case_decide.
Qed.

(** C6, as the code has it. When a ticket number is supplied, the
    lookup goes by that number (within the event of the request, if it
    names one) and the QR code data of the request plays no part: the
    request is served as if it carried the ticket number alone; it is
    answered 'Ticket not found' when no ticket carries the number,
    whatever its QR code data; and a scan it records is recorded on the
    first ticket that carries the number. *)
Theorem scanTicket_ticketNumber_first st req now saved n :
  Scan.ticketNumber req = Some n →
  truthy (Some n) = true →
  scanTicket st req now saved
  = scanTicket st (Scan.without_qrCodeData req) now saved
  ∧ (Scan.eventId req ≠ Some Malformed →
     Ticket_findOne (by_number n (Scan.eventId req)) (tickets st) = None →
     scanTicket st req now saved = (Scan.NotFound404, st))
  ∧ (∀ d, fst (scanTicket st req now saved) = Scan.Recorded200 d →
       ∃ t, Ticket_findOne (by_number n (Scan.eventId req)) (tickets st)
            = Some t
            ∧ Ticket.ticketNumber t = n
            ∧ Scan.data_ticketNumber d = n
            ∧ snd (scanTicket st req now saved)
              = with_tickets
                  (Ticket_update
                     (Ticket.save_verification (Scan.verification d) saved t)
                     (tickets st)) st).
Proof.
  intros Hn Htr. split; [|split].
  - unfold scanTicket, Scan.build_query, Scan.without_qrCodeData.
    cbn [Scan.ticketNumber Scan.qrCodeData Scan.eventId Scan.action
         Scan.staffId].
    by rewrite Hn, Htr.
  - intros Hwf Hnone. unfold scanTicket.
    rewrite Hn, Htr. cbn [negb andb].
    assert (Scan.castable (Scan.build_query req) = true) as ->.
    { unfold Scan.castable, Scan.build_query. cbn [Scan.q_eventId].
      by destruct (Scan.eventId req) as [[e|]|]. }
    cbn [negb].
    by rewrite (Ticket_findOne_ext _ _ _ (by_number_matches req n Hn Htr)),
      Hnone.
  - intros d. unfold scanTicket.
    rewrite Hn, Htr. cbn [negb andb].
    destruct (Scan.castable _); [|done]. cbn [negb].
    rewrite (Ticket_findOne_ext _ _ _ (by_number_matches req n Hn Htr)).
    destruct (Ticket_findOne _ _) as [t|] eqn:Hfind; [|done].
    destruct (events st !! _) as [event|]; [|done].
    destruct (negb (bool_decide (_ ∈ _))); [done|].
    destruct (negb (bool_decide (Ticket.status t = _))); [done|].
    destruct (_ && _); [done|]. destruct (_ >? _); [done|].
    destruct (Scan.apply_action _ _ _ _) as [v|]; [|done].
    destruct (users st !! _) as [attendee|]; [|done].
    cbn [fst snd]. intros [= <-]. exists t.
    apply Ticket_findOne_Some in Hfind as Hf. destruct Hf as (i & _ & Hm & _).
    unfold by_number in Hm. apply andb_true_iff in Hm as [Hnum _].
    apply bool_decide_eq_true in Hnum.
    cbn [Scan.data_ticketNumber Scan.verification].
    repeat split; try done.
    unfold Ticket.save_verification. by case_decide.
Qed.

(** The two requests of the scenario: with Alice's number the scan is
    served as if Bob's QR code data were not there; with a number that
    no ticket carries it is not found, although the QR code data is
    Bob's. *)
Lemma scanTicket_ticketNumber_first_witness :
  scanTicket store_two_tickets mixed_keys (meetup_start + 1000)
    (meetup_start + 1005)
  = scanTicket store_two_tickets (entry_by_number gate_a) (meetup_start + 1000)
      (meetup_start + 1005)
  ∧ scanTicket store_two_tickets unknown_number (meetup_start + 1000)
      (meetup_start + 1005)
    = (Scan.NotFound404, store_two_tickets).
Proof.
  split.
  - apply (scanTicket_ticketNumber_first store_two_tickets mixed_keys
             (meetup_start + 1000) (meetup_start + 1005) "TCK1");
      reflexivity.
  - apply (scanTicket_ticketNumber_first store_two_tickets unknown_number
             (meetup_start + 1000) (meetup_start + 1005) "TCK9");
      [reflexivity..|discriminate|vm_compute; reflexivity].
Defined.

(** C6 as stated fails: the ticket number of the request resolves to
    Alice's ticket and its QR code data to Bob's, and the scan is
    recorded on Alice's ticket without any error. *)
Lemma scanTicket_mixed_keys_recorded :
  Ticket.attendeeId
    <$> Ticket_findOne (λ t, bool_decide (Ticket.ticketNumber t = "TCK1"))
          (tickets store_two_tickets) = Some alice
  ∧ Ticket.attendeeId
      <$> Ticket_findOne (λ t, bool_decide (Ticket.qrCodeData t = "bb"))
            (tickets store_two_tickets) = Some bob
  ∧ ∃ d, fst (scanTicket store_two_tickets mixed_keys (meetup_start + 1000)
                (meetup_start + 1005))
         = Scan.Recorded200 d
         ∧ Scan.data_ticketNumber d = "TCK1"
         ∧ Scan.attendee_name d = "Alice A"
         ∧ Scan.scanCount d = 2.
Proof.
  split; [vm_compute; reflexivity|]. split; [vm_compute; reflexivity|].
  eexists. split; [vm_compute; reflexivity|]. by repeat split.
Qed.

(** ** Attendance statistics *)






(** An exact tie, [23 / 160 * 100 = 14.375]: the product of doubles
    falls just below it and the rate comes out as 14.37, where the exact
    value rounds half up to 14.38. *)
Lemma rate_tie_rounds_down :
  Attendance.rate 23 160 = (1437 # 100)%Q
  ∧ Qfloor ((23 # 160) * 100 * 100 + (1 # 2)) = 1438.
Proof. vm_compute. done. Qed.




(** ** Bookings served concurrently *)

(** The handler cut at its awaits is the handler: six steps of a
    request with no other in flight end with the response and the
    database of [bookTicket]. *)
Lemma steps_bookTicket st req env :
  BookProc.steps 6 req env (BookProc.AtFindById, st)
  = (BookProc.Done (fst (bookTicket st req env)), snd (bookTicket st req env)).
Proof.
  unfold BookProc.steps, bookTicket. simpl.
  destruct (Book.eventId req) as [[e|]|]; [|done..].
  destruct (events st !! e) as [event|]; [|done].
  destruct (negb _); [done|]. destruct (_ <=? _); [done|].
  destruct (_ >=? _); [done|]. simpl.
  destruct (Ticket_findOne _ _); [done|].
  destruct (Event.isFree _); [|done]. simpl.
  destruct (Ticket_insert _ _); done.
Qed.

Lemma run_alone_bookTicket st req env :
  BookProc.run_alone st req env
  = (BookProc.Done (fst (bookTicket st req env)), snd (bookTicket st req env)).
Proof. exact (steps_bookTicket st req env). Qed.

Lemma length_filter_insert {A} (f : A → bool) (l : list A) i x y :
  l !! i = Some x →
  (length (filter (λ a, f a = true) (<[i := y]> l)) + (if f x then 1 else 0)
   = length (filter (λ a, f a = true) l) + (if f y then 1 else 0))%nat.
Proof.
  intros Hi.
  rewrite insert_take_drop by (by eapply lookup_lt_Some).
  rewrite <- (take_drop_middle l i x Hi) at 3.
  rewrite !filter_app, !filter_cons, !length_app.
  destruct (f x), (f y); repeat case_decide; simpl; try done; lia.
Qed.









(** Two requests of Alice for the event, served in turns: both pass the
    duplicate check before either ticket is stored, the store, which
    holds no unique index on the pair, accepts both tickets, and both
    requests are answered with a ticket. *)
Lemma concurrent_same_attendee_both_issued :
  Book.success
    <$> BookProc.response
          (BookProc.run in_turns (empty_store, race_alice_alice)).2 0
  = Some true
  ∧ Book.success
      <$> BookProc.response
            (BookProc.run in_turns (empty_store, race_alice_alice)).2 1
    = Some true
  ∧ pair_of <$> tickets (BookProc.run in_turns (empty_store, race_alice_alice)).1
    = [(meetup, alice); (meetup, alice)].
Proof. vm_compute. done. Qed.

(** * Further properties *)

(** ** Scans: refusals, exits and what a scan leaves alone *)

Lemma scan_key_supplied req :
  truthy (Scan.ticketNumber req) || truthy (Scan.qrCodeData req) = true →
  negb (truthy (Scan.ticketNumber req))
  && negb (truthy (Scan.qrCodeData req)) = false.
Proof.
  intros Hkey. apply orb_true_iff in Hkey as [-> | ->]; simpl;
    [done | apply andb_false_r].
Qed.

(** X1. Once the ticket of a scan request is found, staff who are not
    assigned to its event are refused with 403, whatever the action, the
    time and the state of the ticket, and nothing is written. *)
Theorem scanTicket_unassigned_staff st req t event now saved :
  scan_resolves st req t event →
  Scan.staffId req ∉ Event.assignedStaff event →
  scanTicket st req now saved = (Scan.NotAssigned403, st).
Proof.
  intros (Hkey & Hfind & Hev) Hstaff. unfold scanTicket.
  rewrite (scan_key_supplied _ Hkey), (resolved_castable _ _ _ Hfind).
  cbn [negb]. rewrite Hfind, Hev.
  by rewrite bool_decide_eq_false_2.
Qed.

Lemma scanTicket_unassigned_staff_witness :
  scanTicket store_two_tickets (entry_by_number stranger) meetup_start
    (meetup_start + 5)
  = (Scan.NotAssigned403, store_two_tickets).
Proof.
  apply (scanTicket_unassigned_staff store_two_tickets
           (entry_by_number stranger)
           (scanned_by gate_a meetup_start 1 (ticket_of alice env_1))
           (meetup_event 2 2)).
  - repeat split; vm_compute; reflexivity.
  - apply (bool_decide_unpack _). vm_compute. reflexivity.
Defined.

(** X2. An exit scan of a ticket that was never scanned is refused
    ('Cannot record exit for unscanned ticket') and nothing is written;
    the request is otherwise in order: assigned staff, active ticket,
    event not over. *)
Theorem scanTicket_exit_before_entry st req t event now saved :
  scan_resolves st req t event →
  Scan.action req = Scan.exit →
  Scan.staffId req ∈ Event.assignedStaff event →
  Ticket.status t = Ticket.active →
  now ≤ Event.endDateTime event →
  Ticket.isScanned (Ticket.verification t) = false →
  scanTicket st req now saved = (Scan.ExitUnscanned400, st).
Proof.
  intros (Hkey & Hfind & Hev) Hact Hstaff Hactive Hend Hscanned.
  unfold scanTicket.
  rewrite (scan_key_supplied _ Hkey), (resolved_castable _ _ _ Hfind).
  cbn [negb]. rewrite Hfind, Hev, Hact.
  rewrite !bool_decide_eq_true_2 by done. cbn [negb Scan.is_entry andb].
  destruct (Z.gtb_spec now (Event.endDateTime event)); [lia|].
  simpl. by rewrite Hscanned.
Qed.

Lemma scanTicket_exit_before_entry_witness :
  scanTicket store_two_tickets exit_of_bob meetup_start (meetup_start + 5)
  = (Scan.ExitUnscanned400, store_two_tickets).
Proof.
  apply (scanTicket_exit_before_entry store_two_tickets exit_of_bob
           (ticket_of bob env_2) (meetup_event 2 2)).
  - repeat split; vm_compute; reflexivity.
  - reflexivity.
  - apply (bool_decide_unpack _). vm_compute. reflexivity.
  - reflexivity.
  - vm_compute. discriminate.
  - reflexivity.
Defined.

(** X3. An exit scan of a scanned ticket is recorded at any time up to
    the end of the event, also before its start. In the stored ticket
    it writes [exitTime] and, with it, the [updatedAt] stamp of the
    save, and no other path (nothing at all when the exit time on
    record is that very instant already). It reports the scan count
    unchanged, and reports [isFirstScan] exactly when that count is 1. *)
Theorem scanTicket_exit_recorded st req t event attendee now saved :
  ids_unique (tickets st) →
  scan_resolves st req t event →
  Scan.action req = Scan.exit →
  Scan.staffId req ∈ Event.assignedStaff event →
  Ticket.status t = Ticket.active →
  now ≤ Event.endDateTime event →
  Ticket.isScanned (Ticket.verification t) = true →
  users st !! Ticket.attendeeId t = Some attendee →
  ∃ i d,
    tickets st !! i = Some t
    ∧ scanTicket st req now saved =
        (Scan.Recorded200 d,
         with_tickets
           (<[i := if decide (Ticket.exitTime (Ticket.verification t)
                              = Some now)
                   then t
                   else
                     Ticket.mk (Ticket._id t) (Ticket.eventId t)
                       (Ticket.attendeeId t) (Ticket.ticketNumber t)
                       (Ticket.qrCodeUrl t) (Ticket.qrCodeData t)
                       (Ticket.paymentId t) (Ticket.pricePaid t)
                       (Ticket.paymentStatus t) (Ticket.status t)
                       (Ticket.checkInStatus t) (Ticket.bookingDate t)
                       (Ticket.attendeeInfo t)
                       (Ticket.mkVerification
                          (Ticket.isScanned (Ticket.verification t))
                          (Ticket.scannedAt (Ticket.verification t))
                          (Ticket.scannedBy (Ticket.verification t))
                          (Ticket.entryTime (Ticket.verification t))
                          (Some now)
                          (Ticket.scanCount (Ticket.verification t)))
                       (Ticket.staffNotes t) (Ticket.createdAt t) saved
                       (Ticket.__v t)]>
              (tickets st)) st)
    ∧ Scan.verification d = Ticket.set_exitTime now (Ticket.verification t)
    ∧ Scan.scanCount d = Ticket.scanCount (Ticket.verification t)
    ∧ Scan.isFirstScan d
      = bool_decide (Ticket.scanCount (Ticket.verification t) = 1).
Proof.
  intros Hnd (Hkey & Hfind & Hev) Hact Hstaff Hactive Hend Hscanned Hu.
  apply Ticket_findOne_Some in Hfind as Hf. destruct Hf as (i & Hi & _).
  exists i. eexists. split; [done|].
  unfold scanTicket.
  rewrite (scan_key_supplied _ Hkey), (resolved_castable _ _ _ Hfind).
  cbn [negb]. rewrite Hfind, Hev, Hact.
  rewrite !bool_decide_eq_true_2 by done. cbn [negb Scan.is_entry andb].
  destruct (Z.gtb_spec now (Event.endDateTime event)); [lia|].
  assert (Scan.apply_action Scan.exit (Scan.staffId req) now
            (Ticket.verification t)
          = Some (Ticket.set_exitTime now (Ticket.verification t))) as ->
    by (simpl; by rewrite Hscanned).
  assert (Ticket.save_verification
            (Ticket.set_exitTime now (Ticket.verification t)) saved t
          = if decide (Ticket.exitTime (Ticket.verification t) = Some now)
            then t
            else Ticket.set_updatedAt saved
                   (Ticket.set_verification
                      (Ticket.set_exitTime now (Ticket.verification t)) t))
    as Hsave.
  { unfold Ticket.save_verification.
    destruct (decide (Ticket.exitTime _ = _)) as [He|He]; case_decide as Hv;
      try done.
    - destruct Hv. destruct (Ticket.verification t). simpl in *. by subst.
    - destruct He. by rewrite <- Hv. }
  rewrite Hsave.
  assert (Ticket._id
            (if decide (Ticket.exitTime (Ticket.verification t) = Some now)
             then t
             else Ticket.set_updatedAt saved
                    (Ticket.set_verification
                       (Ticket.set_exitTime now (Ticket.verification t)) t))
          = Ticket._id t) as Hid by (by case_decide).
  rewrite (Ticket_update_at _ i t) by done.
  cbn [users with_tickets]. rewrite Hu.
  split; [reflexivity|]. by repeat split.
Qed.

(** Alice, scanned once at the start, is checked out a day before the
    event starts: the exit is recorded and reported as a first scan,
    and her stored ticket carries the exit time and the stamp of the
    save. *)
Lemma scanTicket_exit_recorded_witness :
  ∃ d t',
    fst (scanTicket store_two_tickets (exit_by_number gate_b) day (day + 5))
    = Scan.Recorded200 d
    ∧ Ticket.exitTime (Scan.verification d) = Some day
    ∧ Scan.scanCount d = 1
    ∧ Scan.isFirstScan d = true
    ∧ tickets (snd (scanTicket store_two_tickets (exit_by_number gate_b) day
                      (day + 5))) !! 0%nat = Some t'
    ∧ Ticket.exitTime (Ticket.verification t') = Some day
    ∧ Ticket.updatedAt t' = day + 5.
Proof.
  destruct (scanTicket_exit_recorded store_two_tickets (exit_by_number gate_b)
              (scanned_by gate_a meetup_start 1 (ticket_of alice env_1))
              (meetup_event 2 2) (User.mk "Alice" "A" "alice@example.org") day
              (day + 5))
    as (i & d & Hi & Hscan & Hv & Hc & Hf).
  - apply (bool_decide_unpack _). vm_compute. reflexivity.
  - repeat split; vm_compute; reflexivity.
  - reflexivity.
  - apply (bool_decide_unpack _). vm_compute. reflexivity.
  - reflexivity.
  - vm_compute. discriminate.
  - reflexivity.
  - reflexivity.
  - assert (i = 0%nat) as ->.
    { destruct i as [|[|i]]; [done|by vm_compute in Hi|by vm_compute in Hi]. }
    exists d. eexists. rewrite Hscan, Hv, Hc, Hf.
    split; [done|]. split; [done|]. split; [done|]. split; [done|].
    split; [vm_compute; reflexivity|]. split; reflexivity.
Defined.

Lemma same_keys_save_verification v now t :
  same_keys t (Ticket.save_verification v now t)
  ∧ Ticket.status (Ticket.save_verification v now t) = Ticket.status t.
Proof. unfold Ticket.save_verification. by case_decide. Qed.

Lemma save_verification_id v now t :
  Ticket._id (Ticket.save_verification v now t) = Ticket._id t.
Proof. unfold Ticket.save_verification. by case_decide. Qed.

(** What a scan does to the database, whatever its response. *)
Lemma scanTicket_cases st req now saved :
  ids_unique (tickets st) →
  snd (scanTicket st req now saved) = st
  ∨ ∃ i t v,
      tickets st !! i = Some t
      ∧ scan_refused (fst (scanTicket st req now saved)) = false
      ∧ snd (scanTicket st req now saved)
        = with_tickets (<[i := Ticket.save_verification v saved t]> (tickets st))
            st.
Proof.
  intros Hnd. unfold scanTicket.
  destruct (negb _ && negb _); [by left|].
  destruct (negb (Scan.castable _)); [by left|].
  destruct (Ticket_findOne _ _) as [t|] eqn:Hfind; [|by left].
  apply Ticket_findOne_Some in Hfind as (i & Hi & _).
  destruct (events st !! Ticket.eventId t) as [event|]; [|by left].
  destruct (negb (bool_decide (_ ∈ _))); [by left|].
  destruct (negb (bool_decide (_ = Ticket.active))); [by left|].
  destruct (Scan.is_entry _ && _); [by left|].
  destruct (_ >? _); [by left|].
  destruct (Scan.apply_action _ _ _ _) as [v|]; [|by left].
  right. exists i, t, v.
  rewrite (Ticket_update_at _ i t) by (done || apply save_verification_id).
  split; [done|]. by destruct (users st !! _).
Qed.

Lemma scanTicket_refused_unchanged st req now saved :
  scan_refused (fst (scanTicket st req now saved)) = true →
  snd (scanTicket st req now saved) = st.
Proof.
  unfold scanTicket.
  destruct (negb _ && negb _); [done|].
  destruct (negb (Scan.castable _)); [done|].
  destruct (Ticket_findOne _ _) as [t|]; [|done].
  destruct (events st !! Ticket.eventId t) as [event|]; [|done].
  destruct (negb (bool_decide (_ ∈ _))); [done|].
  destruct (negb (bool_decide (_ = Ticket.active))); [done|].
  destruct (Scan.is_entry _ && _); [done|].
  destruct (_ >? _); [done|].
  destruct (Scan.apply_action _ _ _ _) as [v|]; [|done].
  by destruct (users st !! _).
Qed.

(** X4. A scan never touches events, payments or users, and a refused
    scan (any 400, 403 or 404) writes nothing at all. With distinct
    ticket [_id]s, whatever the response, every stored ticket stays in
    place; at most one of them is rewritten, and that one gets a new
    [verification] and, with it, the [updatedAt] stamp of the save, and
    keeps every other path. *)
Theorem scanTicket_frame st req now saved :
  events (snd (scanTicket st req now saved)) = events st
  ∧ payments (snd (scanTicket st req now saved)) = payments st
  ∧ users (snd (scanTicket st req now saved)) = users st
  ∧ (scan_refused (fst (scanTicket st req now saved)) = true →
     snd (scanTicket st req now saved) = st)
  ∧ (ids_unique (tickets st) →
     length (tickets (snd (scanTicket st req now saved))) = length (tickets st)
     ∧ ∃ j, ∀ i t, tickets st !! i = Some t →
         tickets (snd (scanTicket st req now saved)) !! i = Some t
         ∨ i = j
           ∧ ∃ v, v ≠ Ticket.verification t
                  ∧ tickets (snd (scanTicket st req now saved)) !! i
                    = Some
                        (Ticket.mk (Ticket._id t) (Ticket.eventId t)
                           (Ticket.attendeeId t) (Ticket.ticketNumber t)
                           (Ticket.qrCodeUrl t) (Ticket.qrCodeData t)
                           (Ticket.paymentId t) (Ticket.pricePaid t)
                           (Ticket.paymentStatus t) (Ticket.status t)
                           (Ticket.checkInStatus t) (Ticket.bookingDate t)
                           (Ticket.attendeeInfo t) v (Ticket.staffNotes t)
                           (Ticket.createdAt t) saved (Ticket.__v t))).
Proof.
  assert (∃ l, snd (scanTicket st req now saved) = with_tickets l st)
    as [l Hl].
  { unfold scanTicket.
    assert (st = with_tickets (tickets st) st) as Hst by (by destruct st).
    repeat match goal with
           | |- context [match ?x with _ => _ end] => destruct x
           end; eauto. }
  rewrite Hl. split; [done|]. split; [done|]. split; [done|].
  rewrite <- Hl. split; [apply scanTicket_refused_unchanged|].
  intros Hnd.
  destruct (scanTicket_cases st req now saved Hnd)
    as [->|(j & u & v & Hj & _ & ->)].
  - split; [done|]. exists 0%nat. intros i t Hi. by left.
  - cbn [tickets with_tickets]. split; [apply length_insert|].
    exists j. intros i t Hi. destruct (decide (i = j)) as [->|Hne].
    + rewrite list_lookup_insert_eq by (by eapply lookup_lt_Some).
      assert (u = t) as -> by congruence.
      unfold Ticket.save_verification. case_decide as Hv; [by left|].
      right. split; [done|]. by exists v.
    + left. by rewrite list_lookup_insert_ne.
Qed.

(** Gate B scans Alice's ticket again: Bob's ticket stays as it is, and
    Alice's gets its second scan and the stamp of the save. *)
Lemma scanTicket_frame_witness :
  tickets (snd (scanTicket store_two_tickets (entry_by_number gate_b)
                  meetup_start (meetup_start + 5))) !! 1%nat
  = Some (ticket_of bob env_2)
  ∧ Ticket.updatedAt
      <$> tickets (snd (scanTicket store_two_tickets (entry_by_number gate_b)
                          meetup_start (meetup_start + 5))) !! 0%nat
    = Some (meetup_start + 5)
  ∧ Ticket.updatedAt <$> tickets store_two_tickets !! 0%nat = Some (day + 2).
Proof.
  destruct (scanTicket_frame store_two_tickets (entry_by_number gate_b)
              meetup_start (meetup_start + 5)) as (_ & _ & _ & _ & Hframe).
  destruct Hframe as [_ [j Hj]].
  { apply (bool_decide_unpack _). vm_compute. reflexivity. }
  split; [|split; [|reflexivity]].
  - destruct (Hj 1%nat (ticket_of bob env_2) eq_refl)
      as [H1|[_ (v & _ & H1)]]; [exact H1|].
    exfalso. vm_compute in H1. discriminate H1.
  - destruct (Hj 0%nat (scanned_by gate_a meetup_start 1 (ticket_of alice env_1))
                eq_refl) as [H0|[_ (v & _ & H0)]].
    + exfalso. vm_compute in H0. discriminate H0.
    + rewrite H0. reflexivity.
Defined.

(** ** Every request, one effect *)

Lemma addTicketNote_cases trim st req env :
  ids_unique (tickets st) →
  snd (addTicketNote trim st req env) = st
  ∧ fst (addTicketNote trim st req env) ≠ Note.Added200
  ∨ ∃ i t event text,
      tickets st !! i = Some t
      ∧ Note.ticketId req = ObjectId (Ticket._id t)
      ∧ events st !! Ticket.eventId t = Some event
      ∧ Note.staffId req ∈ Event.assignedStaff event
      ∧ Note.note req = Text text
      ∧ trim text ≠ EmptyString
      ∧ addTicketNote trim st req env
        = (Note.Added200,
           with_tickets
             (<[i := Ticket.push_note
                       (Ticket.mkNote (Note.noteId env) (Note.staffId req)
                          (trim text) (Note.now env))
                       (Note.savedAt env) t]>
                (tickets st)) st).
Proof.
  intros Hnd. unfold addTicketNote.
  destruct (Note.note req) as [|text|[|]] eqn:Hnote; [by left| |by left..].
  destruct (negb (truthy (Some text))) eqn:Htruthy; [by left|]. cbn [orb].
  destruct (Nat.eqb_spec (String.length (trim text)) 0) as [|Hlen];
    [by left|].
  destruct (Note.ticketId req) as [id|] eqn:Hid'; [|by left].
  unfold Ticket_findById.
  destruct (Ticket_findOne _ _) as [t|] eqn:Hfind; [|by left].
  apply Ticket_findOne_Some in Hfind as (i & Hi & Hid & _).
  apply bool_decide_eq_true in Hid. subst id.
  destruct (events st !! Ticket.eventId t) as [event|] eqn:Hev; [|by left].
  case_bool_decide as Hstaff; [|by left]. cbn [negb].
  right. exists i, t, event, text. rewrite (Ticket_update_at _ i t) by done.
  repeat split; try done. intros Hempty. rewrite Hempty in Hlen. done.
Qed.

Lemma deleteEvent_cases st eventId hostId :
  snd (deleteEvent st eventId hostId) = st
  ∧ fst (deleteEvent st eventId hostId) ≠ Delete.Deleted200
  ∨ ∃ e event,
      eventId = ObjectId e
      ∧ events st !! e = Some event
      ∧ Event.host event = hostId
      ∧ tickets_of_event e (tickets st) = []
      ∧ deleteEvent st eventId hostId
        = (Delete.Deleted200, with_events (delete e (events st)) st).
Proof.
  unfold deleteEvent. destruct eventId as [e|]; [|by left].
  destruct (events st !! e) as [event|] eqn:Hev; [|by left].
  case_bool_decide as Hhost; [|by left]. cbn [negb].
  destruct (tickets_of_event e (tickets st)) as [|t l] eqn:Hnone;
    [|by left].
  right. by exists e, event.
Qed.

Lemma same_keys_push_note n now t : same_keys t (Ticket.push_note n now t).
Proof. by repeat split. Qed.

Lemma with_tickets_same st : with_tickets (tickets st) st = st.
Proof. by destruct st. Qed.

Lemma cancelTicket_effect st req env :
  ids_unique (tickets st) → effect st (Cancel.store (cancelTicket st req env)).
Proof.
  intros Hnd. unfold cancelTicket.
  destruct (Cancel.ticketId req) as [id|]; [|constructor].
  destruct (Ticket_findOne _ _) as [t|] eqn:Hfind; [|constructor].
  apply Ticket_findOne_Some in Hfind as (i & Hi & Hf & _).
  apply andb_true_iff in Hf as [_ Hact]. apply bool_decide_eq_true in Hact.
  destruct (events st !! Ticket.eventId t) as [event|] eqn:Hev; [|constructor].
  destruct (Qltb (Cancel.hoursUntilEvent _ _) 24); [constructor|].
  cbn [Cancel.store]. rewrite (Ticket_update_at _ i t) by done.
  apply (effect_cancel st i t event (Cancel.savedAt env) (Cancel.countedAt env));
    try done; destruct (Qltb 0 (Ticket.pricePaid t)); done.
Qed.

(** With distinct ticket [_id]s, whatever request is served changes the
    database in one of the five ways of [effect]. *)
Lemma serve_effect trim st c :
  ids_unique (tickets st) → effect st (serve trim st c).
Proof.
  intros Hnd. destruct c as [req env|req env|req now saved|req env|e h]; simpl.
  - destruct (bookTicket_cases st req env)
      as [[-> _]|(e & event & _ & Hev & _ & _ & Hcap & _ & Hdup & Hfresh & ->)];
      [constructor|].
    apply (effect_issue st (Book.new_ticket e req env) event); try done.
    intros u Hu [= He Ha].
    by apply (proj2 (existing_filter_None _ _ _) Hdup u Hu).
  - by apply cancelTicket_effect.
  - destruct (scanTicket_cases st req now saved Hnd)
      as [->|(i & t & v & Hi & _ & ->)]; [constructor|].
    destruct (same_keys_save_verification v saved t).
    by apply (effect_touch st i t).
  - destruct (addTicketNote_cases trim st req env Hnd)
      as [[-> _]|(i & t & event & text & Hi & _ & _ & _ & _ & _ & ->)];
      [constructor|].
    apply (effect_touch st i t); [done|apply same_keys_push_note|done].
  - destruct (deleteEvent_cases st e h)
      as [[-> _]|(e' & event & _ & _ & _ & Hnone & ->)]; [constructor|].
    by apply effect_delete.
Qed.

(** ** Invariants of the database *)

Lemma active_of_same_keys e t t' :
  same_keys t t' → Ticket.status t' = Ticket.status t →
  active_of e t' = active_of e t.
Proof.
  intros (_ & He & _) Hst. unfold active_of. by rewrite He, Hst.
Qed.

Lemma tickets_of_event_nil e l t :
  tickets_of_event e l = [] → t ∈ l → Ticket.eventId t ≠ e.
Proof.
  intros Hnil Ht He.
  assert (t ∈ tickets_of_event e l) as Hin by (by apply list_elem_of_filter).
  rewrite Hnil in Hin. inversion Hin.
Qed.

Lemma active_count_none e l :
  tickets_of_event e l = [] → active_count e l = 0.
Proof.
  intros Hnil. unfold active_count.
  destruct (filter (λ t, active_of e t = true) l) as [|t l'] eqn:Hf; [done|].
  assert (t ∈ filter (λ t, active_of e t = true) l) as Hin
    by (rewrite Hf; left).
  apply list_elem_of_filter in Hin as [Hact Ht].
  destruct (tickets_of_event_nil e l t Hnil Ht).
  unfold active_of in Hact. apply andb_true_iff in Hact as [He _].
  by apply bool_decide_eq_true in He.
Qed.

Lemma effect_ids_unique st st' :
  effect st st' → ids_unique (tickets st) → ids_unique (tickets st').
Proof.
  intros [|t event now Hev Hcap Hfresh _ _ _ _
          |i t event saved now st2 Hi _ _ Htk _ _ _
          |i t t' Hi (Hid & _) _|e Hnone] Hnd; cbn [tickets with_tickets
            with_events Event_inc]; try done.
  - by apply ids_unique_snoc.
  - rewrite Htk. by eapply ids_unique_insert.
  - by eapply ids_unique_insert.
Qed.

Lemma effect_store_exact st st' :
  effect st st' → store_exact st → store_exact st'.
Proof.
  intros Heff [Hnd Hcnt]. split; [by eapply effect_ids_unique|].
  destruct Heff as [|t event now Hev Hcap Hfresh _ Hact _ _
                   |i t event saved now st2 Hi Hact Hev Htk Hevs _ _
                   |i t t' Hi Hkeys Hst|e Hnone];
    cbn [tickets events with_tickets with_events Event_inc]; try done.
  - intros e ev'. rewrite lookup_alter, active_count_snoc.
    unfold active_of. rewrite Hact, (bool_decide_eq_true_2 (_ = Ticket.active))
      by done. rewrite andb_true_r.
    case_decide as He.
    + subst e. rewrite Hev, bool_decide_eq_true_2 by done.
      intros [= <-]. simpl. destruct (Hcnt _ _ Hev). lia.
    + intros Hev'. rewrite bool_decide_eq_false_2 by done.
      destruct (Hcnt _ _ Hev'). lia.
  - intros e ev'.
    rewrite Htk, Hevs, lookup_alter, (active_count_insert _ _ _ t) by done.
    assert (active_of e
              (Ticket.set_updatedAt saved
                 (Ticket.set_status Ticket.cancelled t)) = false) as ->.
    { unfold active_of. simpl. apply andb_false_r. }
    unfold active_of. rewrite Hact, (bool_decide_eq_true_2 (_ = Ticket.active))
      by done. rewrite andb_true_r.
    case_decide as He.
    + subst e. rewrite Hev, bool_decide_eq_true_2 by done.
      intros [= <-]. simpl. destruct (Hcnt _ _ Hev). lia.
    + intros Hev'. rewrite bool_decide_eq_false_2 by done.
      destruct (Hcnt _ _ Hev'). lia.
  - intros e ev' Hev'. rewrite (active_count_insert _ _ _ t) by done.
    rewrite (active_of_same_keys e t t') by done.
    destruct (Hcnt _ _ Hev'). destruct (active_of e t); lia.
  - intros e' ev'. rewrite lookup_delete. case_decide; [done|]. apply Hcnt.
Qed.

Lemma is_Some_lookup_alter {A} (f : A → A) (m : gmap Id A) i j :
  is_Some (alter f i m !! j) ↔ is_Some (m !! j).
Proof.
  rewrite lookup_alter. case_decide; [subst; by rewrite fmap_is_Some|done].
Qed.


Lemma NoDup_fmap_insert_same {A B} (f : A → B) (l : list A) i x y :
  l !! i = Some x → f y = f x → NoDup (f <$> l) → NoDup (f <$> <[i := y]> l).
Proof.
  intros Hi Hf Hnd. rewrite list_fmap_insert, Hf, list_insert_id; [done|].
  by rewrite list_lookup_fmap, Hi.
Qed.

Lemma NoDup_fmap_snoc {A B} (f : A → B) (l : list A) x :
  NoDup (f <$> l) → (∀ u, u ∈ l → f u ≠ f x) → NoDup (f <$> (l ++ [x])).
Proof.
  intros Hnd Hfresh. rewrite fmap_app. apply NoDup_app. split; [done|]. split.
  - intros y Hy Hy'. apply list_elem_of_singleton in Hy' as ->.
    apply list_elem_of_fmap in Hy as (u & Hf & Hu). by apply (Hfresh u Hu).
  - apply NoDup_singleton.
Qed.

Lemma index_clash_false_url a b :
  index_clash a b = false → Ticket.qrCodeUrl a ≠ Ticket.qrCodeUrl b.
Proof.
  unfold index_clash. intros H.
  repeat (apply orb_false_iff in H as [H ?]).
  match goal with
  | Hu : bool_decide (Ticket.qrCodeUrl a = _) = false |- _ =>
      by apply bool_decide_eq_false in Hu
  end.
Qed.

Lemma effect_indexes_hold st st' :
  effect st st' → indexes_hold (tickets st) → indexes_hold (tickets st').
Proof.
  unfold indexes_hold, ids_unique.
  intros [|t event now _ _ Hfresh _ _ _ _
          |i t event saved now st2 Hi _ _ Htk _ _ _
          |i t t' Hi (Hid & He & Ha & Hn & Hu & Hd & _) _|e Hnone]
         (H1 & H2 & H3 & H4);
    cbn [tickets with_tickets with_events Event_inc]; try done.
  - repeat split; apply NoDup_fmap_snoc; try done; intros u Hin;
      pose proof (index_clash_false _ _ (Hfresh u Hin)) as (? & ? & ? & ?);
      pose proof (index_clash_false_url _ _ (Hfresh u Hin)); congruence.
  - rewrite Htk.
    repeat split; by apply (NoDup_fmap_insert_same _ _ _ t).
  - repeat split; by apply (NoDup_fmap_insert_same _ _ _ t).
Qed.

Lemma effect_all_free st st' :
  effect st st' → all_free (tickets st) →
  all_free (tickets st') ∧ payments st' = payments st.
Proof.
  unfold all_free.
  intros [|t event now _ _ _ _ _ Hp _
          |i t event saved now st2 Hi _ _ Htk _ _ Hpay
          |i t t' Hi (_ & _ & _ & _ & _ & _ & Hp & _) _|e Hnone] Hfree;
    cbn [tickets payments with_tickets with_events Event_inc]; try done.
  - split; [|done]. apply Forall_app. split; [done|].
    apply Forall_singleton. by rewrite Hp.
  - pose proof (Forall_lookup_1 _ _ _ _ Hfree Hi) as Ht.
    split.
    + rewrite Htk. by apply Forall_insert.
    + apply Hpay. unfold Qltb. apply negb_false_iff, Qle_bool_iff.
      rewrite Ht. apply Qle_refl.
  - pose proof (Forall_lookup_1 _ _ _ _ Hfree Hi) as Ht.
    split; [|done]. apply Forall_insert; [done|]. by rewrite Hp.
Qed.

Lemma one_ticket_each_insert l i t t' :
  l !! i = Some t →
  pair_of t' = pair_of t →
  (Ticket.status t' ≠ Ticket.cancelled → Ticket.status t ≠ Ticket.cancelled) →
  one_ticket_each l → one_ticket_each (<[i := t']> l).
Proof.
  intros Hi Hpair Hst Heach.
  assert (∀ a x, <[i := t']> l !! a = Some x →
            ∃ x0, l !! a = Some x0 ∧ pair_of x0 = pair_of x
                  ∧ (Ticket.status x ≠ Ticket.cancelled →
                     Ticket.status x0 ≠ Ticket.cancelled)) as Hback.
  { intros a x Ha. destruct (decide (a = i)) as [->|Hne].
    - rewrite list_lookup_insert_eq in Ha by (by eapply lookup_lt_Some).
      injection Ha as <-. by exists t.
    - rewrite list_lookup_insert_ne in Ha by done. by exists x. }
  intros a b x y Ha Hb Hxy Hx Hy.
  destruct (Hback a x Ha) as (x0 & Ha0 & Hpx & Hsx).
  destruct (Hback b y Hb) as (y0 & Hb0 & Hpy & Hsy).
  apply (Heach a b x0 y0 Ha0 Hb0); [congruence|auto..].
Qed.

Lemma one_ticket_each_snoc l t :
  (∀ u, u ∈ l → pair_of u = pair_of t → Ticket.status u = Ticket.cancelled) →
  one_ticket_each l → one_ticket_each (l ++ [t]).
Proof.
  intros Hnone Heach a b x y Ha Hb Hxy Hx Hy.
  apply lookup_snoc_Some in Ha as [[Hla Ha]|[-> <-]];
    apply lookup_snoc_Some in Hb as [[Hlb Hb]|[-> <-]].
  - by apply (Heach a b x y).
  - destruct Hx. apply Hnone; [by eapply list_elem_of_lookup_2|done].
  - destruct Hy. apply Hnone; [by eapply list_elem_of_lookup_2|done].
  - done.
Qed.

Lemma effect_one_ticket_each st st' :
  effect st st' → one_ticket_each (tickets st) → one_ticket_each (tickets st').
Proof.
  intros [|t event now _ _ _ Hpair _ _ _
          |i t event saved now st2 Hi _ _ Htk _ _ _
          |i t t' Hi (_ & He & Ha & _) Hst|e Hnone] Heach;
    cbn [tickets with_tickets with_events Event_inc]; try done.
  - by apply one_ticket_each_snoc.
  - rewrite Htk. by apply (one_ticket_each_insert _ _ t).
  - apply (one_ticket_each_insert _ _ t); [done| |by rewrite Hst|done].
    unfold pair_of. by rewrite He, Ha.
Qed.

Section sequences.
Variable trim : string → string.

Lemma serve_all_ids_unique calls st :
  ids_unique (tickets st) → ids_unique (tickets (serve_all trim calls st)).
Proof.
  revert st. induction calls as [|c calls IH]; intros st Hnd; [done|].
  apply IH. eapply effect_ids_unique; [by apply serve_effect|done].
Qed.

Lemma serve_all_store_exact calls st :
  store_exact st → store_exact (serve_all trim calls st).
Proof.
  revert st. induction calls as [|c calls IH]; intros st Hok; [done|].
  apply IH. eapply effect_store_exact; [|done]. apply serve_effect, Hok.
Qed.


Lemma serve_all_indexes_hold calls st :
  indexes_hold (tickets st) → indexes_hold (tickets (serve_all trim calls st)).
Proof.
  revert st. induction calls as [|c calls IH]; intros st Hix; [done|].
  apply IH. eapply effect_indexes_hold; [|done]. apply serve_effect, Hix.
Qed.

Lemma serve_all_one_ticket_each calls st :
  ids_unique (tickets st) → one_ticket_each (tickets st) →
  one_ticket_each (tickets (serve_all trim calls st)).
Proof.
  revert st. induction calls as [|c calls IH]; intros st Hnd Heach; [done|].
  apply IH.
  - eapply effect_ids_unique; [by apply serve_effect|done].
  - eapply effect_one_ticket_each; [by apply serve_effect|done].
Qed.

Lemma serve_all_all_free calls st :
  ids_unique (tickets st) → all_free (tickets st) →
  all_free (tickets (serve_all trim calls st))
  ∧ payments (serve_all trim calls st) = payments st.
Proof.
  revert st. induction calls as [|c calls IH]; intros st Hnd Hfree; [done|].
  destruct (effect_all_free st (serve trim st c)) as [Hfree' Hpay];
    [by apply serve_effect|done|].
  destruct (IH (serve trim st c)) as [? ?]; [|done|].
  - eapply effect_ids_unique; [by apply serve_effect|done].
  - split; [done|]. simpl. congruence.
Qed.
End sequences.

(** X5. Served in any order and number, bookings, cancellations, scans,
    staff notes and event deletions keep the counters exact: in a
    database where the counter of every event is the number of its
    active tickets, within the capacity, it is so afterwards as well. *)
Theorem counters_stay_exact trim st calls :
  store_exact st →
  ∀ e event, events (serve_all trim calls st) !! e = Some event →
    Event.ticketsSold event = active_count e (tickets (serve_all trim calls st))
    ∧ 0 ≤ Event.ticketsSold event ≤ Event.capacity event.
Proof.
  intros Hok e event Hev.
  destruct (serve_all_store_exact trim calls st Hok) as [_ Hcnt].
  destruct (Hcnt e event Hev) as [Heq Hcap].
  pose proof (active_count_nonneg e (tickets (serve_all trim calls st))).
  split; [done|lia].
Qed.

Lemma counters_stay_exact_witness :
  store_exact empty_store
  ∧ ∀ e event,
      events (serve_all trim_ascii sample_calls empty_store) !! e = Some event →
      Event.ticketsSold event
      = active_count e (tickets (serve_all trim_ascii sample_calls empty_store))
      ∧ 0 ≤ Event.ticketsSold event ≤ Event.capacity event.
Proof.
  assert (store_exact empty_store) as Hok.
  { apply (bool_decide_unpack _). vm_compute. reflexivity. }
  split; [exact Hok|].
  apply (counters_stay_exact trim_ascii empty_store sample_calls Hok).
Defined.






(** X7. The unique indexes of the tickets collection survive every
    request, and so does the rule that the duplicate check of
    [bookTicket] keeps when requests are served one after the other: no
    attendee holds two tickets that are not cancelled for one event.
    So a ticket number or QR code datum names at most one ticket at any
    time, and an event and an attendee at most one ticket that is not
    cancelled. *)
Theorem one_ticket_per_event_and_attendee trim st calls :
  indexes_hold (tickets st) →
  one_ticket_each (tickets st) →
  indexes_hold (tickets (serve_all trim calls st))
  ∧ ∀ t u,
      t ∈ tickets (serve_all trim calls st) →
      u ∈ tickets (serve_all trim calls st) →
      Ticket.eventId t = Ticket.eventId u
      ∧ Ticket.attendeeId t = Ticket.attendeeId u
      ∧ Ticket.status t ≠ Ticket.cancelled
      ∧ Ticket.status u ≠ Ticket.cancelled
      ∨ Ticket.ticketNumber t = Ticket.ticketNumber u
      ∨ Ticket.qrCodeData t = Ticket.qrCodeData u →
      t = u.
Proof.
  intros Hix Heach.
  pose proof (serve_all_indexes_hold trim calls st Hix) as (H1 & H2 & H3 & H4).
  pose proof (serve_all_one_ticket_each trim calls st (proj1 Hix) Heach)
    as Heach'.
  split; [done|]. intros t u Ht Hu Hsame.
  apply list_elem_of_lookup in Ht as [i Hi].
  apply list_elem_of_lookup in Hu as [j Hj].
  assert (i = j) as ->; [|congruence].
  destruct Hsame as [(He & Ha & Hlt & Hlu)|[Hn|Hd]].
  - apply (Heach' i j t u Hi Hj); [|done..]. unfold pair_of. congruence.
  - eapply (NoDup_lookup _ i j (Ticket.ticketNumber t) H2);
      rewrite list_lookup_fmap, ?Hi, ?Hj; simpl; congruence.
  - eapply (NoDup_lookup _ i j (Ticket.qrCodeData t) H4);
      rewrite list_lookup_fmap, ?Hi, ?Hj; simpl; congruence.
Qed.

(** After the sample requests the indexes hold, and Alice holds one
    ticket that is not cancelled for the meetup. *)
Lemma one_ticket_per_event_and_attendee_witness :
  indexes_hold (tickets (serve_all trim_ascii sample_calls empty_store))
  ∧ ∀ t u,
      t ∈ tickets (serve_all trim_ascii sample_calls empty_store) →
      u ∈ tickets (serve_all trim_ascii sample_calls empty_store) →
      pair_of t = (meetup, alice) → pair_of u = (meetup, alice) →
      Ticket.status t ≠ Ticket.cancelled →
      Ticket.status u ≠ Ticket.cancelled →
      t = u.
Proof.
  destruct (one_ticket_per_event_and_attendee trim_ascii empty_store
              sample_calls) as [Hix Hone].
  - apply (bool_decide_unpack _). vm_compute. reflexivity.
  - intros i j t u Hi. inversion Hi.
  - split; [exact Hix|]. intros t u Ht Hu [= He Ha] [= He' Ha'] Hlt Hlu.
    apply (Hone t u Ht Hu). left. repeat split; congruence.
Defined.

(** X8. The handlers issue free tickets only (paid events are sent to
    the payment step, which stores nothing). In a database without paid
    tickets, whatever requests are served, no ticket has a price, the
    payments collection is never written, and every successful
    cancellation refunds 0. *)
Theorem only_free_tickets trim st calls :
  ids_unique (tickets st) →
  all_free (tickets st) →
  all_free (tickets (serve_all trim calls st))
  ∧ payments (serve_all trim calls st) = payments st
  ∧ ∀ req env refund,
      Cancel.response (cancelTicket (serve_all trim calls st) req env)
      = Cancel.Cancelled200 refund →
      (refund == 0)%Q.
Proof.
  intros Hnd Hfree.
  destruct (serve_all_all_free trim calls st Hnd Hfree) as [Hfree' Hpay].
  split; [done|]. split; [done|]. intros req env refund Hresp.
  destruct (cancelTicket_cases (serve_all trim calls st) req env)
    as [(_ & Hfail & _)
       |(t & event & i & _ & _ & Hi & _ & _ & _ & _ & Hr & _)].
  - by rewrite Hresp in Hfail.
  - rewrite Hresp in Hr. injection Hr as ->.
    apply (Forall_lookup_1 _ _ _ _ Hfree' Hi).
Qed.

Lemma only_free_tickets_witness :
  all_free (tickets (serve_all trim_ascii sample_calls empty_store))
  ∧ payments (serve_all trim_ascii sample_calls empty_store) = [].
Proof.
  destruct (only_free_tickets trim_ascii empty_store sample_calls)
    as (Hfree & Hpay & _).
  - apply NoDup_nil_2.
  - apply Forall_nil_2.
  - split; [exact Hfree|exact Hpay].
Defined.

(** ** A cancelled ticket *)

(** After a successful cancellation the ticket is stored as cancelled,
    under the only document with its [_id]. *)
Lemma cancelled_after_cancel st req env :
  ids_unique (tickets st) →
  Cancel.success (Cancel.response (cancelTicket st req env)) = true →
  ids_unique (tickets (Cancel.store (cancelTicket st req env)))
  ∧ ∀ u, u ∈ tickets (Cancel.store (cancelTicket st req env)) →
         Cancel.ticketId req = ObjectId (Ticket._id u) →
         Ticket.status u = Ticket.cancelled.
Proof.
  intros Hnd Hsucc.
  destruct (cancelTicket_cases st req env)
    as [(_ & Hfail & _)|(t & event & i & Hid & _ & Hi & _ & _ & _ & _ & _
                         & Htk & _)]; [congruence|].
  rewrite (Ticket_update_at _ i t) in Htk by done. rewrite Htk.
  split; [by eapply ids_unique_insert|].
  intros u Hu Hidu. apply list_elem_of_lookup in Hu as [j Hj].
  destruct (decide (j = i)) as [->|Hne].
  - rewrite list_lookup_insert_eq in Hj by (by eapply lookup_lt_Some).
    by injection Hj as <-.
  - rewrite list_lookup_insert_ne in Hj by done.
    destruct Hne. eapply (NoDup_lookup _ j i (Ticket._id t) Hnd).
    + rewrite list_lookup_fmap, Hj. simpl. congruence.
    + by rewrite list_lookup_fmap, Hi.
Qed.

(** X9. A ticket is cancelled at most once: after a successful
    cancellation, every further cancellation request for the same
    ticket, from anyone and at any time, is answered 404 and changes
    nothing; the counter of the event is not lowered again. *)
Theorem cancelTicket_only_once st req env req' env' :
  ids_unique (tickets st) →
  Cancel.success (Cancel.response (cancelTicket st req env)) = true →
  Cancel.ticketId req' = Cancel.ticketId req →
  cancelTicket (Cancel.store (cancelTicket st req env)) req' env'
  = Cancel.mkOutcome Cancel.NotFound404
      (Cancel.store (cancelTicket st req env)) None.
Proof.
  intros Hnd Hsucc Hid.
  destruct (cancelled_after_cancel st req env Hnd Hsucc) as [_ Hcancelled].
  assert (∃ id, Cancel.ticketId req = ObjectId id) as [id Hreq].
  { destruct (cancelTicket_cases st req env)
      as [(_ & Hfail & _)|(t & _ & _ & Hreq & _)]; [congruence|eauto]. }
  unfold cancelTicket at 1. rewrite Hid, Hreq.
  assert (Ticket_findOne (Cancel.ticket_filter id (Cancel.attendeeId req'))
            (tickets (Cancel.store (cancelTicket st req env))) = None) as ->;
    [|done].
  apply Ticket_findOne_None. intros u Hu. unfold Cancel.ticket_filter.
  destruct (decide (Ticket._id u = id)) as [Hu'|Hu'];
    [|by rewrite (bool_decide_eq_false_2 _ Hu')].
  rewrite (Hcancelled u Hu) by congruence. apply andb_false_r.
Qed.

Lemma cancelTicket_only_once_witness :
  Cancel.response
    (cancelTicket
       (Cancel.store (cancelTicket store_two_tickets cancel_by_alice
                        (cancel_env (2 * day))))
       cancel_by_alice (cancel_env (3 * day)))
  = Cancel.NotFound404.
Proof.
  rewrite (cancelTicket_only_once store_two_tickets cancel_by_alice
             (cancel_env (2 * day)) cancel_by_alice (cancel_env (3 * day)));
    [reflexivity| |reflexivity|reflexivity].
  apply (bool_decide_unpack _). vm_compute. reflexivity.
Defined.

(** X10. After a successful cancellation the ticket can no longer be
    downloaded by anyone (404), and a scan request that resolves to it
    is refused as inactive even for staff assigned to the event. *)
Theorem cancelled_ticket_is_dead st req env :
  ids_unique (tickets st) →
  Cancel.success (Cancel.response (cancelTicket st req env)) = true →
  (∀ attendeeId,
     downloadTicket (Cancel.store (cancelTicket st req env))
       (Cancel.ticketId req) attendeeId = Download.NotFound404)
  ∧ (∀ sreq t event now saved,
       scan_resolves (Cancel.store (cancelTicket st req env)) sreq t event →
       Cancel.ticketId req = ObjectId (Ticket._id t) →
       Scan.staffId sreq ∈ Event.assignedStaff event →
       scanTicket (Cancel.store (cancelTicket st req env)) sreq now saved
       = (Scan.Inactive400 Ticket.cancelled,
          Cancel.store (cancelTicket st req env))).
Proof.
  intros Hnd Hsucc.
  destruct (cancelled_after_cancel st req env Hnd Hsucc) as [_ Hcancelled].
  split.
  - intros a. unfold downloadTicket.
    destruct (Cancel.ticketId req) as [id|] eqn:Hreq.
    2:{ destruct (cancelTicket_cases st req env)
          as [(_ & Hfail & _)|(t & _ & _ & Hreq' & _)]; congruence. }
    assert (Ticket_findOne (Download.ticket_filter id a)
              (tickets (Cancel.store (cancelTicket st req env))) = None) as ->;
      [|done].
    apply Ticket_findOne_None. intros u Hu. unfold Download.ticket_filter.
    destruct (decide (Ticket._id u = id)) as [Hu'|Hu'];
      [|by rewrite (bool_decide_eq_false_2 _ Hu')].
    rewrite (Hcancelled u Hu) by congruence. apply andb_false_r.
  - intros sreq t event now saved (Hkey & Hfind & Hev) Hid Hstaff.
    assert (Ticket.status t = Ticket.cancelled) as Hst.
    { apply Ticket_findOne_Some in Hfind as Hf. destruct Hf as (i & Hi & _).
      apply Hcancelled; [by eapply list_elem_of_lookup_2|done]. }
    unfold scanTicket.
    rewrite (scan_key_supplied _ Hkey), (resolved_castable _ _ _ Hfind).
    cbn [negb]. rewrite Hfind, Hev, Hst.
    by rewrite bool_decide_eq_true_2.
Qed.

Lemma cancelled_ticket_is_dead_witness :
  downloadTicket
    (Cancel.store (cancelTicket store_two_tickets cancel_by_alice
                     (cancel_env (2 * day)))) (ObjectId 101%N) alice
  = Download.NotFound404.
Proof.
  destruct (cancelled_ticket_is_dead store_two_tickets cancel_by_alice
              (cancel_env (2 * day))) as [Hdown _].
  - apply (bool_decide_unpack _). vm_compute. reflexivity.
  - reflexivity.
  - apply (Hdown alice).
Defined.



(** ** Downloading a ticket *)

(** X12. With distinct ticket [_id]s, a download is served exactly for a
    ticket of the requester that is active or used and whose event and
    attendee are on record; it then carries the number, QR code, price
    and status of that ticket. Under an id that is an ObjectId and names
    no such ticket (unknown [_id], another owner, cancelled or expired)
    the answer is 404; under an id that is no ObjectId the lookup throws
    and the answer is 500. *)
Theorem downloadTicket_serves_own_valid_tickets st ticketId attendeeId :
  ids_unique (tickets st) →
  (∀ d, downloadTicket st ticketId attendeeId = Download.Ok200 d →
        ∃ t, t ∈ tickets st
             ∧ ticketId = ObjectId (Ticket._id t)
             ∧ Ticket.attendeeId t = attendeeId
             ∧ (Ticket.status t = Ticket.active ∨ Ticket.status t = Ticket.used)
             ∧ Download.ticketNumber d = Ticket.ticketNumber t
             ∧ Download.qrCodeUrl d = Ticket.qrCodeUrl t
             ∧ Download.pricePaid d = Ticket.pricePaid t
             ∧ Download.status d = Ticket.status t)
  ∧ (∀ t, t ∈ tickets st →
          ticketId = ObjectId (Ticket._id t) →
          Ticket.attendeeId t = attendeeId →
          Ticket.status t = Ticket.active ∨ Ticket.status t = Ticket.used →
          is_Some (events st !! Ticket.eventId t) →
          is_Some (users st !! Ticket.attendeeId t) →
          ∃ d, downloadTicket st ticketId attendeeId = Download.Ok200 d)
  ∧ (downloadTicket st ticketId attendeeId = Download.NotFound404
     ↔ ticketId ≠ Malformed
       ∧ ∀ t, t ∈ tickets st →
              ticketId = ObjectId (Ticket._id t) →
              Ticket.attendeeId t = attendeeId →
              Ticket.status t = Ticket.cancelled
              ∨ Ticket.status t = Ticket.expired)
  ∧ (ticketId = Malformed →
     downloadTicket st ticketId attendeeId = Download.ServerError500).
Proof.
  intros Hnd.
  destruct ticketId as [ticketId|].
  2:{ split; [done|]. split; [done|]. split; [|done].
      split; [done|]. by intros [? _]. }
  assert (∀ t, Download.ticket_filter ticketId attendeeId t = true
               ↔ Ticket._id t = ticketId ∧ Ticket.attendeeId t = attendeeId
                 ∧ (Ticket.status t = Ticket.active
                    ∨ Ticket.status t = Ticket.used)) as Hfilter.
  { intros t. unfold Download.ticket_filter.
    rewrite !andb_true_iff, orb_true_iff, !bool_decide_eq_true. tauto. }
  split; [|split; [|split; [|done]]].
  - intros d. unfold downloadTicket.
    destruct (Ticket_findOne _ _) as [t|] eqn:Hfind; [|done].
    apply Ticket_findOne_Some in Hfind as (i & Hi & Hf & _).
    apply Hfilter in Hf as (Hid & Ha & Hst).
    destruct (events st !! Ticket.eventId t),
      (users st !! Ticket.attendeeId t); try done.
    intros [= <-]. exists t. simpl.
    split; [by eapply list_elem_of_lookup_2|]. by rewrite Hid.
  - intros t Ht [= Hid] Ha Hst [event Hev] [attendee Hu].
    unfold downloadTicket.
    assert (Ticket_findOne (Download.ticket_filter ticketId attendeeId)
              (tickets st) = Some t) as ->.
    { apply list_elem_of_lookup in Ht as [i Hi].
      apply (Ticket_findOne_first _ _ i); [done|by apply Hfilter|].
      intros j u Hj Hlt Hf. apply Hfilter in Hf as (Hidu & _).
      assert (j = i); [|lia].
      eapply (NoDup_lookup _ j i (Ticket._id t) Hnd).
      - rewrite list_lookup_fmap, Hj. simpl. congruence.
      - by rewrite list_lookup_fmap, Hi. }
    rewrite Hev, Hu. by eexists.
  - unfold downloadTicket.
    destruct (Ticket_findOne _ _) as [t|] eqn:Hfind.
    + apply Ticket_findOne_Some in Hfind as (i & Hi & Hf & _).
      apply Hfilter in Hf as (Hid & Ha & Hst).
      split; [by destruct (events st !! Ticket.eventId t),
                 (users st !! Ticket.attendeeId t)|].
      intros [_ Hall]. apply list_elem_of_lookup_2 in Hi.
      destruct (Hall t Hi) as [?|?]; [by rewrite Hid|done|..];
        destruct Hst; congruence.
    + split; [|done]. intros _. split; [done|]. intros t Ht [= Hid] Ha.
      pose proof (proj1 (Ticket_findOne_None _ _) Hfind t Ht) as Hf.
      destruct (Ticket.status t) eqn:Hst; auto;
        exfalso; apply not_true_iff_false in Hf; apply Hf, Hfilter;
        rewrite Hst; auto.
Qed.

(** Bob downloads his ticket; under an id that is no ObjectId he is
    answered 500. *)
Lemma downloadTicket_serves_own_valid_tickets_witness :
  (∃ d, downloadTicket store_two_tickets (ObjectId 102%N) bob = Download.Ok200 d
        ∧ Download.ticketNumber d = "TCK2")
  ∧ downloadTicket store_two_tickets Malformed bob = Download.ServerError500.
Proof.
  split.
  - destruct (downloadTicket_serves_own_valid_tickets store_two_tickets
                (ObjectId 102%N) bob) as (Hdata & Hserve & _).
    + apply (bool_decide_unpack _). vm_compute. reflexivity.
    + destruct (Hserve (ticket_of bob env_2)) as [d Hd].
      * apply elem_of_cons. right. apply list_elem_of_singleton. reflexivity.
      * reflexivity.
      * reflexivity.
      * by left.
      * vm_compute. eauto.
      * vm_compute. eauto.
      * exists d. split; [exact Hd|].
        destruct (Hdata d Hd) as (t & Ht & Hid & _ & _ & Hn & _).
        rewrite Hn.
        apply elem_of_cons in Ht as [->|Ht]; [discriminate Hid|].
        by apply list_elem_of_singleton in Ht as ->.
  - destruct (downloadTicket_serves_own_valid_tickets store_two_tickets
                Malformed bob) as (_ & _ & _ & H500).
    + apply (bool_decide_unpack _). vm_compute. reflexivity.
    + by apply H500.
Defined.

(** ** The tickets of an attendee *)

Lemma getMyTickets_listed st a q up now v :
  v ∈ MyTickets.tickets (getMyTickets st a q up now) ↔
  ∃ t, t ∈ tickets st
       ∧ MyTickets.ticket_filter a q t = true
       ∧ (up = true →
          MyTickets.is_upcoming now (events st !! Ticket.eventId t) = true)
       ∧ v = MyTickets.mkView t (events st !! Ticket.eventId t)
               (MyTickets.eventStatus_of now (events st !! Ticket.eventId t))
               (MyTickets.canCancel_of now t (events st !! Ticket.eventId t)).
Proof.
  unfold getMyTickets. cbn [MyTickets.tickets].
  rewrite list_elem_of_fmap. split.
  - intros ([t ev] & -> & Hp). cbn [fst snd].
    assert ((t, ev) ∈ (λ t, (t, events st !! Ticket.eventId t))
                      <$> merge_sort MyTickets.newest_first
                            (filter (λ t, MyTickets.ticket_filter a q t
                                          = true) (tickets st))
            ∧ (up = true → MyTickets.is_upcoming now ev = true)) as [Hin Hup].
    { destruct up; [|done].
      apply list_elem_of_filter in Hp as [Hu Hp]. done. }
    apply list_elem_of_fmap in Hin as (t' & [= <- ->] & Hin).
    rewrite merge_sort_Permutation in Hin.
    apply list_elem_of_filter in Hin as [Hf Hin].
    by exists t.
  - intros (t & Ht & Hf & Hup & ->).
    exists (t, events st !! Ticket.eventId t). split; [done|].
    assert ((t, events st !! Ticket.eventId t)
            ∈ (λ t, (t, events st !! Ticket.eventId t))
              <$> merge_sort MyTickets.newest_first
                    (filter (λ t, MyTickets.ticket_filter a q t = true)
                       (tickets st))) as Hin.
    { apply list_elem_of_fmap. exists t. split; [done|].
      rewrite merge_sort_Permutation. by apply list_elem_of_filter. }
    destruct up; [|done]. apply list_elem_of_filter. split; [|done].
    by apply Hup.
Qed.

(** X13. What [getMyTickets] promises, [cancelTicket] keeps: with
    distinct ticket [_id]s, a ticket listed with [canCancel] is
    cancelled successfully by a request of its owner made at the same
    time. The two tests differ at one point only: when the event starts
    in exactly 24 hours the cancellation succeeds although the listing
    says [canCancel = false]. *)
Theorem canCancel_agrees_with_cancelTicket st a q up now v reason env :
  ids_unique (tickets st) →
  v ∈ MyTickets.tickets (getMyTickets st a q up now) →
  Cancel.now env = now →
  (MyTickets.canCancel v = true →
   Cancel.success
     (Cancel.response
        (cancelTicket st
           (Cancel.mkRequest (ObjectId (Ticket._id (MyTickets.ticket v))) a
              reason) env))
   = true)
  ∧ (Cancel.success
       (Cancel.response
          (cancelTicket st
             (Cancel.mkRequest (ObjectId (Ticket._id (MyTickets.ticket v))) a
                reason)
             env)) = true →
     MyTickets.canCancel v = false →
     ∃ event, MyTickets.event v = Some event
              ∧ Event.startDateTime event - now = 24 * 60 * 60 * 1000).
Proof.
  intros Hnd Hv Hnow.
  apply getMyTickets_listed in Hv as (t & Ht & Hf & _ & ->).
  cbn [MyTickets.canCancel MyTickets.ticket MyTickets.event].
  unfold MyTickets.ticket_filter in Hf. apply andb_true_iff in Hf as [Ha _].
  apply bool_decide_eq_true in Ha. unfold MyTickets.canCancel_of. split.
  - intros Hcan. apply andb_true_iff in Hcan as [Hact Hlate].
    apply bool_decide_eq_true in Hact.
    destruct (events st !! Ticket.eventId t) as [event|] eqn:Hev; [|done].
    apply (cancelTicket_found _ _ _ (Ticket._id t) t event); [done| |done|].
    + by apply Ticket_findOne_unique.
    + rewrite Hnow. lia.
  - intros Hsucc Hcan.
    destruct (cancelTicket_cases st
                (Cancel.mkRequest (ObjectId (Ticket._id t)) a reason) env)
      as [(_ & Hfail & _)|(t' & event & i & Hid & _ & Hi & _ & Hact & Hev
                           & Hh & _)]; [congruence|].
    cbn [Cancel.ticketId] in Hid. injection Hid as Hid.
    assert (t' = t) as ->.
    { apply list_elem_of_lookup in Ht as [j Hj].
      assert (i = j) as ->; [|congruence].
      eapply (NoDup_lookup _ i j (Ticket._id t) Hnd);
        rewrite list_lookup_fmap, ?Hi, ?Hj; simpl; congruence. }
    rewrite Hev in Hcan |- *. exists event. split; [done|].
    rewrite Hact, bool_decide_eq_true_2 in Hcan by done. simpl in Hcan.
    rewrite Hnow in Hh. lia.
Qed.

Lemma canCancel_agrees_with_cancelTicket_witness :
  Cancel.success
    (Cancel.response
       (cancelTicket store_two_tickets
          (Cancel.mkRequest (ObjectId 102%N) bob None)
          (cancel_env (2 * day))))
  = true.
Proof.
  destruct (canCancel_agrees_with_cancelTicket store_two_tickets bob
              MyTickets.all false (2 * day)
              (MyTickets.mkView (ticket_of bob env_2) (Some (meetup_event 2 2))
                 MyTickets.upcoming true)
              None (cancel_env (2 * day))) as [Hcan _].
  - apply (bool_decide_unpack _). vm_compute. reflexivity.
  - vm_compute. left.
  - reflexivity.
  - apply Hcan. reflexivity.
Defined.

Lemma count_status_sum (l : list (Ticket.t * option Event.t)) :
  MyTickets.count_status Ticket.active l + MyTickets.count_status Ticket.used l
  + MyTickets.count_status Ticket.cancelled l
  + MyTickets.count_status Ticket.expired l
  = Z.of_nat (length l).
Proof.
  unfold MyTickets.count_status, MyTickets.has_status.
  induction l as [|[t ev] l IH]; [done|].
  rewrite !filter_cons. cbn [fst length].
  destruct (Ticket.status t); repeat case_decide; try done;
    cbn [length]; lia.
Qed.

(** X14. The listing of [getMyTickets] is sound: every ticket listed is
    a stored ticket of the requester, of the requested status if one is
    asked for, shown with its event; with the [upcoming] flag its event
    is on record and starts later than now. The four counts of the
    summary add up to the number of tickets listed, and a ticket marked
    [canCancel] is active with its event more than 24 hours ahead
    ([eventStatus] upcoming). *)
Theorem getMyTickets_sound st a q up now :
  (∀ v, v ∈ MyTickets.tickets (getMyTickets st a q up now) →
        MyTickets.ticket v ∈ tickets st
        ∧ Ticket.attendeeId (MyTickets.ticket v) = a
        ∧ (∀ s, q = MyTickets.only s → Ticket.status (MyTickets.ticket v) = s)
        ∧ MyTickets.event v = events st !! Ticket.eventId (MyTickets.ticket v)
        ∧ (up = true →
           ∃ event, MyTickets.event v = Some event
                    ∧ now < Event.startDateTime event)
        ∧ (MyTickets.canCancel v = true →
           Ticket.status (MyTickets.ticket v) = Ticket.active
           ∧ MyTickets.eventStatus v = MyTickets.upcoming))
  ∧ MyTickets.count (getMyTickets st a q up now)
    = Z.of_nat (length (MyTickets.tickets (getMyTickets st a q up now)))
  ∧ MyTickets.active (MyTickets.summary (getMyTickets st a q up now))
    + MyTickets.used (MyTickets.summary (getMyTickets st a q up now))
    + MyTickets.cancelled (MyTickets.summary (getMyTickets st a q up now))
    + MyTickets.expired (MyTickets.summary (getMyTickets st a q up now))
    = MyTickets.count (getMyTickets st a q up now).
Proof.
  split; [|split].
  - intros v Hv. apply getMyTickets_listed in Hv as (t & Ht & Hf & Hup & ->).
    cbn [MyTickets.ticket MyTickets.event MyTickets.canCancel
         MyTickets.eventStatus].
    unfold MyTickets.ticket_filter in Hf. apply andb_true_iff in Hf as [Ha Hq].
    apply bool_decide_eq_true in Ha.
    split; [done|]. split; [done|]. split; [|split; [done|split]].
    + intros s ->. by apply bool_decide_eq_true in Hq.
    + intros Hu. specialize (Hup Hu).
      destruct (events st !! Ticket.eventId t) as [event|]; [|done].
      exists event. split; [done|]. simpl in Hup. lia.
    + unfold MyTickets.canCancel_of, MyTickets.eventStatus_of.
      intros Hcan. apply andb_true_iff in Hcan as [Hact Hlate].
      apply bool_decide_eq_true in Hact. split; [done|].
      destruct (events st !! Ticket.eventId t) as [event|]; [|done].
      destruct (Z.ltb_spec (Event.startDateTime event) now); [lia|].
      destruct (Z.ltb_spec (Event.startDateTime event - now)
                  (24 * 60 * 60 * 1000)); [lia|done].
  - unfold getMyTickets. cbn [MyTickets.count MyTickets.tickets].
    by rewrite length_fmap.
  - unfold getMyTickets. cbn [MyTickets.count MyTickets.summary
      MyTickets.active MyTickets.used MyTickets.cancelled MyTickets.expired].
    apply count_status_sum.
Qed.

(** ** Availability shown to attendees *)

(** X15. For a signed-in attendee and a published event, the details
    page shows the event as available exactly when a booking request of
    that attendee made at the same time passes every check of
    [bookTicket]. The page does not look at the status of the event:
    whatever it is, [isAvailable] means seats left, event not started
    and no ticket of the attendee other than cancelled ones, and
    [isSoldOut] means no seat left. *)
Theorem details_availability_matches_booking st e a info now event :
  events st !! e = Some event →
  ∃ av,
    getEventDetails st (ObjectId e) (Some a) now = Details.Ok200 event av
    ∧ Details.availableTickets av
      = Event.capacity event - Event.ticketsSold event
    ∧ (Details.isSoldOut av = true
       ↔ Event.capacity event ≤ Event.ticketsSold event)
    ∧ (Details.userHasTicket av = true
       ↔ ∃ t, t ∈ tickets st ∧ Ticket.eventId t = e
              ∧ Ticket.attendeeId t = a
              ∧ Ticket.status t ≠ Ticket.cancelled)
    ∧ (Details.isAvailable av = true
       ↔ Event.ticketsSold event < Event.capacity event
         ∧ now < Event.startDateTime event
         ∧ Details.userHasTicket av = false)
    ∧ (Event.status event = Event.published →
       (Details.isAvailable av = true
        ↔ book_violation st (Book.mkRequest (Some (ObjectId e)) a info) now
          = None)).
Proof.
  intros Hev. unfold getEventDetails. rewrite Hev. eexists.
  split; [reflexivity|]. cbn [Details.availableTickets Details.isSoldOut
    Details.userHasTicket Details.isAvailable].
  split; [done|]. split; [rewrite Z.leb_le; lia|].
  assert (bool_decide (is_Some (Ticket_findOne (Details.ticket_filter e a)
                                  (tickets st)))
          = existsb (Book.existing_filter e a) (tickets st)) as Hhas.
  { change (Book.existing_filter e a) with (Details.ticket_filter e a).
    destruct (Ticket_findOne _ _) eqn:Hfind.
    - rewrite bool_decide_eq_true_2 by (by eexists). symmetry.
      apply not_false_iff_true. rewrite <- Ticket_findOne_existsb. congruence.
    - rewrite bool_decide_eq_false_2 by (by intros [? ?]). symmetry.
      by apply Ticket_findOne_existsb. }
  split; [|split].
  - rewrite Hhas, existsb_exists. split.
    + intros (t & Ht & Hf). apply list_elem_of_In in Ht.
      unfold Book.existing_filter in Hf.
      apply andb_true_iff in Hf as [Hf Hst].
      apply andb_true_iff in Hf as [He Ha].
      apply bool_decide_eq_true in He, Ha.
      apply negb_true_iff, bool_decide_eq_false in Hst. by exists t.
    + intros (t & Ht & He & Ha & Hst). exists t.
      split; [by apply list_elem_of_In|]. unfold Book.existing_filter.
      by rewrite (bool_decide_eq_true_2 _ He), (bool_decide_eq_true_2 _ Ha),
        (bool_decide_eq_false_2 _ Hst).
  - rewrite !andb_true_iff, negb_true_iff, !Z.gtb_lt. split.
    + intros [[? ?] ?]. repeat split; [lia|lia|done].
    + intros (? & ? & ?). repeat split; [lia|lia|done].
  - intros Hpub. unfold book_violation. cbn [Book.eventId Book.attendeeId].
    rewrite Hev.
    rewrite (bool_decide_eq_false_2 (Event.status event ≠ Event.published))
      by tauto.
    rewrite Hhas, !andb_true_iff, negb_true_iff, !Z.gtb_lt.
    repeat case_bool_decide; destruct (existsb _ _);
      split; try done; try (intros [[? ?] ?]; (done || lia));
      intros _; repeat split; (done || lia).
Qed.

Lemma details_availability_matches_booking_witness :
  ∃ av, getEventDetails store_one_ticket (ObjectId meetup) (Some bob) day
        = Details.Ok200 (meetup_event 2 1) av
        ∧ Details.isAvailable av = true
        ∧ book_violation store_one_ticket (book_by bob) day = None.
Proof.
  destruct (details_availability_matches_booking store_one_ticket meetup bob
              no_info day (meetup_event 2 1))
    as (av & Hd & _ & _ & _ & Hav & Hbook); [reflexivity|].
  exists av. split; [exact Hd|].
  assert (Details.isAvailable av = true) as Hyes.
  { apply Hav. split; [reflexivity|]. split; [reflexivity|].
    pose proof Hd as Hd'. vm_compute in Hd'. by injection Hd' as <-. }
  split; [exact Hyes|]. by apply (Hbook eq_refl).
Defined.

(** ** Deleting an event *)

(** X16. [deleteEvent] removes an event exactly when it exists, belongs
    to the requesting host and no ticket of any status, cancelled ones
    included, refers to it. It then removes that event and nothing
    else; in every other case the database is left as it is, and the
    owner of an event with tickets is told so (400). Under an id that
    is no ObjectId the lookup throws: 500, and nothing is deleted. *)
Theorem deleteEvent_only_without_tickets st e h :
  (fst (deleteEvent st (ObjectId e) h) = Delete.Deleted200
   ↔ ∃ event, events st !! e = Some event ∧ Event.host event = h
              ∧ ∀ t, t ∈ tickets st → Ticket.eventId t ≠ e)
  ∧ (fst (deleteEvent st (ObjectId e) h) = Delete.Deleted200 →
     snd (deleteEvent st (ObjectId e) h)
     = with_events (delete e (events st)) st)
  ∧ (fst (deleteEvent st (ObjectId e) h) ≠ Delete.Deleted200 →
     snd (deleteEvent st (ObjectId e) h) = st)
  ∧ (∀ event t, events st !! e = Some event → Event.host event = h →
                t ∈ tickets st → Ticket.eventId t = e →
                fst (deleteEvent st (ObjectId e) h) = Delete.HasTickets400)
  ∧ deleteEvent st Malformed h = (Delete.ServerError500, st).
Proof.
  split; [|split; [|split; [|split; [|done]]]];
    destruct (deleteEvent_cases st (ObjectId e) h)
      as [[Hst Hnot]|(e' & event & [= <-] & Hev & Hhost & Hnone & Hdel)];
    try done.
  - split; [done|]. intros (event & Hev & Hhost & Hnone).
    destruct Hnot. unfold deleteEvent.
    rewrite Hev, bool_decide_eq_true_2 by done. cbn [negb].
    assert (tickets_of_event e (tickets st) = []) as ->; [|done].
    destruct (tickets_of_event e (tickets st)) as [|t l] eqn:Hl; [done|].
    assert (t ∈ tickets_of_event e (tickets st)) as Hin
      by (rewrite Hl; left).
    apply list_elem_of_filter in Hin as [He Ht]. by destruct (Hnone t Ht).
  - rewrite Hdel. split; [|done]. intros _. exists event.
    split; [done|]. split; [done|].
    intros t Ht. by apply (tickets_of_event_nil e (tickets st)).
  - by rewrite Hdel.
  - by rewrite Hdel.
  - intros event t Hev Hhost Ht He. unfold deleteEvent in *.
    rewrite Hev, bool_decide_eq_true_2 in * by done. cbn [negb] in *.
    assert (t ∈ tickets_of_event e (tickets st)) as Hin
      by (by apply list_elem_of_filter).
    destruct (tickets_of_event e (tickets st)); [inversion Hin|done].
  - intros ev t _ _ Ht He.
    by destruct (tickets_of_event_nil e (tickets st) t Hnone Ht).
Qed.

Lemma same_keys_refl t : same_keys t t.
Proof. by repeat split. Qed.

Lemma same_keys_trans t u v : same_keys t u → same_keys u v → same_keys t v.
Proof.
  intros (? & ? & ? & ? & ? & ? & ? & ?) (? & ? & ? & ? & ? & ? & ? & ?).
  repeat split; congruence.
Qed.

Lemma effect_persist st st' t :
  effect st st' → t ∈ tickets st →
  (∃ t', t' ∈ tickets st' ∧ same_keys t t')
  ∧ (is_Some (events st !! Ticket.eventId t) →
     is_Some (events st' !! Ticket.eventId t)).
Proof.
  intros [|u event now _ _ _ _ _ _ _
          |i u event saved now st2 Hi _ _ Htk Hevs _ _
          |i u u' Hi Hkeys _|e Hnone] Ht;
    cbn [tickets events with_tickets with_events Event_inc].
  - split; [|done]. exists t. split; [done|apply same_keys_refl].
  - split; [|by rewrite is_Some_lookup_alter].
    exists t. split; [|apply same_keys_refl]. apply elem_of_app. by left.
  - rewrite Htk, Hevs. split; [|by rewrite is_Some_lookup_alter].
    apply list_elem_of_lookup in Ht as [j Hj].
    destruct (decide (j = i)) as [->|Hne].
    + exists (Ticket.set_updatedAt saved
                (Ticket.set_status Ticket.cancelled u)). split.
      * apply list_elem_of_lookup. exists i.
        apply list_lookup_insert_eq. by eapply lookup_lt_Some.
      * assert (t = u) as -> by congruence. by repeat split.
    + exists t. split; [|apply same_keys_refl].
      apply list_elem_of_lookup. exists j. by rewrite list_lookup_insert_ne.
  - split; [|done]. apply list_elem_of_lookup in Ht as [j Hj].
    destruct (decide (j = i)) as [->|Hne].
    + exists u'. split.
      * apply list_elem_of_lookup. exists i.
        apply list_lookup_insert_eq. by eapply lookup_lt_Some.
      * assert (t = u) as -> by congruence. done.
    + exists t. split; [|apply same_keys_refl].
      apply list_elem_of_lookup. exists j. by rewrite list_lookup_insert_ne.
  - split; [exists t; split; [done|apply same_keys_refl]|].
    rewrite lookup_delete_ne; [done|].
    intros Heq. by apply (tickets_of_event_nil _ _ t Hnone Ht).
Qed.

(** X17. Tickets are never removed: a stored ticket is still stored,
    under the same [_id], event, attendee, number and QR code, whatever
    requests are served. So from its first ticket on, cancelled or not,
    an event is never deleted: [deleteEvent] refuses every time and the
    event stays on record. *)
Theorem event_with_a_ticket_is_never_deleted trim st calls t :
  ids_unique (tickets st) →
  t ∈ tickets st →
  (∃ t', t' ∈ tickets (serve_all trim calls st) ∧ same_keys t t')
  ∧ (∀ h, fst (deleteEvent (serve_all trim calls st)
                 (ObjectId (Ticket.eventId t)) h)
          ≠ Delete.Deleted200)
  ∧ (is_Some (events st !! Ticket.eventId t) →
     is_Some (events (serve_all trim calls st) !! Ticket.eventId t)).
Proof.
  revert st t. induction calls as [|c calls IH]; intros st t Hnd Ht.
  - assert (∃ t', t' ∈ tickets st ∧ same_keys t t') as Hsame
      by (exists t; split; [done|apply same_keys_refl]).
    split; [done|]. split; [|done]. intros h Hdel.
    destruct (deleteEvent_cases st (ObjectId (Ticket.eventId t)) h)
      as [[_ Hnot]|(e & _ & [= <-] & _ & _ & Hnone & _)]; [done|].
    by apply (tickets_of_event_nil _ _ t Hnone Ht).
  - pose proof (serve_effect trim st c Hnd) as Heff.
    destruct (effect_persist _ _ t Heff Ht) as [(u & Hu & Hkeys) Hevent].
    destruct (IH (serve trim st c) u) as ((t' & Ht' & Hkeys') & Hdel & Hev');
      [by eapply effect_ids_unique|done|].
    assert (Ticket.eventId u = Ticket.eventId t) as He by apply Hkeys.
    rewrite He in Hdel, Hev'. cbn [serve_all foldl].
    split; [exists t'; split; [done|by eapply same_keys_trans]|].
    split; [done|]. intros Hsome. by apply Hev', Hevent.
Qed.

Lemma event_with_a_ticket_is_never_deleted_witness :
  fst (deleteEvent (serve_all trim_ascii sample_calls store_one_ticket)
         (ObjectId meetup) host_of_meetup) ≠ Delete.Deleted200.
Proof.
  destruct (event_with_a_ticket_is_never_deleted trim_ascii store_one_ticket
              sample_calls (ticket_of alice env_1)) as (_ & Hdel & _).
  - apply (bool_decide_unpack _). vm_compute. reflexivity.
  - apply list_elem_of_singleton. reflexivity.
  - apply (Hdel host_of_meetup).
Defined.

(** ** Staff notes *)

Lemma truthy_Some text : truthy (Some text) = true ↔ text ≠ EmptyString.
Proof. destruct text; simpl; split; done. Qed.

Lemma length_zero_empty s : String.length s = 0%nat ↔ s = EmptyString.
Proof. destruct s; simpl; split; done. Qed.

Lemma Ticket_findById_unique l t :
  ids_unique l → t ∈ l → Ticket_findById (Ticket._id t) l = Some t.
Proof.
  intros Hnd Ht. apply list_elem_of_lookup in Ht as [i Hi].
  apply (Ticket_findOne_first _ _ i); [done|by apply bool_decide_eq_true_2|].
  intros j u Hj Hlt Hf. apply bool_decide_eq_true in Hf.
  assert (j = i); [|lia].
  eapply (NoDup_lookup _ j i (Ticket._id t) Hnd).
  - rewrite list_lookup_fmap, Hj. simpl. congruence.
  - by rewrite list_lookup_fmap, Hi.
Qed.

(** X18. With distinct ticket [_id]s, a staff note is added exactly when
    its text is a string that is not blank (empty, or empty once
    trimmed), the ticket id is an ObjectId, the ticket exists with its
    event on record and the staff member is assigned to that event;
    neither the status of the ticket nor the time matters. The note,
    trimmed and signed with the staff member and the time, is appended
    to the notes of that ticket as a subdocument with an [_id] of its
    own; the save also stamps [updatedAt] and raises the version key of
    the ticket by one. No other path, ticket or collection changes, and
    a refused request writes nothing. *)
Theorem addTicketNote_appends_one_note trim st req env :
  ids_unique (tickets st) →
  (fst (addTicketNote trim st req env) = Note.Added200
   ↔ ∃ text t event,
       Note.note req = Text text
       ∧ text ≠ EmptyString ∧ trim text ≠ EmptyString
       ∧ t ∈ tickets st ∧ Note.ticketId req = ObjectId (Ticket._id t)
       ∧ events st !! Ticket.eventId t = Some event
       ∧ Note.staffId req ∈ Event.assignedStaff event)
  ∧ (fst (addTicketNote trim st req env) = Note.Added200 →
     ∃ i t text,
       tickets st !! i = Some t
       ∧ Note.note req = Text text
       ∧ snd (addTicketNote trim st req env)
         = with_tickets
             (<[i := Ticket.mk (Ticket._id t) (Ticket.eventId t)
                       (Ticket.attendeeId t) (Ticket.ticketNumber t)
                       (Ticket.qrCodeUrl t) (Ticket.qrCodeData t)
                       (Ticket.paymentId t) (Ticket.pricePaid t)
                       (Ticket.paymentStatus t) (Ticket.status t)
                       (Ticket.checkInStatus t) (Ticket.bookingDate t)
                       (Ticket.attendeeInfo t) (Ticket.verification t)
                       (Ticket.staffNotes t
                        ++ [Ticket.mkNote (Note.noteId env) (Note.staffId req)
                              (trim text) (Note.now env)])
                       (Ticket.createdAt t) (Note.savedAt env)
                       (Ticket.__v t + 1)]>
                (tickets st)) st)
  ∧ (fst (addTicketNote trim st req env) ≠ Note.Added200 →
     snd (addTicketNote trim st req env) = st).
Proof.
  intros Hnd.
  destruct (addTicketNote_cases trim st req env Hnd)
    as [[Hst Hnot]|(i & t & event & text & Hi & Hid & Hev & Hstaff & Hnote
                    & Htrim & Hadd)].
  - split; [|split; [done|done]]. split; [done|].
    intros (text & t & event & Hnote & Htext & Htrim & Ht & Hid & Hev & Hstaff).
    destruct Hnot. unfold addTicketNote. rewrite Hnote.
    rewrite (proj2 (truthy_Some text) Htext). cbn [negb orb].
    destruct (Nat.eqb_spec (String.length (trim text)) 0) as [Hlen|_].
    { by apply length_zero_empty in Hlen. }
    rewrite Hid, (Ticket_findById_unique _ t), Hev by done.
    by rewrite bool_decide_eq_true_2.
  - rewrite Hadd. cbn [fst snd]. split; [|split; [|done]].
    + split; [|done]. intros _. exists text, t, event.
      assert (text ≠ EmptyString) as Htext.
      { intros ->. unfold addTicketNote in Hadd. rewrite Hnote in Hadd.
        simpl in Hadd. done. }
      repeat split; try done. by eapply list_elem_of_lookup_2.
    + intros _. by exists i, t, text.
Qed.

(** Gate B annotates Alice's ticket, cancelled by then: the note is
    stored trimmed, and the ticket gets the stamp of the save and
    version 1. *)
Lemma addTicketNote_appends_one_note_witness :
  ∃ i t t',
    tickets store_after_cancel !! i = Some t
    ∧ Ticket.status t = Ticket.cancelled
    ∧ snd (addTicketNote trim_ascii store_after_cancel note_on_alice
             (note_env (3 * day)))
      = with_tickets (<[i := t']> (tickets store_after_cancel))
          store_after_cancel
    ∧ Ticket.staffNotes t'
      = [Ticket.mkNote 201%N gate_b "VIP guest" (3 * day)]
    ∧ Ticket.updatedAt t = 2 * day + 2
    ∧ Ticket.updatedAt t' = 3 * day + 5
    ∧ Ticket.__v t = 0
    ∧ Ticket.__v t' = 1.
Proof.
  destruct (addTicketNote_appends_one_note trim_ascii store_after_cancel
              note_on_alice (note_env (3 * day))) as (_ & Hadd & _).
  - apply (bool_decide_unpack _). vm_compute. reflexivity.
  - destruct Hadd as (i & t & text & Hi & Hnote & Hst);
      [vm_compute; reflexivity|].
    injection Hnote as <-.
    destruct i as [|i]; [|discriminate Hi]. injection Hi as <-.
    eexists 0%nat, _, _. split; [reflexivity|]. split; [reflexivity|].
    split; [exact Hst|]. repeat split.
Defined.

(** ** What hosts are shown *)

Lemma effect_none_checked_in st st' :
  effect st st' → none_checked_in (tickets st) → none_checked_in (tickets st').
Proof.
  unfold none_checked_in, Attendees.is_checked_in.
  intros [|t event now _ _ _ _ _ _ Hdef
          |i t event saved now st2 Hi _ _ Htk _ _ _
          |i t t' Hi (_ & _ & _ & _ & _ & _ & _ & Hc) _|e Hnone] Hnone';
    cbn [tickets with_tickets with_events Event_inc]; try done.
  - apply Forall_app. split; [done|]. apply Forall_singleton. by rewrite Hdef.
  - rewrite Htk. apply Forall_insert; [done|].
    apply (Forall_lookup_1 _ _ _ _ Hnone' Hi).
  - apply Forall_insert; [done|]. rewrite Hc.
    apply (Forall_lookup_1 _ _ _ _ Hnone' Hi).
Qed.

Lemma serve_all_none_checked_in trim calls st :
  ids_unique (tickets st) → none_checked_in (tickets st) →
  none_checked_in (tickets (serve_all trim calls st)).
Proof.
  revert st. induction calls as [|c calls IH]; intros st Hnd Hnone; [done|].
  apply IH.
  - eapply effect_ids_unique; [by apply serve_effect|done].
  - eapply effect_none_checked_in; [by apply serve_effect|done].
Qed.

(** X19. Nothing the handlers do marks a ticket as checked in: scans
    write [verification], never [checkInStatus]. So in a database where
    no ticket is checked in, whatever bookings, cancellations, scans,
    notes and deletions are served, the attendee statistics shown to the
    host count no check-in at all: [checkedIn] is 0 and [notCheckedIn]
    is the total, cancelled tickets included. *)
Theorem host_sees_no_check_in trim st calls eventId h title start capacity
    stats :
  ids_unique (tickets st) →
  none_checked_in (tickets st) →
  getEventAttendees (serve_all trim calls st) eventId h
  = Attendees.Ok200 title start capacity stats →
  Attendees.checkedIn stats = 0
  ∧ Attendees.notCheckedIn stats = Attendees.total stats
  ∧ 0 ≤ Attendees.cancelled stats ≤ Attendees.total stats.
Proof.
  intros Hnd Hnone.
  pose proof (serve_all_none_checked_in trim calls st Hnd Hnone) as Hnone'.
  unfold getEventAttendees. destruct eventId as [e|]; [|done].
  destruct (events (serve_all trim calls st) !! e) as [event|]; [|done].
  destruct (negb _); [done|]. intros [= _ _ _ <-].
  cbn [Attendees.checkedIn Attendees.notCheckedIn Attendees.total
       Attendees.cancelled].
  set (found := tickets_of_event e (tickets (serve_all trim calls st))).
  assert (Forall (λ t, Attendees.is_checked_in t = false) found) as Hfound.
  { apply Forall_forall. intros t Ht.
    apply list_elem_of_filter in Ht as [_ Ht].
    revert t Ht. by apply Forall_forall. }
  assert (filter (λ t, Attendees.is_checked_in t = true) found = []) as ->.
  { clear -Hfound. induction Hfound as [|t l Ht _ IH]; [done|].
    rewrite filter_cons_False by congruence. done. }
  assert (filter (λ t, ¬ Attendees.is_checked_in t = true) found = found)
    as ->.
  { clear -Hfound. induction Hfound as [|t l Ht _ IH]; [done|].
    rewrite filter_cons_True by congruence. by rewrite IH. }
  split; [done|]. split; [done|].
  pose proof (length_filter (λ t, Ticket.status t = Ticket.cancelled) found).
  lia.
Qed.

Lemma host_sees_no_check_in_witness :
  ∃ stats,
    getEventAttendees (serve_all trim_ascii sample_calls empty_store)
      (ObjectId meetup) host_of_meetup
    = Attendees.Ok200 "Meetup" meetup_start 2 stats
    ∧ Attendees.total stats = 2
    ∧ Attendees.checkedIn stats = 0.
Proof.
  eexists. split; [vm_compute; reflexivity|]. split; [reflexivity|].
  eapply (host_sees_no_check_in trim_ascii empty_store sample_calls
            (ObjectId meetup) host_of_meetup).
  - apply NoDup_nil_2.
  - apply Forall_nil_2.
  - vm_compute. reflexivity.
Defined.

Lemma length_filter_split {A} (P Q : A → Prop)
    `{∀ x, Decision (P x)} `{∀ x, Decision (Q x)} (l : list A) :
  length (filter P l)
  = (length (filter (λ x, P x ∧ Q x) l)
     + length (filter (λ x, P x ∧ ¬ Q x) l))%nat.
Proof.
  induction l as [|x l IH]; [done|].
  rewrite !filter_cons.
  destruct (decide (P x)), (decide (Q x));
    repeat case_decide; cbn [length]; try tauto; lia.
Qed.

(** X20. Hosts and attendees are not shown the same number of free
    seats. The listing for attendees subtracts the counter of the event
    from its capacity; the statistics for the host subtract every ticket
    of the event, whatever its status. With exact counters the host
    therefore sees fewer seats, by the number of tickets of the event
    that are not active: each cancellation, which frees a seat for
    attendees, leaves the host's figure where it was. *)
Theorem host_and_attendee_availability st e event :
  store_exact st →
  events st !! e = Some event →
  HostStats.totalTicketsSold (HostStats.statistics st e event)
  = Event.ticketsSold event
    + Z.of_nat (length (filter (λ t, Ticket.eventId t = e
                                     ∧ Ticket.status t ≠ Ticket.active)
                          (tickets st)))
  ∧ HostStats.availableTickets (HostStats.statistics st e event)
    = Listing.availableTickets (Listing.availability event)
      - Z.of_nat (length (filter (λ t, Ticket.eventId t = e
                                       ∧ Ticket.status t ≠ Ticket.active)
                            (tickets st)))
  ∧ (Listing.isSoldOut (Listing.availability event) = true
     ↔ Event.capacity event ≤ Event.ticketsSold event)
  ∧ Listing.isAvailable (Listing.availability event)
    = negb (Listing.isSoldOut (Listing.availability event)).
Proof.
  intros [_ Hcnt] Hev. destruct (Hcnt e event Hev) as [Hsold _].
  unfold HostStats.statistics, Listing.availability, tickets_of_event.
  cbn [HostStats.totalTicketsSold HostStats.availableTickets
       Listing.availableTickets Listing.isSoldOut Listing.isAvailable].
  rewrite (length_filter_split (λ t, Ticket.eventId t = e)
             (λ t, Ticket.status t = Ticket.active)).
  assert (active_count e (tickets st)
          = Z.of_nat (length (filter (λ t, Ticket.eventId t = e
                                           ∧ Ticket.status t = Ticket.active)
                                (tickets st)))) as Hact.
  { unfold active_count. do 2 f_equal. apply list_filter_iff. intros t.
    unfold active_of. by rewrite andb_true_iff, !bool_decide_eq_true. }
  rewrite Hsold, Hact. split; [lia|]. split; [lia|]. split.
  - rewrite Z.leb_le. lia.
  - destruct (Z.gtb_spec (Event.capacity event - active_count e (tickets st)) 0),
      (Z.leb_spec (Event.capacity event - active_count e (tickets st)) 0);
      try done; lia.
Qed.

(** Bob has cancelled: attendees see one free seat, the host sees none. *)
Lemma host_and_attendee_availability_witness :
  Listing.availableTickets (Listing.availability (meetup_event 2 1)) = 1
  ∧ HostStats.availableTickets
      (HostStats.statistics
         (sample_store 2 1
            [ticket_of alice env_1;
             Ticket.set_status Ticket.cancelled (ticket_of bob env_2)])
         meetup (meetup_event 2 1)) = 0.
Proof.
  split; [reflexivity|].
  destruct (host_and_attendee_availability
              (sample_store 2 1
                 [ticket_of alice env_1;
                  Ticket.set_status Ticket.cancelled (ticket_of bob env_2)])
              meetup (meetup_event 2 1)) as (_ & Hav & _).
  - apply (bool_decide_unpack _). vm_compute. reflexivity.
  - reflexivity.
  - rewrite Hav. vm_compute. reflexivity.
Defined.

(** ** More on bookings and scans *)

(** X21. Booking twice is refused: after a successful booking, a second
    request of the same attendee for the same event changes nothing and
    is answered 'You already have a ticket for this event' as long as
    the event has not started and is not sold out. *)
Theorem second_booking_is_refused st req env ticket st' env' e event' :
  bookTicket st req env = (Book.Created201 ticket, st') →
  Book.eventId req = Some (ObjectId e) →
  events st' !! e = Some event' →
  Book.now env' < Event.startDateTime event' →
  Event.ticketsSold event' < Event.capacity event' →
  bookTicket st' req env' = (Book.AlreadyBooked400, st').
Proof.
  intros Hbook Hreq Hev' Hnow Hcap.
  destruct (bookTicket_cases st req env)
    as [[_ Hnot]|(e0 & event & Hreq0 & Hev & Hpub & _ & _ & _ & _ & _ & Heq)].
  { destruct (Hnot ticket). by rewrite Hbook. }
  assert (e0 = e) as -> by congruence.
  rewrite Hbook in Heq. injection Heq as _ ->.
  cbn [events Event_inc with_events with_tickets] in Hev'.
  rewrite lookup_alter, decide_True, Hev in Hev' by done.
  injection Hev' as <-.
  unfold bookTicket. rewrite Hreq.
  cbn [events Event_inc with_events with_tickets tickets].
  rewrite lookup_alter, decide_True, Hev by done. cbn [fmap option_fmap option_map].
  cbn [Event.status Event.inc_ticketsSold]. rewrite Hpub.
  rewrite bool_decide_eq_true_2 by done. cbn [negb].
  simpl in Hnow, Hcap.
  destruct (Z.leb_spec
              (Event.startDateTime
                 (Event.inc_ticketsSold 1 (Book.countedAt env) event))
              (Book.now env')); [simpl in *; lia|].
  destruct (Z.geb_spec
              (Event.ticketsSold
                 (Event.inc_ticketsSold 1 (Book.countedAt env) event))
              (Event.capacity
                 (Event.inc_ticketsSold 1 (Book.countedAt env) event)));
    [simpl in *; lia|].
  destruct (Ticket_findOne (Book.existing_filter e (Book.attendeeId req)) _)
    eqn:Hfind; [done|].
  exfalso.
  pose proof (proj1 (Ticket_findOne_None _ _) Hfind
                (Book.new_ticket e req env)) as Hf.
  assert (Book.existing_filter e (Book.attendeeId req)
            (Book.new_ticket e req env) = true) as Ht.
  { unfold Book.existing_filter. simpl.
    by rewrite !bool_decide_eq_true_2. }
  rewrite Hf in Ht; [done|]. apply elem_of_app. right.
  by apply list_elem_of_singleton.
Qed.

Lemma second_booking_is_refused_witness :
  bookTicket (snd (bookTicket empty_store (book_by alice) env_1))
    (book_by alice) env_3
  = (Book.AlreadyBooked400, snd (bookTicket empty_store (book_by alice) env_1)).
Proof.
  apply (second_booking_is_refused empty_store (book_by alice) env_1
           (Some (ticket_of alice env_1)) _ env_3 meetup
           (Event.inc_ticketsSold 1 (day + 3) (meetup_event 2 0)));
    vm_compute; reflexivity.
Defined.

(** X22. The time window of a scan. For a request that resolves to an
    active ticket, made by assigned staff: an entry scan before the
    start of the event is refused ('Event has not started yet'), a
    scan after its end is refused ('Event has already ended') unless it
    is an entry scan made before the start, and neither writes
    anything. *)
Theorem scanTicket_outside_window st req t event now saved :
  scan_resolves st req t event →
  Scan.staffId req ∈ Event.assignedStaff event →
  Ticket.status t = Ticket.active →
  (Scan.action req = Scan.entry → now < Event.startDateTime event →
   scanTicket st req now saved = (Scan.NotStarted400, st))
  ∧ (Event.endDateTime event < now →
     Scan.action req ≠ Scan.entry ∨ Event.startDateTime event ≤ now →
     scanTicket st req now saved = (Scan.Ended400, st)).
Proof.
  intros (Hkey & Hfind & Hev) Hstaff Hactive. split.
  - intros Hact Hearly. unfold scanTicket.
    rewrite (scan_key_supplied _ Hkey), (resolved_castable _ _ _ Hfind).
    cbn [negb]. rewrite Hfind, Hev, Hact.
    rewrite !bool_decide_eq_true_2 by done. cbn [negb Scan.is_entry andb].
    by destruct (Z.ltb_spec now (Event.startDateTime event)); [|lia].
  - intros Hlate Hentry. unfold scanTicket.
    rewrite (scan_key_supplied _ Hkey), (resolved_castable _ _ _ Hfind).
    cbn [negb]. rewrite Hfind, Hev.
    rewrite !bool_decide_eq_true_2 by done. cbn [negb].
    assert (Scan.is_entry (Scan.action req)
            && (now <? Event.startDateTime event) = false) as ->.
    { destruct Hentry as [Hne|Hstarted].
      - destruct (Scan.action req); done.
      - destruct (Z.ltb_spec now (Event.startDateTime event)); [lia|].
        apply andb_false_r. }
    by destruct (Z.gtb_spec now (Event.endDateTime event)); [|lia].
Qed.

Lemma scanTicket_outside_window_witness :
  scanTicket store_two_tickets (entry_by_number gate_a) (meetup_start - 1)
    (meetup_start + 4)
  = (Scan.NotStarted400, store_two_tickets)
  ∧ scanTicket store_two_tickets (entry_by_number gate_a) (meetup_end + 1)
      (meetup_end + 6)
    = (Scan.Ended400, store_two_tickets).
Proof.
  assert (scan_resolves store_two_tickets (entry_by_number gate_a)
            (scanned_by gate_a meetup_start 1 (ticket_of alice env_1))
            (meetup_event 2 2)) as Hres
    by (repeat split; vm_compute; reflexivity).
  assert (gate_a ∈ Event.assignedStaff (meetup_event 2 2)) as Hstaff
    by (apply (bool_decide_unpack _); vm_compute; reflexivity).
  split.
  - apply (scanTicket_outside_window _ _ _ _ (meetup_start - 1)
             (meetup_start + 4) Hres Hstaff); reflexivity.
  - apply (scanTicket_outside_window _ _ _ _ (meetup_end + 1) (meetup_end + 6)
             Hres Hstaff);
      [reflexivity|reflexivity|]. right. vm_compute. discriminate.
Defined.

Lemma length_filter_bool {A} (P : A → Prop) `{∀ x, Decision (P x)}
    (f : A → bool) (l : list A) :
  (∀ x, P x ↔ f x = true) →
  length (filter P l) = length (filter (λ x, f x = true) l).
Proof. intros Hf. f_equal. by apply list_filter_iff. Qed.

(** X23. Attendance counts a ticket once, however often it is scanned.
    When an entry scan of an active ticket is recorded, the attendance
    summary of its event keeps its total; its number of scanned tickets
    goes up by one if the ticket had not been scanned, and stays where
    it was on a re-scan. *)
Theorem attendance_counts_a_ticket_once st req t event now saved staff
    stats :
  entry_ready st req t event →
  in_window event now →
  getEventAttendance st (ObjectId (Ticket.eventId t)) staff
  = Attendance.Ok200 stats →
  ∃ stats',
    getEventAttendance (snd (scanTicket st req now saved))
      (ObjectId (Ticket.eventId t)) staff
    = Attendance.Ok200 stats'
    ∧ Attendance.totalTickets stats' = Attendance.totalTickets stats
    ∧ Attendance.scannedTickets stats'
      = Attendance.scannedTickets stats
        + (if Ticket.isScanned (Ticket.verification t) then 0 else 1)
    ∧ Attendance.unscannedTickets stats'
      = Attendance.unscannedTickets stats
        - (if Ticket.isScanned (Ticket.verification t) then 0 else 1).
Proof.
  intros Hready Hnow.
  destruct (scanTicket_entry st req t event now saved Hready Hnow)
    as (i & v & attendee & Hi & Hv & Hu & ->).
  destruct Hready as (_ & _ & _ & _ & Hev & _ & Hactive & _).
  destruct (scans_so_far_entry _ _ _ _ saved Hv) as (Hscanned & _ & _).
  unfold getEventAttendance. cbn [snd events users tickets with_tickets].
  rewrite Hev. destruct (negb _); [done|].
  set (e := Ticket.eventId t).
  set (t' := Ticket.set_updatedAt saved (Ticket.set_verification v t)).
  set (P := λ u, Attendance.ticket_filter e u = true).
  set (Q := λ u, Attendance.is_scanned u = true).
  assert (Attendance.ticket_filter e t = true) as Ht.
  { unfold Attendance.ticket_filter. by rewrite !bool_decide_eq_true_2. }
  assert (Attendance.ticket_filter e t' = true) as Ht' by done.
  pose proof (length_filter_insert (Attendance.ticket_filter e)
                (tickets st) i t t' Hi) as Htotal.
  rewrite Ht, Ht' in Htotal.
  pose proof (length_filter_insert
                (λ u, Attendance.is_scanned u && Attendance.ticket_filter e u)
                (tickets st) i t t' Hi) as Hcount.
  cbn beta in Hcount. rewrite Ht, Ht', !andb_true_r in Hcount.
  change (Attendance.is_scanned t') with (Ticket.isScanned v) in Hcount.
  rewrite Hscanned in Hcount.
  change (Attendance.is_scanned t)
    with (Ticket.isScanned (Ticket.verification t)) in Hcount.
  assert (∀ l, length (filter Q (filter P l))
               = length (filter (λ u, Attendance.is_scanned u
                                      && Attendance.ticket_filter e u = true) l))
    as Hboth.
  { intros l. rewrite list_filter_filter. apply length_filter_bool.
    intros u. unfold Q, P. by rewrite andb_true_iff. }
  destruct (forallb _ (filter P (tickets st))) eqn:Hall; [|done].
  intros [= <-].
  assert (forallb (λ u, bool_decide (is_Some (users st !! Ticket.attendeeId u)))
            (filter P (<[i := t']> (tickets st))) = true) as ->.
  { apply forallb_forall. intros u Hin. apply list_elem_of_In in Hin.
    apply list_elem_of_filter in Hin as [Hp Hin].
    apply list_elem_of_lookup in Hin as [j Hj].
    destruct (decide (j = i)) as [->|Hne].
    - rewrite list_lookup_insert_eq in Hj by (by eapply lookup_lt_Some).
      injection Hj as <-. apply bool_decide_eq_true_2. simpl. by eexists.
    - rewrite list_lookup_insert_ne in Hj by done.
      apply (proj1 (forallb_forall _ _) Hall), list_elem_of_In.
      apply list_elem_of_filter. split; [done|].
      by eapply list_elem_of_lookup_2. }
  eexists. split; [reflexivity|].
  cbn [Attendance.totalTickets Attendance.scannedTickets
       Attendance.unscannedTickets].
  rewrite !Hboth. fold P in Htotal.
  destruct (Ticket.isScanned (Ticket.verification t)); lia.
Qed.

Lemma attendance_counts_a_ticket_once_witness :
  ∃ stats',
    getEventAttendance
      (snd (scanTicket store_one_ticket (entry_by_number gate_a) meetup_start
              (meetup_start + 5)))
      (ObjectId meetup) gate_b
    = Attendance.Ok200 stats'
    ∧ Attendance.totalTickets stats' = 1
    ∧ Attendance.scannedTickets stats' = 1.
Proof.
  destruct (attendance_counts_a_ticket_once store_one_ticket
              (entry_by_number gate_a) (ticket_of alice env_1)
              (meetup_event 2 1) meetup_start (meetup_start + 5) gate_b
              (Attendance.mkStatistics 1 0 1 0))
    as (stats' & Hs & Ht & Hsc & _).
  - assert (ids_unique (tickets store_one_ticket)) as Hnd
      by (apply (bool_decide_unpack _); vm_compute; reflexivity).
    repeat split; try done; try (vm_compute; eauto; fail).
    apply (bool_decide_unpack _). vm_compute. reflexivity.
  - vm_compute. split; discriminate.
  - vm_compute. reflexivity.
  - exists stats'. split; [exact Hs|]. split; [exact Ht | exact Hsc].
Defined.
